(** * A typed client for the Jamf School REST API: model and properties

    The development follows the layers of the client:

    - [JS]: the values of the host language the client computes with
      (numbers, strings, object literals, [JSON.stringify], the two regular
      expressions of the code);
    - [Net]: requests, responses, routes and the interaction with the remote
      service, as a free monad over the [fetch] effect;
    - [API]: the API surface of [src/internal/api.ts];
    - [Device], [App]: the domain objects of [src/internal/device.ts] and of
      the class [App].

    The code is modelled by executable definitions, and the examples of the
    test-suite are replayed by computation. *)

From Stdlib Require Import ZArith QArith Qround Qabs Qpower.
From Stdlib Require Import List String Ascii Bool Lia Lqa.
From Stdlib Require Import Decimal DecimalString DecimalPos.
Import ListNotations.

Set Warnings "-register-all".
Local Open Scope string_scope.
Local Open Scope list_scope.

(* ===================================================================== *)
(** ** Host-language values *)
(* ===================================================================== *)

Module JS.

(** *** Characters and strings *)

Definition code (c : ascii) : nat := nat_of_ascii c.

(** [\d] without the unicode flag: the ten ASCII digits. *)
Definition isDigit (c : ascii) : bool :=
  (48 <=? code c)%nat && (code c <=? 57)%nat.

(** [[a-f]] under the [i] flag: both cases of the six hexadecimal letters. *)
Definition isHexLetter (c : ascii) : bool :=
  ((97 <=? code c)%nat && (code c <=? 102)%nat)
  || ((65 <=? code c)%nat && (code c <=? 70)%nat).

Definition chars (s : string) : list ascii := list_ascii_of_string s.
Definition text (l : list ascii) : string := string_of_list_ascii l.

(** *** Numbers

    A JavaScript number is NaN, one of the two infinities, or a finite
    double.  Every finite double is a rational, and the client only compares
    numbers, tests them for integrality and range, and prints them; a finite
    number is therefore kept as the rational it denotes. *)

Inductive number : Type :=
| NaN
| Infinity (negative : bool)
| Finite (q : Q).

Definition ofZ (z : Z) : number := Finite (inject_Z z).
Definition ofNat (n : nat) : number := ofZ (Z.of_nat n).

(** The rational [q] is an integer when its denominator divides its
    numerator; its value is then the quotient. *)
Definition isIntegral (q : Q) : bool := (Qnum q mod Zpos (Qden q) =? 0)%Z.
Definition integerValue (q : Q) : Z := (Qnum q / Zpos (Qden q))%Z.

Definition MAX_SAFE_INTEGER : Z := 2 ^ 53 - 1.

(** [Number.isFinite] *)
Definition Number_isFinite (n : number) : bool :=
  match n with Finite _ => true | _ => false end.

(** [Number.isSafeInteger] *)
Definition Number_isSafeInteger (n : number) : bool :=
  match n with
  | Finite q => isIntegral q && (Z.abs (integerValue q) <=? MAX_SAFE_INTEGER)%Z
  | _ => false
  end.

(** [n >= 0] *)
Definition geZero (n : number) : bool :=
  match n with
  | NaN => false
  | Infinity negative => negb negative
  | Finite q => (0 <=? Qnum q)%Z
  end.

(** [a === b] on numbers: NaN differs from everything, itself included. *)
Definition strictEquals (a b : number) : bool :=
  match a, b with
  | Finite p, Finite q => Qeq_bool p q
  | Infinity s, Infinity t => Bool.eqb s t
  | _, _ => false
  end.

(** [Number(b)] for a boolean [b]. *)
Definition Number_ofBool (b : bool) : number := ofZ (if b then 1 else 0).

(** The decimal numeral of an integer, as template strings and [String]
    print it. *)
Definition decimal (z : Z) : string := NilZero.string_of_int (Z.to_int z).

Section Printing.

(** [Number::toString] prints an integer below [10^21] in magnitude as its
    decimal numeral.  For the other finite doubles (non-integers, and
    magnitudes from [10^21] on) it runs the shortest-round-trip algorithm
    of the language, which is no part of the client: it is a parameter. *)
Variable shortest : Q -> string.

Definition Number_toString (n : number) : string :=
  match n with
  | NaN => "NaN"
  | Infinity negative => if negative then "-Infinity" else "Infinity"
  | Finite q =>
      if isIntegral q && (Z.abs (integerValue q) <? 10 ^ 21)%Z
      then decimal (integerValue q)
      else shortest q
  end.

(** [numbers.join(",")] *)
Definition join (sep : string) (ns : list number) : string :=
  String.concat sep (map Number_toString ns).

End Printing.

(** *** Object literals and JSON

    [value] is the fragment of the language's values that the client builds
    for request bodies: primitives, arrays and object literals, an object
    being the list of its own properties in insertion order. *)

Inductive value : Type :=
| Undefined
| Null
| Bool (b : bool)
| Num (n : number)
| Str (s : string)
| Arr (items : list value)
| Obj (props : list (string * value)).

(** A JSON document, as it travels in a request body. *)
Inductive json : Type :=
| JNull
| JBool (b : bool)
| JNumber (q : Q)
| JString (s : string)
| JArray (items : list json)
| JObject (members : list (string * json)).

(** [JSON.stringify], up to the concrete syntax: a property whose value is
    [undefined] is dropped, an [undefined] array element becomes [null], and
    so do NaN and the infinities.  [None] is the [undefined] that
    [JSON.stringify(undefined)] returns. *)
Fixpoint stringify (v : value) : option json :=
  match v with
  | Undefined => None
  | Null => Some JNull
  | Bool b => Some (JBool b)
  | Num (Finite q) => Some (JNumber q)
  | Num _ => Some JNull
  | Str s => Some (JString s)
  | Arr items =>
      Some (JArray (map (fun x => match stringify x with
                                  | Some j => j
                                  | None => JNull
                                  end) items))
  | Obj props =>
      Some (JObject
        ((fix members (ps : list (string * value)) : list (string * json) :=
            match ps with
            | [] => []
            | (k, x) :: rest =>
                match stringify x with
                | Some j => (k, j) :: members rest
                | None => members rest
                end
            end) props))
  end.

(** [key in object], and [object[key]], on a JSON object. *)
Fixpoint member (key : string) (ms : list (string * json)) : option json :=
  match ms with
  | [] => None
  | (k, j) :: rest => if String.eqb k key then Some j else member key rest
  end.

Definition field (key : string) (j : json) : option json :=
  match j with
  | JObject ms => member key ms
  | _ => None
  end.

Definition hasKey (key : string) (j : json) : bool :=
  match field key j with Some _ => true | None => false end.

(** [val != null]: neither [null] nor [undefined]. *)
Definition notNullish (v : value) : bool :=
  match v with
  | Undefined | Null => false
  | _ => true
  end.

Section Conversion.

Variable shortest : Q -> string.

(** [String(val)].  An array prints its elements separated by commas, a
    [null] or [undefined] element as the empty string; an object literal
    prints as [[object Object]]. *)
Fixpoint String_ (v : value) : string :=
  match v with
  | Undefined => "undefined"
  | Null => "null"
  | Bool b => if b then "true" else "false"
  | Num n => Number_toString shortest n
  | Str s => s
  | Arr items =>
      String.concat ","
        (map (fun x => if notNullish x then String_ x else "") items)
  | Obj _ => "[object Object]"
  end.

End Conversion.

(** *** The coordinate format

    [coords] is the regular expression
    [/^([+-]?\d{1,3}(?:\.\d{1,15})?),([+-]?\d{1,3}(?:\.\d{1,15})?)$/].
    [digits max s] is the greedy [\d{0,max}] at the head of [s]: the digits
    it takes, and what follows them. *)
Fixpoint digits (max : nat) (s : list ascii) : list ascii * list ascii :=
  match max, s with
  | S m, c :: rest =>
      if isDigit c
      then let (ds, after) := digits m rest in (c :: ds, after)
      else ([], s)
  | _, _ => ([], s)
  end.

Definition isSign (c : ascii) : bool := Ascii.eqb c "+" || Ascii.eqb c "-".

(** [[+-]?] *)
Definition sign (s : list ascii) : list ascii * list ascii :=
  match s with
  | c :: rest => if isSign c then ([c], rest) else ([], s)
  | [] => ([], s)
  end.

(** One capture group, [[+-]?\d{1,3}(?:\.\d{1,15})?], at the head of [s]:
    the captured text and what follows it. *)
Definition coordinate (s : list ascii) : option (list ascii * list ascii) :=
  let (sg, s1) := sign s in
  match digits 3 s1 with
  | ([], _) => None
  | (int, s2) =>
      match s2 with
      | c :: s3 =>
          if Ascii.eqb c "." then
            match digits 15 s3 with
            | ([], _) => Some (sg ++ int, s2)
            | (frac, s4) => Some (sg ++ int ++ c :: frac, s4)
            end
          else Some (sg ++ int, s2)
      | [] => Some (sg ++ int, s2)
      end
  end.

(** [string.match(coords)]: the two captures, or [None] for [null]. *)
Definition matchCoords (s : string) : option (string * string) :=
  match coordinate (chars s) with
  | Some (lat, c :: rest) =>
      if Ascii.eqb c "," then
        match coordinate rest with
        | Some (lon, []) => Some (text lat, text lon)
        | _ => None
        end
      else None
  | _ => None
  end.

(** The language of [coords], read off the regular expression: a string
    [lat,lon] whose two parts are an optional sign, one to three digits and
    an optional fraction of a dot and one to fifteen digits. *)
Definition Digits (lo hi : nat) (l : list ascii) : Prop :=
  (lo <= List.length l <= hi)%nat /\ Forall (fun c => isDigit c = true) l.

Definition Sign (l : list ascii) : Prop :=
  l = [] \/ l = ["+"%char] \/ l = ["-"%char].

Definition Fraction (l : list ascii) : Prop :=
  l = [] \/ exists ds, l = "."%char :: ds /\ Digits 1 15 ds.

Inductive Coordinate : list ascii -> Prop :=
| Coordinate_intro (sg int frac : list ascii) :
    Sign sg -> Digits 1 3 int -> Fraction frac ->
    Coordinate (sg ++ int ++ frac).

Definition Coords (s lat lon : string) : Prop :=
  chars s = chars lat ++ ","%char :: chars lon
  /\ Coordinate (chars lat) /\ Coordinate (chars lon).

(** What follows a greedy run of digits does not extend it. *)
Definition stops (after : list ascii) : Prop :=
  match after with
  | c :: _ => isDigit c = false
  | [] => True
  end.

(** What may follow a coordinate in [coords]: the comma, or the end. *)
Definition delimits (rest : list ascii) : Prop :=
  rest = [] \/ exists r, rest = ","%char :: r.

(** *** Doubles

    The finite numbers of the language are the binary64 values of IEEE 754:
    the rationals [m * 2^e] for integers [m] and [e] with [|m| < 2^53] and
    [-1074 <= e <= 971]. *)
Definition isDouble (q : Q) : Prop :=
  exists m e : Z,
    (Z.abs m < 2 ^ 53)%Z /\ (-1074 <= e <= 971)%Z
    /\ (q == inject_Z m * 2 ^ e)%Q.

(** [y] is a double, and no double is nearer to [v]. *)
Definition nearestDouble (y v : Q) : Prop :=
  isDouble y /\ forall y', isDouble y' -> (Qabs (y - v) <= Qabs (y' - v))%Q.

(** The integer nearest to [q]; of two that are equally near, the even
    one. *)
Definition roundHalfEven (q : Q) : Z :=
  let f := Qfloor q in
  match Qcompare (q - inject_Z f) (1 # 2) with
  | Lt => f
  | Gt => (f + 1)%Z
  | Eq => if Z.even f then f else (f + 1)%Z
  end.

(** For a positive [q], the [e] with [2^e <= q < 2^(e+1)]. *)
Definition binade (q : Q) : Z :=
  let e := (Z.log2 (Qnum q) - Z.log2 (Zpos (Qden q)))%Z in
  if Qle_bool (2 ^ e) q then e else (e - 1)%Z.

(** The Number value for a rational that a numeric literal denotes: the
    double nearest to it, the one of even significand when two are equally
    near, and an infinity when that rounding reaches [2^1024].  The
    significand has 53 bits from the binade [-1022] on; below it the
    doubles are the multiples of [2^-1074].  The two zeros of the language
    are the one rational 0. *)
Definition toNumber (q : Q) : number :=
  if Qeq_bool q 0 then Finite 0
  else
    let a := Qabs q in
    let e := Z.max (binade a) (-1022) in
    let ulp := (2 ^ (e - 52))%Q in
    let r := (inject_Z (roundHalfEven (a / ulp)) * ulp)%Q in
    if Qle_bool (2 ^ 1024) r then Infinity (Qnum q <? 0)%Z
    else Finite (Qred (if (Qnum q <? 0)%Z then - r else r)).

(** *** [parseFloat]

    On a decimal literal without exponent: an optional sign, digits, and an
    optional fraction; what follows the literal is ignored, and a string
    that starts with no such literal gives NaN.  (Leading blanks, exponents
    and the literal [Infinity], which [parseFloat] also reads, do not occur
    in what the client passes.)  The result is the Number value for the
    decimal that the literal denotes. *)
Definition digitValue (c : ascii) : Z := Z.of_nat (code c - 48).

Definition numeral (ds : list ascii) : Z :=
  fold_left (fun acc c => 10 * acc + digitValue c)%Z ds 0%Z.

Definition leadingDigits (s : list ascii) : list ascii * list ascii :=
  digits (List.length s) s.

Definition parseFloat (s : string) : number :=
  let (sg, s1) := sign (chars s) in
  let (int, s2) := leadingDigits s1 in
  let frac :=
    match s2 with
    | c :: s3 => if Ascii.eqb c "." then fst (leadingDigits s3) else []
    | [] => []
    end in
  match int ++ frac with
  | [] => NaN
  | ds =>
      let magnitude := numeral ds in
      let numerator :=
        if existsb (Ascii.eqb "-") sg then (- magnitude)%Z else magnitude in
      toNumber (Qmake numerator (Z.to_pos (10 ^ Z.of_nat (List.length frac))))
  end.

(** The rational that a text of the coordinate format denotes: the digits
    before and after the dot read as one decimal numeral, by the reader of
    the Standard Library, divided by the power of ten of the number of
    digits after the dot, with the sign of the text. *)
Inductive Reads : list ascii -> Q -> Prop :=
| Reads_intro (sg int ds : list ascii) (u : Decimal.uint) :
    Sign sg -> Digits 1 3 int -> Digits 0 15 ds ->
    NilEmpty.uint_of_string (text (int ++ ds)) = Some u ->
    Reads (sg ++ int ++ match ds with
                        | [] => []
                        | _ => "."%char :: ds
                        end)
          ((if existsb (Ascii.eqb "-") sg then - (1) else 1)
           * (inject_Z (Z.of_uint u) / 10 ^ Z.of_nat (List.length ds)))%Q.

End JS.

(* ===================================================================== *)
(** ** The remote service *)
(* ===================================================================== *)

Module Net.

Inductive Method : Type := GET | PUT | POST.

(** What the transport adapter hands to [fetch]: the method, the path below
    the prefix URL, the query ([None]: no query string at all) and the JSON
    body ([None]: no body).  The two fixed headers of the client
    ([Authorization] and [X-Server-Protocol-Version]) are the same on every
    request and are left out. *)
Record Request : Type := {
  method : Method;
  path : string;
  searchParams : option (list (string * string));
  body : option JS.json
}.

(** The routes used by the methods modelled below. *)
Inductive Route : Type :=
| GET_devices
| GET_devices_udid
| PUT_devices_udid_owner
| PUT_devices_udid_migrate
| PUT_devices_migrate
| POST_devices_udid_details
| GET_apps
| GET_apps_id.

(** *** Records of the response schemas *)

Module OS.
Record t : Type := { prefix : string; version : string }.
End OS.

Module Model.
Record t : Type := { name : string; identifier : string; type : string }.
End Model.

Module Vpp.
Record t : Type := { status : string }.
End Vpp.

Module Owner.
Record t : Type := {
  id : JS.number;
  locationId : JS.number;
  name : string;
  username : option string;
  email : option string;
  firstName : option string;
  lastName : option string;
  notes : option string;
  modified : option string;
  vpp : list Vpp.t
}.
End Owner.

Module Region.
(** "Yeah, it really is a key named [string]". *)
Record t : Type := {
  string : String.string;
  coordinates : option String.string
}.
End Region.

Module InstalledApp.
Record t : Type := {
  name : string;
  identifier : string;
  version : string;
  vendor : string;
  icon : string
}.
End InstalledApp.

Module ServiceSubscription.
Record t : Type := {
  CarrierSettingsVersion : string;
  CurrentCarrierNetwork : string;
  CurrentMCC : string;
  CurrentMNC : string;
  ICCID : string;
  IMEI : string;
  IsDataPreferred : bool;
  IsRoaming : bool;
  IsVoicePreferred : bool;
  Label : string;
  LabelID : string;
  MEID : option string;
  EID : option string;
  PhoneNumber : string;
  Slot : string
}.
End ServiceSubscription.

Module NetworkInformation.
Record t : Type := {
  IPAddress : string;
  isNetworkTethered : string;
  BluetoothMAC : string;
  WiFiMAC : string;
  EthernetMACs : option string;
  VoiceRoamingEnabled : string;
  DataRoamingEnabled : string;
  PersonalHotspotEnabled : string;
  ServiceSubscription : option (list ServiceSubscription.t)
}.
End NetworkInformation.

Inductive EnrollType : Type := manual | ac2 | ac2Pending | dep | depPending.

(** One element of [devices] in the response of [GET /devices]. *)
Record DeviceData : Type := {
  UDID : string;
  locationId : JS.number;
  serialNumber : string;
  name : string;
  isManaged : bool;
  isSupervised : bool;
  class : string;
  assetTag : string;
  os : OS.t;
  model : Model.t;
  owner : Owner.t;
  groups : list string;
  enrollType : EnrollType;
  batteryLevel : JS.number;
  totalCapacity : JS.number;
  availableCapacity : JS.number;
  iCloudBackupEnabled : bool;
  iCloudBackupLatest : string;
  iTunesStoreLoggedIn : bool;
  isBootstrapStored : option bool;
  region : Region.t;
  apps : option (list InstalledApp.t);
  modified : string;
  depProfile : string;
  notes : string;
  lastCheckin : string;
  networkInformation : NetworkInformation.t
}.

Record DevicesResponse : Type := {
  code : JS.number;
  count : JS.number;
  devices : list DeviceData
}.

(** Modelled from the spec: the schema of [GET /devices/:udid] is not among
    the sources.  The route returns the payload field [device], with the
    installed apps when [includeApps] is asked for; the client reads nothing
    but that optional list of it. *)
Module DeviceDetail.
Record t : Type := {
  UDID : string;
  apps : option (list InstalledApp.t)
}.
End DeviceDetail.

Record DeviceResponse : Type := { device : DeviceDetail.t }.

(** Modelled from the spec: the schema of [GET /apps] is not among the
    sources.  An app has a numeric ID, an optional store ID, a book flag and
    a bundle ID; the remaining fields are the ones the getters of [App]
    read. *)
Module AppData.
Record t : Type := {
  id : JS.number;
  adamId : option JS.number;
  bundleId : string;
  icon : string;
  isBook : bool;
  isDeleted : option bool;
  name : string;
  price : option JS.number;
  version : string;
  locationId : JS.number
}.
End AppData.

Record AppsResponse : Type := { apps_ : list AppData.t }.

(** The type a response has once its route's validator accepted it.  The
    schemas of the write routes are not among the sources and their
    responses are only passed through: they stay JSON documents. *)
Definition RouteData (r : Route) : Type :=
  match r with
  | GET_devices => DevicesResponse
  | GET_devices_udid => DeviceResponse
  | GET_apps => AppsResponse
  | GET_apps_id => AppData.t
  | PUT_devices_udid_owner
  | PUT_devices_udid_migrate
  | PUT_devices_migrate
  | POST_devices_udid_details => JS.json
  end.

(** *** Responses

    The body of a response either is no JSON at all, or is a JSON document
    that the validator of the route rejects, or is one that it accepts; in
    the last case the document is seen at the type of the route. *)
Inductive Payload (A : Type) : Type :=
| NotJSON
| Rejected
| Accepted (data : A).
Arguments NotJSON {A}.
Arguments Rejected {A}.
Arguments Accepted {A} data.

Record Response (r : Route) : Type := {
  status : Z;
  payload : Payload (RouteData r)
}.
Arguments status {r} _.
Arguments payload {r} _.

(** [response.ok] *)
Definition ok {r} (resp : Response r) : bool :=
  (200 <=? status resp)%Z && (status resp <=? 299)%Z.

(** *** Failures *)

(** [new URL(request.url).pathname].  The adapter joins the prefix URL of
    the client, with a slash put at its end when it has none, and the path
    of the request; the paths that the client sends are made of letters,
    digits, dashes and slashes, so the pathname of the joined URL is the
    pathname of that prefix followed by the path.  The prefix URL is fixed
    when the client is made and is no part of a request: a pathname is kept
    as the path below the prefix, and [pathnameUnder] gives the string for
    the pathname of the prefix (["/"] for [https://school.jamfcloud.com],
    ["/api/"] for [https://school.jamfcloud.com/api]). *)
Inductive Pathname : Type := belowPrefix (path : string).

Definition pathnameUnder (prefix : string) (p : Pathname) : string :=
  match p with
  | belowPrefix path => prefix ++ path
  end.

Definition pathname (req : Request) : Pathname := belowPrefix (path req).

Inductive Error : Type :=
| AssertionError (message : string)      (* a failed [assert] *)
| PlainError (message : string)          (* [new Error(message)] *)
| SyntaxError                            (* [.json()] on a body that is no JSON *)
| SchemaError (route : Route)
| AuthError
| PermissionError (method : Method) (endpoint : Pathname)
| APIError (status : Z) (method : Method) (endpoint : string)
                                         (* made by [APIError.of], which is
                                            not among the sources: the status
                                            and the originating route, after
                                            the spec *).

(** *** Programs that talk to the remote service

    [IO A] is a computation that issues requests and finally yields an [A].
    [Fetch r req k] sends [req] and continues with the response; [Race k]
    asks which of two pending computations settled first, where the client
    awaits two of them together. *)
Inductive IO (A : Type) : Type :=
| Ret (a : A)
| Fetch (r : Route) (req : Request) (k : Response r -> IO A)
| Race (k : bool -> IO A).
Arguments Ret {A} a.
Arguments Fetch {A} r req k.
Arguments Race {A} k.

Fixpoint bind {A B} (p : IO A) (f : A -> IO B) : IO B :=
  match p with
  | Ret a => f a
  | Fetch r req k => Fetch r req (fun resp => bind (k resp) f)
  | Race k => Race (fun b => bind (k b) f)
  end.

(** A promise settles with a value or is rejected with an error. *)
Definition Promise (A : Type) : Type := IO (Error + A).

Definition resolve {A} (a : A) : Promise A := Ret (inr a).
Definition throw {A} (e : Error) : Promise A := Ret (inl e).

(** [await p; rest] *)
Definition await {A B} (p : Promise A) (rest : A -> Promise B) : Promise B :=
  bind p (fun r => match r with inl e => Ret (inl e) | inr a => rest a end).

(** [assert(cond, message)] *)
Definition assert (cond : bool) (message : string) : Promise unit :=
  if cond then resolve tt else throw (AssertionError message).

(** *** The remote service as an oracle

    The service answers every request, knowing the requests sent before it,
    and decides the races. *)
Record Remote : Type := {
  respond : forall r : Route, list Request -> Request -> Response r;
  firstSettles : list Request -> bool
}.

Fixpoint run {A} (w : Remote) (sent : list Request) (p : IO A)
  : list Request * A :=
  match p with
  | Ret a => (sent, a)
  | Fetch r req k => run w (sent ++ [req]) (k (respond w r sent req))
  | Race k => run w sent (k (firstSettles w sent))
  end.

(** The requests a program sends to [w], and what it yields. *)
Definition requests {A} (w : Remote) (p : IO A) : list Request :=
  fst (run w [] p).
Definition outcome {A} (w : Remote) (p : IO A) : A :=
  snd (run w [] p).

(** The request a program starts with, if it starts with one. *)
Definition firstRequest {A} (p : IO A) : option Request :=
  match p with
  | Fetch _ req _ => Some req
  | _ => None
  end.

(** *** Methods of an object

    A method of a domain object reads and replaces the private state of the
    object, talks to the remote service, and returns or throws; the state
    survives a throw.  [S] is the state of the object. *)
Definition Stateful (S A : Type) : Type := S -> IO (S * (Error + A)).

Definition mret {S A} (a : A) : Stateful S A := fun s => Ret (s, inr a).
Definition mthrow {S A} (e : Error) : Stateful S A := fun s => Ret (s, inl e).

Definition mbind {S A B} (m : Stateful S A) (f : A -> Stateful S B)
  : Stateful S B :=
  fun s => bind (m s) (fun '(s', r) =>
    match r with
    | inl e => Ret (s', inl e)
    | inr a => f a s'
    end).

(** [this] *)
Definition this {S} : Stateful S S := fun s => Ret (s, inr s).

(** An assignment to the private state. *)
Definition assign {S} (s' : S) : Stateful S unit := fun _ => Ret (s', inr tt).

(** [await] of a call that does not touch the object. *)
Definition call {S A} (p : Promise A) : Stateful S A :=
  fun s => bind p (fun r => Ret (s, r)).

(** [try { m } catch (e) { ... }]: the result of [m], a thrown error being
    handed over as a value. *)
Definition attempt {S A} (m : Stateful S A) : Stateful S (Error + A) :=
  fun s => bind (m s) (fun '(s', r) => Ret (s', inr r)).

(** *** [Promise.all] of two promises

    Both computations are started, the first before the second.  The result
    is fulfilled when both are; it is rejected with the error of the one
    that is rejected first.  A computation that is rejected before it awaits
    anything is rejected before one that waits for the network; between two
    that wait, the remote service decides. *)
Definition suspends {A} (p : IO A) : bool :=
  match p with
  | Ret _ => false
  | _ => true
  end.

Definition all2 {A B} (p : Promise A) (q : Promise B) : Promise (A * B) :=
  bind p (fun ra => bind q (fun rb =>
    match ra, rb with
    | inr a, inr b => resolve (a, b)
    | inl e, inr _ => throw e
    | inr _, inl e => throw e
    | inl e1, inl e2 =>
        if negb (suspends p) then throw e1
        else if negb (suspends q) then throw e2
        else Race (fun first => throw (if first then e1 else e2))
    end)).

(** The error that [all2] reports when both computations fail, [sent]
    being the requests sent when the race is decided. *)
Definition earlier {A B} (w : Remote) (sent : list Request)
    (p : Promise A) (q : Promise B) (e1 e2 : Error) : Error :=
  if negb (suspends p) then e1
  else if negb (suspends q) then e2
  else if firstSettles w sent then e1 else e2.

End Net.

Declare Scope promise_scope.
Delimit Scope promise_scope with promise.
Notation "x <- p ;; q" := (Net.await p (fun x => q))
  (at level 61, p at next level, right associativity) : promise_scope.
Notation "p ;; q" := (Net.await p (fun _ => q))
  (at level 61, right associativity) : promise_scope.

Declare Scope method_scope.
Delimit Scope method_scope with method.
Notation "x <- m ;; n" := (Net.mbind m (fun x => n))
  (at level 61, m at next level, right associativity) : method_scope.
Notation "m ;; n" := (Net.mbind m (fun _ => n))
  (at level 61, right associativity) : method_scope.

(* ===================================================================== *)
(** ** The API surface ([src/internal/api.ts]) *)
(* ===================================================================== *)

Module API.
Import Net.
Local Open Scope promise_scope.

(** [isValidUDID]: the test of [/^[0-9a-f\-]+$/i], that is, a non-empty
    string of hexadecimal digits and dashes. *)
Definition isUDIDChar (c : ascii) : bool :=
  JS.isDigit c || JS.isHexLetter c || Ascii.eqb c "-".

Definition isValidUDID (udid : string) : bool :=
  match JS.chars udid with
  | [] => false
  | cs => forallb isUDIDChar cs
  end.

(** Checks if a string is a valid UDID, and throws if it isn't. *)
Definition assertValidUDID (udid : string) : Promise unit :=
  assert (isValidUDID udid) ("Invalid UDID: " ++ udid).

Definition isValidID (id : JS.number) : bool :=
  JS.Number_isFinite id && JS.Number_isSafeInteger id && JS.geZero id.

(** Checks if a number is a valid ID, and throws if it isn't. *)
Definition assertValidID (id : JS.number) : Promise unit :=
  assert (isValidID id) "Invalid ID: must be a positive integer.".

(** [array.forEach(f)] for an [f] that may throw. *)
Fixpoint forEach {A} (f : A -> Promise unit) (l : list A) : Promise unit :=
  match l with
  | [] => resolve tt
  | x :: rest => f x ;; forEach f rest
  end.

(** The three [afterResponse] hooks, in the order in which they are
    installed: 405, then 401, then any status that is not 2xx.  The first
    makes its error of the method of the request and of the pathname of its
    URL; the last hands the request and the response to [APIError.of]. *)
Definition afterResponse (req : Request) {r} (resp : Response r)
  : option Error :=
  if (status resp =? 405)%Z then
    Some (PermissionError (method req) (pathname req))
  else if (status resp =? 401)%Z then
    Some AuthError
  else if negb (ok resp) then
    Some (APIError (status resp) (method req) (path req))
  else None.

(** [this.http.<method>(path, options).json()] *)
Definition json (r : Route) (req : Request) : Promise (Payload (RouteData r)) :=
  Fetch r req (fun resp =>
    match afterResponse req resp with
    | Some e => throw e
    | None =>
        match payload resp with
        | NotJSON => throw SyntaxError
        | data => resolve data
        end
    end).

(** [schemas.assertValid(route, data)] *)
Definition assertValid (r : Route) (data : Payload (RouteData r))
  : Promise (RouteData r) :=
  match data with
  | Accepted d => resolve d
  | _ => throw (SchemaError r)
  end.

(** What a method gets from one exchange with the remote service: the
    hooks, then [.json()], then the validator of the route. *)
Definition answer (r : Route) (req : Request) (resp : Response r)
  : Error + RouteData r :=
  match afterResponse req resp with
  | Some e => inl e
  | None =>
      match payload resp with
      | NotJSON => inl SyntaxError
      | Rejected => inl (SchemaError r)
      | Accepted d => inr d
      end
  end.

(** *** Options of the methods

    The option types are declared in [src/models/api.ts], which is not
    among the sources; their fields are the ones the methods read.  A field
    that is absent is [None]. *)

Record APIGetDeviceOptions : Type := {
  getDevice_includeApps : option bool
}.

Record APIGetDevicesOptions : Type := {
  groupIds : option (list JS.number);
  ownerGroupIds : option (list JS.number);
  isOwned : option bool;
  ownerId : option JS.number;
  ownerName : option string;
  isManaged : option bool;
  modelIdentifier : option string;
  locationId : option JS.number;
  isSupervised : option bool;
  isTrashed : option bool;
  assetTag : option string;
  serialNumber : option string;
  enrollmentType : option string;
  includeApps : option bool
}.

(** The empty options object [{}]. *)
Definition noOptions : APIGetDevicesOptions :=
  {| groupIds := None; ownerGroupIds := None; isOwned := None;
     ownerId := None; ownerName := None; isManaged := None;
     modelIdentifier := None; locationId := None; isSupervised := None;
     isTrashed := None; assetTag := None; serialNumber := None;
     enrollmentType := None; includeApps := None |}.

Record APIMoveDeviceOptions : Type := { onlyDevice : option bool }.
Definition APIMoveDevicesOptions : Type := APIMoveDeviceOptions.

(** An optional property read as a value: [undefined] when absent. *)
Definition optional {A} (inject : A -> JS.value) (o : option A) : JS.value :=
  match o with
  | Some a => inject a
  | None => JS.Undefined
  end.

(** [options?.onlyDevice] *)
Definition onlyDeviceOf (options : option APIMoveDeviceOptions) : JS.value :=
  match options with
  | Some o => optional JS.Bool (onlyDevice o)
  | None => JS.Undefined
  end.

(** [typeof val === "boolean" ? Number(val) : val] *)
Definition castBoolean (val : JS.value) : JS.value :=
  match val with
  | JS.Bool b => JS.Num (JS.Number_ofBool b)
  | _ => val
  end.

Section Surface.

Variable shortest : Q -> string.

(** Convert an object to search params, skipping undefined and null
    entries.  If there are no entries remaining after filtering,
    [undefined] is returned.  Booleans are cast to their numeric
    representation.  [data] lists the entries of the object in the order
    of [Object.entries]. *)
Definition toSearchParams (data : list (string * JS.value))
  : option (list (string * string)) :=
  let entries :=
    map (fun '(key, val) => (key, JS.String_ shortest val))
      (map (fun '(key, val) => (key, castBoolean val))
         (filter (fun '(_, val) => JS.notNullish val) data)) in
  match entries with
  | [] => None
  | _ => Some entries
  end.

Definition getDevice (udid : string) (options : APIGetDeviceOptions)
  : Promise DeviceDetail.t :=
  assertValidUDID udid ;;
  data <- json GET_devices_udid
    {| method := GET;
       path := "devices/" ++ udid;
       searchParams := toSearchParams
         [ (* Unlike other booleans, this has to be the string "true" or
              "false". *)
           ("includeApps",
            match getDevice_includeApps options with
            | Some true => JS.Str "true"
            | _ => JS.Undefined
            end) ];
       body := None |} ;;
  data <- assertValid GET_devices_udid data ;;
  resolve (device data).

Definition joined (ids : list JS.number) : JS.value :=
  JS.Str (JS.join shortest "," ids).

Definition getDevices (options : APIGetDevicesOptions)
  : Promise (list DeviceData) :=
  data <- json GET_devices
    {| method := GET;
       path := "devices";
       searchParams := toSearchParams
         [ ("groups", optional joined (groupIds options));
           ("ownergroups", optional joined (ownerGroupIds options));
           ("hasOwner", optional JS.Bool (isOwned options));
           ("owner", optional JS.Num (ownerId options));
           ("name", optional JS.Str (ownerName options));
           ("managed", optional JS.Bool (isManaged options));
           ("model", optional JS.Str (modelIdentifier options));
           ("location", optional JS.Num (locationId options));
           ("supervised", optional JS.Bool (isSupervised options));
           ("inTrash", optional JS.Bool (isTrashed options));
           ("assettag", optional JS.Str (assetTag options));
           ("serialnumber", optional JS.Str (serialNumber options));
           ("enrollType", optional JS.Str (enrollmentType options));
           ("includeApps",
            (* options.includeApps || undefined *)
            match includeApps options with
            | Some true => JS.Bool true
            | _ => JS.Undefined
            end) ];
       body := None |} ;;
  data <- assertValid GET_devices data ;;
  resolve (devices data).

Definition setDeviceOwner (udid : string) (userId : JS.number)
  : Promise JS.json :=
  assertValidUDID udid ;;
  assertValidID userId ;;
  data <- json PUT_devices_udid_owner
    {| method := PUT;
       path := "devices/" ++ udid ++ "/owner";
       searchParams := None;
       body := JS.stringify (JS.Obj [("user", JS.Num userId)]) |} ;;
  assertValid PUT_devices_udid_owner data.

Definition moveDevice (udid : string) (locationId : JS.number)
  (options : option APIMoveDeviceOptions) : Promise JS.json :=
  assertValidUDID udid ;;
  assertValidID locationId ;;
  let payload :=
    JS.Obj [("locationId", JS.Num locationId);
            ("onlyDevice", onlyDeviceOf options)] in
  data <- json PUT_devices_udid_migrate
    {| method := PUT;
       path := "devices/" ++ udid ++ "/migrate";
       searchParams := None;
       body := JS.stringify payload |} ;;
  assertValid PUT_devices_udid_migrate data.

Definition moveDevices (devices : list string) (locationId : JS.number)
  (options : option APIMoveDevicesOptions) : Promise JS.json :=
  assertValidID locationId ;;
  assert (0 <? List.length devices)%nat "" ;;
  assert (List.length devices <=? 20)%nat "" ;;
  forEach assertValidUDID devices ;;
  let payload :=
    JS.Obj [("locationId", JS.Num locationId);
            ("udids", JS.Arr (map JS.Str devices));
            ("onlyDevice", onlyDeviceOf options)] in
  data <- json PUT_devices_migrate
    {| method := PUT;
       path := "devices/migrate";
       searchParams := None;
       body := JS.stringify payload |} ;;
  assertValid PUT_devices_migrate data.

(** [data] is the object literal the caller passes, sent as it is. *)
Definition updateDevice (udid : string) (data : JS.value)
  : Promise JS.json :=
  assertValidUDID udid ;;
  json_ <- json POST_devices_udid_details
    {| method := POST;
       path := "devices/" ++ udid ++ "/details";
       searchParams := None;
       body := JS.stringify data |} ;;
  assertValid POST_devices_udid_details json_.

Definition getApps : Promise (list AppData.t) :=
  data <- json GET_apps
    {| method := GET; path := "apps"; searchParams := None; body := None |} ;;
  data <- assertValid GET_apps data ;;
  resolve (apps_ data).

Definition getApp (id : JS.number) : Promise AppData.t :=
  assertValidID id ;;
  data <- json GET_apps_id
    {| method := GET;
       path := "apps/" ++ JS.Number_toString shortest id;
       searchParams := None;
       body := None |} ;;
  assertValid GET_apps_id data.

End Surface.

(** The body of the bulk move, as [JSON.stringify] prints the payload. *)
Definition moveDevicesBody (devices : list string) (q : Q)
    (options : option APIMoveDevicesOptions) : JS.json :=
  JS.JObject
    (("locationId", JS.JNumber q)
     :: ("udids", JS.JArray (map JS.JString devices))
     :: match options with
        | Some {| onlyDevice := Some b |} => [("onlyDevice", JS.JBool b)]
        | _ => []
        end).

End API.

(* ===================================================================== *)
(** ** Failures that a traversal absorbs ([src/internal/api_error.ts]) *)
(* ===================================================================== *)

Module APIErrors.
Import Net.

(** The failures of the remote service: 401, 405 and the other statuses
    that are not 2xx. *)
Definition recoverable (e : Error) : bool :=
  match e with
  | AuthError | PermissionError _ _ | APIError _ _ _ => true
  | _ => false
  end.

(** Modelled from the spec: [suppressAPIError(value, error)] is imported
    from [src/internal/api_error.ts], which is not among the sources.  A
    traversal catches only the recoverable remote failures
    (AuthError/PermissionError/APIError-class) and substitutes the given
    empty or null result; any other error stays fatal and is thrown
    again. *)
Definition suppressAPIError {S A} (value : A) (error : Error) : Stateful S A :=
  if recoverable error then mret value else mthrow error.

End APIErrors.

(* ===================================================================== *)
(** ** Domain objects *)
(* ===================================================================== *)

(** The factory ([Creator] in [src/internal/client.ts]) wraps a raw record
    into a domain object.  The references of an object to the API surface
    and to the factory are shared and never change: the state of an object
    is its private [#data]. *)
Module Client.
Record Device : Type := createDevice { deviceData : Net.DeviceData }.
Record App : Type := createApp { appData : Net.AppData.t }.
End Client.

(** *** [Device] ([src/internal/device.ts]) *)

Module Device.
Import Net APIErrors.
Local Open Scope method_scope.

Definition t : Type := Client.Device.
Definition data (d : t) : DeviceData := Client.deviceData d.

(** The value [getRegion] returns for a device that has a region. *)
Record RegionInfo : Type := {
  name : string;
  latitude : JS.number;
  longitude : JS.number
}.

(** An argument of the shape [{ id: number }]. *)
Record HasId : Type := { id : JS.number }.

Definition udid (d : t) : string := UDID (data d).
Definition serialNumber (d : t) : string := Net.serialNumber (data d).
Definition assetTag (d : t) : string := Net.assetTag (data d).
Definition locationId (d : t) : JS.number := Net.locationId (data d).
Definition ownerId (d : t) : JS.number := Owner.id (owner (data d)).

(** [getRegion]: [inr None] is [null]. *)
Definition getRegion (d : t) : Error + option RegionInfo :=
  if String.eqb (Region.string (region (data d))) "" then inr None
  else
    (* this.#data.region.coordinates?.match(coords) *)
    let match_ :=
      match Region.coordinates (region (data d)) with
      | Some coordinates => JS.matchCoords coordinates
      | None => None
      end in
    match match_ with
    | None => inl (AssertionError "Unexpected coordinate format")
    | Some (g1, g2) =>
        inr (Some {| name := Region.string (region (data d));
                     latitude := JS.parseFloat g1;
                     longitude := JS.parseFloat g2 |})
    end.

Section Methods.

Variable shortest : Q -> string.

(** The options object [{ serialNumber }]. *)
Definition bySerialNumber (sn : string) : API.APIGetDevicesOptions :=
  {| API.groupIds := None; API.ownerGroupIds := None; API.isOwned := None;
     API.ownerId := None; API.ownerName := None; API.isManaged := None;
     API.modelIdentifier := None; API.locationId := None;
     API.isSupervised := None; API.isTrashed := None;
     API.assetTag := None; API.serialNumber := Some sn;
     API.enrollmentType := None; API.includeApps := None |}.

Definition update : Stateful t unit :=
  d <- this ;;
  devices <- call (API.getDevices shortest
                     (bySerialNumber (Net.serialNumber (data d)))) ;;
  if negb (List.length devices =? 1)%nat then
    mthrow (PlainError ("Expected 1 device, got "
                        ++ JS.decimal (Z.of_nat (List.length devices))))
  else
    (* this.#data = devices[0] *)
    match nth_error devices 0 with
    | Some device => assign (Client.createDevice device)
    | None => mret tt (* not reached: the array has one element *)
    end.

Definition setOwner (user : HasId) : Stateful t unit :=
  d <- this ;;
  call (assert (negb (JS.strictEquals (id user) (JS.ofZ 0)))
    "Using ID 0 would remove the owner. If this is intentional, use `Device.removeOwner()`") ;;
  if negb (JS.strictEquals (Owner.id (owner (data d))) (id user))
  then call (API.setDeviceOwner (UDID (data d)) (id user)) ;; mret tt
  else mret tt.

Definition removeOwner : Stateful t unit :=
  d <- this ;;
  if negb (JS.strictEquals (Owner.id (owner (data d))) (JS.ofZ 0))
  then call (API.setDeviceOwner (UDID (data d)) (JS.ofZ 0)) ;; mret tt
  else mret tt.

Definition getApps : Stateful t (list Client.App) :=
  d <- this ;;
  settled <- attempt (call (all2
               (API.getApps)
               (API.getDevice shortest (UDID (data d))
                  {| API.getDevice_includeApps := Some true |}))) ;;
  match settled with
  | inl e => suppressAPIError [] e
  | inr (apps, myAppData) =>
      (* It's possible that this could be omitted, which is an error
         condition. *)
      match DeviceDetail.apps myAppData with
      | None => mthrow (PlainError "Missing 'apps' property in returned apps")
      | Some installed =>
          let myAppIdentifiers := map InstalledApp.identifier installed in
          let myApps :=
            filter (fun app =>
                      existsb (String.eqb (AppData.bundleId app))
                        myAppIdentifiers) apps in
          mret (map Client.createApp myApps)
      end
  end.

Definition setAssetTag (text : string) : Stateful t unit :=
  d <- this ;;
  if negb (String.eqb (Net.assetTag (data d)) text)
  then call (API.updateDevice (UDID (data d))
               (JS.Obj [("assetTag", JS.Str text)])) ;; mret tt
  else mret tt.

Definition setNotes (text : string) : Stateful t unit :=
  d <- this ;;
  if negb (String.eqb (Net.notes (data d)) text)
  then call (API.updateDevice (UDID (data d))
               (JS.Obj [("notes", JS.Str text)])) ;; mret tt
  else mret tt.

Definition setLocation (location : HasId) : Stateful t unit :=
  d <- this ;;
  if negb (JS.strictEquals (Net.locationId (data d)) (id location))
  then call (API.moveDevice (UDID (data d)) (id location) None) ;; mret tt
  else mret tt.

(** The two fetches that the properties of [update] and [getApps] speak
    about: the lookup by serial number, and the device detail with the
    apps included. *)
Definition lookup (d : t) : Promise (list DeviceData) :=
  API.getDevices shortest (bySerialNumber (serialNumber d)).

Definition detail (d : t) : Promise DeviceDetail.t :=
  API.getDevice shortest (udid d) {| API.getDevice_includeApps := Some true |}.

End Methods.

End Device.

(** *** [App] (the class [App], next to [device.ts]) *)

Module App.
Import Net.
Local Open Scope method_scope.

Definition t : Type := Client.App.
Definition data (a : t) : AppData.t := Client.appData a.

Definition id (a : t) : JS.number := AppData.id (data a).
Definition bundleId (a : t) : string := AppData.bundleId (data a).

Section Methods.

Variable shortest : Q -> string.

Definition update : Stateful t unit :=
  a <- this ;;
  fetched <- call (API.getApp shortest (AppData.id (data a))) ;;
  assign (Client.createApp fetched).

End Methods.

End App.

(* ===================================================================== *)
(** ** Sample data *)
(* ===================================================================== *)

Module Samples.
Import Net.

(** A printer for the numbers that are no integers; the samples print
    none. *)
Definition noFraction (q : Q) : string := "".

Definition tablet (udid serial : string) (location ownerId : Z)
    (regionName : string) (coordinates : option string) : DeviceData :=
  {| UDID := udid;
     locationId := JS.ofZ location;
     serialNumber := serial;
     name := "iPad";
     isManaged := true;
     isSupervised := true;
     class := "ipad";
     assetTag := "A-1";
     os := {| OS.prefix := "iOS"; OS.version := "15.1" |};
     model := {| Model.name := "iPad (7th generation)";
                 Model.identifier := "iPad7,11";
                 Model.type := "iPad" |};
     owner := {| Owner.id := JS.ofZ ownerId;
                 Owner.locationId := JS.ofZ location;
                 Owner.name := "";
                 Owner.username := None;
                 Owner.email := None;
                 Owner.firstName := None;
                 Owner.lastName := None;
                 Owner.notes := None;
                 Owner.modified := None;
                 Owner.vpp := [] |};
     groups := ["IT Devices"];
     enrollType := dep;
     batteryLevel := JS.ofZ 1;
     totalCapacity := JS.ofZ 32;
     availableCapacity := JS.ofZ 20;
     iCloudBackupEnabled := false;
     iCloudBackupLatest := "";
     iTunesStoreLoggedIn := false;
     isBootstrapStored := None;
     region := {| Region.string := regionName;
                  Region.coordinates := coordinates |};
     apps := None;
     modified := "";
     depProfile := "";
     notes := "spare";
     lastCheckin := "";
     networkInformation :=
       {| NetworkInformation.IPAddress := "10.0.0.2";
          NetworkInformation.isNetworkTethered := "0";
          NetworkInformation.BluetoothMAC := "";
          NetworkInformation.WiFiMAC := "";
          NetworkInformation.EthernetMACs := None;
          NetworkInformation.VoiceRoamingEnabled := "0";
          NetworkInformation.DataRoamingEnabled := "0";
          NetworkInformation.PersonalHotspotEnabled := "0";
          NetworkInformation.ServiceSubscription := None |} |}.

(** An iPad at location 0, owned by user 7, in a region with coordinates. *)
Definition ipad : Client.Device :=
  Client.createDevice
    (tablet "c0ffee" "F9FXH0" 0 7 "Home" (Some "12.34,-56.78")).

(** The same serial number under another UDID. *)
Definition reenrolled : DeviceData :=
  tablet "decaf" "F9FXH0" 0 7 "Home" (Some "12.34,-56.78").

(** A device that nobody owns. *)
Definition unowned : Client.Device :=
  Client.createDevice (tablet "c0ffee" "F9FXH0" 0 0 "" None).

(** A region name without coordinates. *)
Definition uncharted : Client.Device :=
  Client.createDevice (tablet "c0ffee" "F9FXH0" 0 7 "Home" None).

Definition app (id : Z) (bundleId : string) : AppData.t :=
  {| AppData.id := JS.ofZ id;
     AppData.adamId := None;
     AppData.bundleId := bundleId;
     AppData.icon := "";
     AppData.isBook := false;
     AppData.isDeleted := None;
     AppData.name := "Notes";
     AppData.price := None;
     AppData.version := "1.0";
     AppData.locationId := JS.ofZ 0 |}.

(** A remote service that answers a route always in the same way. *)
Definition remote (answers : forall r : Route, Response r) (first : bool)
  : Remote :=
  {| respond := fun r _ _ => answers r; firstSettles := fun _ => first |}.

(** Every route answers 500. *)
Definition down (r : Route) : Response r :=
  Build_Response r 500 NotJSON.

(** A 200 response whose body the validator of the route accepts. *)
Definition accepted (r : Route) (data : RouteData r) : Response r :=
  Build_Response r 200 (Accepted data).

(** [GET /devices] lists [ds]; the other routes are down. *)
Definition listing (ds : list DeviceData) (r : Route) : Response r :=
  match r return Response r with
  | GET_devices =>
      accepted GET_devices {| code := JS.ofZ 200;
                              count := JS.ofNat (List.length ds);
                              devices := ds |}
  | r' => down r'
  end.

(** [GET /apps/:id] returns [a]; the other routes are down. *)
Definition serving (a : AppData.t) (r : Route) : Response r :=
  match r return Response r with
  | GET_apps_id => accepted GET_apps_id a
  | r' => down r'
  end.

(** [GET /apps] answers 500 and [GET /devices/:udid] answers 200 with a
    body that its schema rejects. *)
Definition halfBroken (r : Route) : Response r :=
  match r return Response r with
  | GET_devices_udid => Build_Response GET_devices_udid 200 Rejected
  | r' => down r'
  end.

(** [GET /apps] lists [apps], and [GET /devices/:udid] returns a device
    with the installed apps [installed], or without that field. *)
Definition inventory (apps : list AppData.t)
    (installed : option (list InstalledApp.t)) (r : Route) : Response r :=
  match r return Response r with
  | GET_apps => accepted GET_apps {| apps_ := apps |}
  | GET_devices_udid =>
      accepted GET_devices_udid
        {| device := {| DeviceDetail.UDID := "c0ffee";
                        DeviceDetail.apps := installed |} |}
  | r' => down r'
  end.

(** Every write is acknowledged. *)
Definition acknowledging (r : Route) : Response r :=
  match r return Response r with
  | PUT_devices_udid_owner => accepted PUT_devices_udid_owner JS.JNull
  | PUT_devices_udid_migrate => accepted PUT_devices_udid_migrate JS.JNull
  | PUT_devices_migrate => accepted PUT_devices_migrate JS.JNull
  | POST_devices_udid_details => accepted POST_devices_udid_details JS.JNull
  | r' => down r'
  end.

End Samples.

(* ===================================================================== *)
(** ** Further code of the client *)
(* ===================================================================== *)

(** *** The getters of [Device] and the enrollment table *)

Module DeviceView.
Import Net.

Inductive EnrollmentType : Type := ac2_ | dep_ | manual_.

(** An entry of the table [enrollment]. *)
Record Enrollment : Type := {
  type : EnrollmentType;
  pending : bool
}.

(** The table [enrollment], indexed by the [enrollType] of the raw data. *)
Definition enrollment (key : EnrollType) : Enrollment :=
  match key with
  | ac2 => {| type := ac2_; pending := false |}
  | dep => {| type := dep_; pending := false |}
  | ac2Pending => {| type := ac2_; pending := true |}
  | depPending => {| type := dep_; pending := true |}
  | manual => {| type := manual_; pending := false |}
  end.

(** [get enrollment()] *)
Definition getEnrollment (d : Device.t) : Enrollment :=
  enrollment (enrollType (Device.data d)).

(** [get os()]: the template string [`${this.osPrefix} ${this.osVersion}`]. *)
Definition osPrefix (d : Device.t) : string := OS.prefix (os (Device.data d)).
Definition osVersion (d : Device.t) : string := OS.version (os (Device.data d)).
Definition os_ (d : Device.t) : string := osPrefix d ++ " " ++ osVersion d.

End DeviceView.

(** *** Sequences of writes on a [Device]

    The five methods of [Device] that write to the remote service, and a
    caller that awaits some of them one after the other. *)

Module Mutation.
Import Net.
Local Open Scope method_scope.

Inductive Write : Type :=
| SetOwner (user : Device.HasId)
| RemoveOwner
| SetAssetTag (text : string)
| SetNotes (text : string)
| SetLocation (location : Device.HasId).

Definition perform (write : Write) : Stateful Device.t unit :=
  match write with
  | SetOwner user => Device.setOwner user
  | RemoveOwner => Device.removeOwner
  | SetAssetTag text => Device.setAssetTag text
  | SetNotes text => Device.setNotes text
  | SetLocation location => Device.setLocation location
  end.

(** [await d.m1(); await d.m2(); ...] *)
Fixpoint performAll (writes : list Write) : Stateful Device.t unit :=
  match writes with
  | [] => mret tt
  | write :: rest => perform write ;; performAll rest
  end.

End Mutation.

(** *** [App.getDevices] *)

Module AppTraversal.
Import Net APIErrors.
Local Open Scope method_scope.

(** [array.filter(callback)] for a callback that may throw: the elements
    are visited in order, and a throw ends the visit. *)
Fixpoint filterThrowing {A} (callback : A -> Error + bool) (l : list A)
  : Error + list A :=
  match l with
  | [] => inr []
  | x :: rest =>
      match callback x with
      | inl e => inl e
      | inr keep =>
          match filterThrowing callback rest with
          | inl e => inl e
          | inr kept => inr (if keep then x :: kept else kept)
          end
      end
  end.

(** The callback of [getDevices]: the device must come with its apps, and
    is kept when one of them has the bundle ID of this app. *)
Definition hasApp (bundleId : string) (device : DeviceData) : Error + bool :=
  match apps device with
  | None => inl (AssertionError "Expected an array of apps")
  | Some installed =>
      inr (existsb (fun app =>
                      String.eqb (InstalledApp.identifier app) bundleId)
             installed)
  end.

(** The options object [{ includeApps: true }]. *)
Definition includingApps : API.APIGetDevicesOptions :=
  {| API.groupIds := None; API.ownerGroupIds := None; API.isOwned := None;
     API.ownerId := None; API.ownerName := None; API.isManaged := None;
     API.modelIdentifier := None; API.locationId := None;
     API.isSupervised := None; API.isTrashed := None;
     API.assetTag := None; API.serialNumber := None;
     API.enrollmentType := None; API.includeApps := Some true |}.

Section Methods.

Variable shortest : Q -> string.

Definition getDevices : Stateful App.t (list Client.Device) :=
  a <- this ;;
  settled <- attempt (call (API.getDevices shortest includingApps)) ;;
  match settled with
  | inl e => suppressAPIError [] e
  | inr devices =>
      (* The data returned from GET /devices?includeApps=1 doesn't include
         the app ID, but does include the bundle ID. *)
      match filterThrowing (hasApp (AppData.bundleId (App.data a))) devices with
      | inl e => mthrow e
      | inr found => mret (map Client.createDevice found)
      end
  end.

End Methods.

End AppTraversal.

(** *** The bundling script ([scripts/bundle.ts]) *)

Module Scripts.

(** [s.replaceAll(search, replacement)] for a search string of one
    character. *)
Definition replaceAll (search : ascii) (replacement : string) (s : string)
  : string :=
  String.concat ""
    (map (fun c => if Ascii.eqb c search then replacement
                   else String c EmptyString)
       (JS.chars s)).

(** The file of the validator of a route:
    [key.replaceAll(" ", "").replaceAll(":", "").replaceAll("/", "_") + ".ts"]. *)
Definition outFileName (key : string) : string :=
  replaceAll "/" "_" (replaceAll ":" "" (replaceAll " " "" key)) ++ ".ts".

(** The route keys that [src/internal/api.ts] hands to [assertValid]. *)
Definition routeKeys : list string :=
  [ "GET /users/:id"; "GET /users"; "GET /users/groups/:id";
    "GET /users/groups"; "GET /devices/:udid"; "GET /devices";
    "GET /devices/groups/:id"; "GET /devices/groups";
    "PUT /devices/groups/:id"; "POST /devices/:udid/restart";
    "POST /devices/:udid/wipe"; "PUT /devices/:udid/owner";
    "PUT /devices/:udid/migrate"; "PUT /devices/migrate";
    "PUT /users/:id"; "PUT /users/groups/:id";
    "POST /devices/:udid/details"; "PUT /users/:id/migrate";
    "GET /apps"; "GET /apps/:id"; "GET /locations"; "GET /locations/:id";
    "GET /profiles/:id"; "GET /profiles" ].

End Scripts.

(** *** Response schemas

    The schemas of the client are JSON Type Definitions, compiled by the JTD
    mode of ajv.  [Schema] has the forms that the schemas of the sources
    use, and [valid] is the validation of these forms: a type, an
    enumeration of strings, an array of elements, and an object with
    required and optional properties and no other property. *)

Module JTD.
Import JS.

Inductive Primitive : Type := boolean | string_ | int32 | float32.

Inductive Schema : Type :=
| Type_ (type : Primitive)
| Enum (values : list string)
| Elements (elements : Schema)
| Properties (properties optionalProperties : list (string * Schema)).

Fixpoint lookup {A} (key : string) (l : list (string * A)) : option A :=
  match l with
  | [] => None
  | (k, a) :: rest => if String.eqb k key then Some a else lookup key rest
  end.

Definition declares {A} (key : string) (l : list (string * A)) : bool :=
  match lookup key l with Some _ => true | None => false end.

(** The required and the optional properties of a schema of the
    properties form. *)
Definition requiredOf (s : Schema) : list (string * Schema) :=
  match s with
  | Properties properties _ => properties
  | _ => []
  end.

Definition optionalOf (s : Schema) : list (string * Schema) :=
  match s with
  | Properties _ optionalProperties => optionalProperties
  | _ => []
  end.

(** [int32]: a whole number between [-2^31] and [2^31 - 1]. *)
Definition isInt32 (q : Q) : bool :=
  isIntegral q
  && (- 2 ^ 31 <=? integerValue q)%Z && (integerValue q <=? 2 ^ 31 - 1)%Z.

Fixpoint valid (s : Schema) (j : json) {struct s} : bool :=
  match s with
  | Type_ boolean => match j with JBool _ => true | _ => false end
  | Type_ string_ => match j with JString _ => true | _ => false end
  | Type_ int32 => match j with JNumber q => isInt32 q | _ => false end
  | Type_ float32 => match j with JNumber _ => true | _ => false end
  | Enum values =>
      match j with
      | JString s => existsb (String.eqb s) values
      | _ => false
      end
  | Elements elements =>
      match j with
      | JArray items => forallb (valid elements) items
      | _ => false
      end
  | Properties properties optionalProperties =>
      match j with
      | JObject ms =>
          forallb (fun '(key, s') =>
                     match member key ms with
                     | Some v => valid s' v
                     | None => false
                     end) properties
          && forallb (fun '(key, s') =>
                        match member key ms with
                        | Some v => valid s' v
                        | None => true
                        end) optionalProperties
          && forallb (fun '(key, _) =>
                        declares key properties
                        || declares key optionalProperties) ms
      | _ => false
      end
  end.

(** The types of the declarations [type ResponseData = ...]: booleans,
    strings, numbers, unions of string literals, arrays, and object types
    whose fields are required or optional ([name?: type]). *)
Inductive Ty : Type :=
| TBoolean
| TString
| TNumber
| TLiterals (values : list string)
| TArray (elements : Ty)
| TObject (fields : list (string * (bool * Ty))).

Definition required (name : string) (t : Ty) : string * (bool * Ty) :=
  (name, (false, t)).
Definition optional (name : string) (t : Ty) : string * (bool * Ty) :=
  (name, (true, t)).

(** A JSON document has the type [t]: every required field is there with
    its type, and an optional field is absent or has its type. *)
Fixpoint inhabits (t : Ty) (j : json) {struct t} : bool :=
  match t with
  | TBoolean => match j with JBool _ => true | _ => false end
  | TString => match j with JString _ => true | _ => false end
  | TNumber => match j with JNumber _ => true | _ => false end
  | TLiterals values =>
      match j with
      | JString s => existsb (String.eqb s) values
      | _ => false
      end
  | TArray elements =>
      match j with
      | JArray items => forallb (inhabits elements) items
      | _ => false
      end
  | TObject fields =>
      match j with
      | JObject ms =>
          forallb (fun '(name, (isOptional, t')) =>
                     match member name ms with
                     | Some v => inhabits t' v
                     | None => isOptional
                     end) fields
      | _ => false
      end
  end.

(** The schema [s] grants the type [t]: each field of [t] is a property of
    [s] of a schema that grants its type, a required field being a required
    property. *)
Fixpoint grants (s : Schema) (t : Ty) {struct t} : bool :=
  match t with
  | TBoolean => match s with Type_ boolean => true | _ => false end
  | TString => match s with Type_ string_ => true | _ => false end
  | TNumber =>
      match s with
      | Type_ int32 | Type_ float32 => true
      | _ => false
      end
  | TLiterals literals =>
      match s with
      | Enum values =>
          forallb (fun v => existsb (String.eqb v) literals) values
      | _ => false
      end
  | TArray elements =>
      match s with
      | Elements s' => grants s' elements
      | _ => false
      end
  | TObject fields =>
      match s with
      | Properties properties optionalProperties =>
          forallb (fun '(name, (isOptional, t')) =>
                     match lookup name properties with
                     | Some s' => grants s' t'
                     | None =>
                         isOptional
                         && match lookup name optionalProperties with
                            | Some s' => grants s' t'
                            | None => false
                            end
                     end) fields
      | _ => false
      end
  end.

(** Induction on a type, with the fields of an object type. *)
Section TyInduction.

Variable P : Ty -> Prop.
Hypothesis PBoolean : P TBoolean.
Hypothesis PString : P TString.
Hypothesis PNumber : P TNumber.
Hypothesis PLiterals : forall values, P (TLiterals values).
Hypothesis PArray : forall elements, P elements -> P (TArray elements).
Hypothesis PObject :
  forall fields, Forall (fun f => P (snd (snd f))) fields -> P (TObject fields).

Fixpoint Ty_induction (t : Ty) : P t :=
  match t with
  | TBoolean => PBoolean
  | TString => PString
  | TNumber => PNumber
  | TLiterals values => PLiterals values
  | TArray elements => PArray elements (Ty_induction elements)
  | TObject fields =>
      PObject fields
        ((fix all (l : list (string * (bool * Ty)))
            : Forall (fun f => P (snd (snd f))) l :=
            match l with
            | [] => Forall_nil _
            | f :: rest =>
                Forall_cons f (Ty_induction (snd (snd f))) (all rest)
            end) fields)
  end.

End TyInduction.

End JTD.

(** *** The schema of [GET /devices] and the schema of a write receipt *)

Module Schemas.
Import JTD.

Definition string__ : Schema := Type_ string_.
Definition boolean_ : Schema := Type_ boolean.

(** [type ResponseData] of the schema file of [GET /devices]. *)
Definition DeviceType : Ty :=
  TObject
    [ required "UDID" TString;
      required "locationId" TNumber;
      required "serialNumber" TString;
      required "name" TString;
      required "isManaged" TBoolean;
      required "isSupervised" TBoolean;
      required "class" TString;
      required "assetTag" TString;
      required "os"
        (TObject [ required "prefix" TString; required "version" TString ]);
      required "model"
        (TObject [ required "name" TString;
                   required "identifier" TString;
                   required "type" TString ]);
      required "owner"
        (TObject [ required "id" TNumber;
                   required "locationId" TNumber;
                   required "name" TString;
                   optional "username" TString;
                   optional "email" TString;
                   optional "firstName" TString;
                   optional "lastName" TString;
                   optional "notes" TString;
                   optional "modified" TString;
                   required "vpp"
                     (TArray (TObject [ required "status" TString ])) ]);
      required "groups" (TArray TString);
      required "enrollType"
        (TLiterals ["manual"; "ac2"; "ac2Pending"; "dep"; "depPending"]);
      required "batteryLevel" TNumber;
      required "totalCapacity" TNumber;
      required "availableCapacity" TNumber;
      required "iCloudBackupEnabled" TBoolean;
      required "iCloudBackupLatest" TString;
      required "iTunesStoreLoggedIn" TBoolean;
      optional "isBootstrapStored" TBoolean;
      required "region"
        (TObject [ required "string" TString;
                   optional "coordinates" TString ]);
      optional "apps"
        (TArray (TObject [ required "name" TString;
                           required "identifier" TString;
                           required "version" TString;
                           required "vendor" TString;
                           required "icon" TString ]));
      required "modified" TString;
      required "depProfile" TString;
      required "notes" TString;
      required "lastCheckin" TString;
      required "networkInformation"
        (TObject
           [ required "IPAddress" TString;
             required "isNetworkTethered" TString;
             required "BluetoothMAC" TString;
             required "WiFiMAC" TString;
             optional "EthernetMACs" TString;
             required "VoiceRoamingEnabled" TString;
             required "DataRoamingEnabled" TString;
             required "PersonalHotspotEnabled" TString;
             optional "ServiceSubscription"
               (TArray
                  (TObject
                     [ required "CarrierSettingsVersion" TString;
                       required "CurrentCarrierNetwork" TString;
                       required "CurrentMCC" TString;
                       required "CurrentMNC" TString;
                       required "ICCID" TString;
                       required "IMEI" TString;
                       required "IsDataPreferred" TBoolean;
                       required "IsRoaming" TBoolean;
                       required "IsVoicePreferred" TBoolean;
                       required "Label" TString;
                       required "LabelID" TString;
                       optional "MEID" TString;
                       optional "EID" TString;
                       required "PhoneNumber" TString;
                       required "Slot" TString ])) ]) ].

Definition ResponseData : Ty :=
  TObject [ required "code" TNumber;
            required "count" TNumber;
            required "devices" (TArray DeviceType) ].

(** The schema of one device: [responseSchema.properties.devices.elements]. *)
Definition deviceSchema : Schema :=
  Properties
    [ ("UDID", string__);
      ("locationId", Type_ int32);
      ("serialNumber", string__);
      ("name", string__);
      ("isManaged", boolean_);
      ("isSupervised", boolean_);
      ("class", string__);
      ("assetTag", string__);
      ("os", Properties [ ("prefix", string__); ("version", string__) ] []);
      ("model",
       Properties [ ("name", string__); ("identifier", string__);
                    ("type", string__) ] []);
      ("owner",
       Properties
         [ ("id", Type_ int32);
           ("locationId", Type_ int32);
           ("name", string__);
           ("vpp", Elements (Properties [ ("status", string__) ] [])) ]
         [ ("username", string__);
           ("email", string__);
           ("firstName", string__);
           ("lastName", string__);
           ("notes", string__);
           ("modified", string__) ]);
      ("groups", Elements string__);
      ("enrollType",
       Enum ["ac2"; "ac2Pending"; "dep"; "depPending"; "manual"]);
      ("batteryLevel", Type_ float32);
      ("totalCapacity", Type_ float32);
      ("availableCapacity", Type_ float32);
      ("iCloudBackupEnabled", boolean_);
      ("iCloudBackupLatest", string__);
      ("iTunesStoreLoggedIn", boolean_);
      ("modified", string__);
      ("lastCheckin", string__);
      ("depProfile", string__);
      ("notes", string__);
      ("region",
       Properties [ ("string", string__) ] [ ("coordinates", string__) ]);
      ("networkInformation",
       Properties
         [ ("IPAddress", string__);
           ("isNetworkTethered", string__);
           ("BluetoothMAC", string__);
           ("WiFiMAC", string__);
           ("VoiceRoamingEnabled", string__);
           ("DataRoamingEnabled", string__);
           ("PersonalHotspotEnabled", string__) ]
         [ ("EthernetMACs", string__);
           ("ServiceSubscription",
            Elements
              (Properties
                 [ ("CarrierSettingsVersion", string__);
                   ("CurrentCarrierNetwork", string__);
                   ("CurrentMCC", string__);
                   ("CurrentMNC", string__);
                   ("ICCID", string__);
                   ("IMEI", string__);
                   ("IsDataPreferred", boolean_);
                   ("IsRoaming", boolean_);
                   ("IsVoicePreferred", boolean_);
                   ("Label", string__);
                   ("LabelID", string__);
                   ("PhoneNumber", string__);
                   ("Slot", string__) ]
                 [ ("MEID", string__); ("EID", string__) ])) ]) ]
    [ ("isBootstrapStored", boolean_);
      ("apps",
       Elements
         (Properties
            [ ("name", string__);
              ("identifier", string__);
              ("version", string__);
              ("vendor", string__);
              ("icon", string__) ] [])) ].

(** [responseSchema] of [GET /devices]. *)
Definition responseSchema : Schema :=
  Properties
    [ ("code", Type_ int32);
      ("count", Type_ int32);
      ("devices", Elements deviceSchema) ] [].

(** [responseSchema] of the write receipt [{ message, device }]. *)
Definition receiptSchema : Schema :=
  Properties [ ("message", string__); ("device", string__) ] [].

(** The name of an [enrollType] in the raw data. *)
Definition enrollTypeName (key : Net.EnrollType) : string :=
  match key with
  | Net.manual => "manual"
  | Net.ac2 => "ac2"
  | Net.ac2Pending => "ac2Pending"
  | Net.dep => "dep"
  | Net.depPending => "depPending"
  end.

(** A JSON document for the tests of the schemas: a device with the given
    region and enrollment, and the response that lists it. *)
Definition deviceDocument (region : JS.json) (enrollType : string)
  : list (string * JS.json) :=
  [ ("UDID", JS.JString "c0ffee");
    ("locationId", JS.JNumber 0);
    ("serialNumber", JS.JString "F9FXH0");
    ("name", JS.JString "iPad");
    ("isManaged", JS.JBool true);
    ("isSupervised", JS.JBool true);
    ("class", JS.JString "ipad");
    ("assetTag", JS.JString "A-1");
    ("os", JS.JObject [ ("prefix", JS.JString "iOS");
                        ("version", JS.JString "15.1") ]);
    ("model", JS.JObject [ ("name", JS.JString "iPad");
                           ("identifier", JS.JString "iPad7,11");
                           ("type", JS.JString "iPad") ]);
    ("owner", JS.JObject [ ("id", JS.JNumber 7);
                           ("locationId", JS.JNumber 0);
                           ("name", JS.JString "");
                           ("vpp", JS.JArray []) ]);
    ("groups", JS.JArray [JS.JString "IT Devices"]);
    ("enrollType", JS.JString enrollType);
    ("batteryLevel", JS.JNumber 0.5);
    ("totalCapacity", JS.JNumber 32);
    ("availableCapacity", JS.JNumber 20.5);
    ("iCloudBackupEnabled", JS.JBool false);
    ("iCloudBackupLatest", JS.JString "");
    ("iTunesStoreLoggedIn", JS.JBool false);
    ("region", region);
    ("modified", JS.JString "");
    ("depProfile", JS.JString "");
    ("notes", JS.JString "");
    ("lastCheckin", JS.JString "");
    ("networkInformation",
     JS.JObject [ ("IPAddress", JS.JString "10.0.0.2");
                  ("isNetworkTethered", JS.JString "0");
                  ("BluetoothMAC", JS.JString "");
                  ("WiFiMAC", JS.JString "");
                  ("VoiceRoamingEnabled", JS.JString "0");
                  ("DataRoamingEnabled", JS.JString "0");
                  ("PersonalHotspotEnabled", JS.JString "0") ]) ].

Definition responseDocument (device : list (string * JS.json)) : JS.json :=
  JS.JObject [ ("code", JS.JNumber 200);
               ("count", JS.JNumber 1);
               ("devices", JS.JArray [JS.JObject device]) ].

End Schemas.


(* ===================================================================== *)
(** ** The routes about users and device groups *)
(* ===================================================================== *)

(** The methods of [src/internal/api.ts] for users and device groups go
    through the same adapter and the same hooks as the ones above.  Their
    routes carry data of their own, so the programs that use them are a
    type of their own; requests, methods and payloads are those of [Net]. *)

Module Directory.

Inductive Route : Type :=
| GET_users_id
| GET_devices_groups
| PUT_users_id
| PUT_users_id_migrate.

(** Modelled from the spec: the schemas of these routes are not among the
    sources.  [GET /users/:id] returns the payload field [user], which the
    client hands to the factory as it is; [GET /devices/groups] returns the
    payload field [deviceGroups], of whose elements the client reads the
    name.  A device group has a numeric ID and a name
    ([src/models/device_group.ts]). *)
Record UserResponse : Type := { user : JS.json }.

Record DeviceGroupData : Type := {
  id : JS.number;
  name : string
}.

Record DeviceGroupsResponse : Type := {
  deviceGroups : list DeviceGroupData
}.

Definition RouteData (r : Route) : Type :=
  match r with
  | GET_users_id => UserResponse
  | GET_devices_groups => DeviceGroupsResponse
  | PUT_users_id
  | PUT_users_id_migrate => JS.json
  end.

Record Response (r : Route) : Type := {
  status : Z;
  payload : Net.Payload (RouteData r)
}.
Arguments status {r} _.
Arguments payload {r} _.

(** [response.ok] *)
Definition ok {r} (resp : Response r) : bool :=
  (200 <=? status resp)%Z && (status resp <=? 299)%Z.

Inductive Error : Type :=
| AssertionError (message : string)      (* a failed [assert] *)
| TypeError                              (* a call of what is no function,
                                            a property of [null] *)
| SyntaxError                            (* [.json()] on a body that is no JSON *)
| SchemaError (route : Route)
| AuthError
| PermissionError (method : Net.Method) (endpoint : Net.Pathname)
| APIError (status : Z) (method : Net.Method) (endpoint : string)
                                         (* made by [APIError.of], which is
                                            not among the sources: the status
                                            and the originating route, after
                                            the spec *).

Inductive IO (A : Type) : Type :=
| Ret (a : A)
| Fetch (r : Route) (req : Net.Request) (k : Response r -> IO A).
Arguments Ret {A} a.
Arguments Fetch {A} r req k.

Fixpoint bind {A B} (p : IO A) (f : A -> IO B) : IO B :=
  match p with
  | Ret a => f a
  | Fetch r req k => Fetch r req (fun resp => bind (k resp) f)
  end.

Definition Promise (A : Type) : Type := IO (Error + A).

Definition resolve {A} (a : A) : Promise A := Ret (inr a).
Definition throw {A} (e : Error) : Promise A := Ret (inl e).

(** [await p; rest] *)
Definition await {A B} (p : Promise A) (rest : A -> Promise B) : Promise B :=
  bind p (fun r => match r with inl e => Ret (inl e) | inr a => rest a end).

(** [assert(cond, message)] *)
Definition assert (cond : bool) (message : string) : Promise unit :=
  if cond then resolve tt else throw (AssertionError message).

(** The remote service answers every request, knowing the requests sent
    before it. *)
Record Remote : Type := {
  respond : forall r : Route, list Net.Request -> Net.Request -> Response r
}.

Fixpoint run {A} (w : Remote) (sent : list Net.Request) (p : IO A)
  : list Net.Request * A :=
  match p with
  | Ret a => (sent, a)
  | Fetch r req k => run w (sent ++ [req]) (k (respond w r sent req))
  end.

Definition requests {A} (w : Remote) (p : IO A) : list Net.Request :=
  fst (run w [] p).
Definition outcome {A} (w : Remote) (p : IO A) : A :=
  snd (run w [] p).

Declare Scope directory_scope.
Delimit Scope directory_scope with directory.
Notation "x <- p ;; q" := (await p (fun x => q))
  (at level 61, p at next level, right associativity) : directory_scope.
Notation "p ;; q" := (await p (fun _ => q))
  (at level 61, right associativity) : directory_scope.
Local Open Scope directory_scope.

(** *** The API surface *)

(** Checks if a number is a valid ID, and throws if it isn't. *)
Definition assertValidID (id : JS.number) : Promise unit :=
  assert (API.isValidID id) "Invalid ID: must be a positive integer.".

(** The three [afterResponse] hooks. *)
Definition afterResponse (req : Net.Request) {r} (resp : Response r)
  : option Error :=
  if (status resp =? 405)%Z then
    Some (PermissionError (Net.method req) (Net.pathname req))
  else if (status resp =? 401)%Z then
    Some AuthError
  else if negb (ok resp) then
    Some (APIError (status resp) (Net.method req) (Net.path req))
  else None.

(** [this.http.<method>(path, options).json()] *)
Definition json (r : Route) (req : Net.Request)
  : Promise (Net.Payload (RouteData r)) :=
  Fetch r req (fun resp =>
    match afterResponse req resp with
    | Some e => throw e
    | None =>
        match payload resp with
        | Net.NotJSON => throw SyntaxError
        | data => resolve data
        end
    end).

(** [schemas.assertValid(route, data)] *)
Definition assertValid (r : Route) (data : Net.Payload (RouteData r))
  : Promise (RouteData r) :=
  match data with
  | Net.Accepted d => resolve d
  | _ => throw (SchemaError r)
  end.

(** [object.key] for a key that is no built-in property: the own property
    of an object literal, [undefined] on an object without it and on the
    other values, a [TypeError] on [null] and [undefined]. *)
Fixpoint property (key : string) (props : list (string * JS.value))
  : JS.value :=
  match props with
  | [] => JS.Undefined
  | (k, v) :: rest => if String.eqb k key then v else property key rest
  end.

Definition get (key : string) (object : JS.value) : Promise JS.value :=
  match object with
  | JS.Undefined | JS.Null => throw TypeError
  | JS.Obj props => resolve (property key props)
  | _ => resolve JS.Undefined
  end.

(** [array.forEach(f)] for an [f] that may throw. *)
Fixpoint forEach {A} (f : A -> Promise unit) (l : list A) : Promise unit :=
  match l with
  | [] => resolve tt
  | x :: rest => f x ;; forEach f rest
  end.

(** [value?.forEach(f)]: nothing on [undefined] and [null], the visit of
    an array, and a [TypeError] on a value that has no method [forEach]. *)
Definition optionalForEach (f : JS.value -> Promise unit) (value : JS.value)
  : Promise unit :=
  match value with
  | JS.Undefined | JS.Null => resolve tt
  | JS.Arr items => forEach f items
  | _ => throw TypeError
  end.

(** [isValidID] at a value of any type: [Number.isFinite] is false on what
    is no number, and the conjunction ends there. *)
Definition isValidIDValue (v : JS.value) : bool :=
  match v with
  | JS.Num n => API.isValidID n
  | _ => false
  end.

(** [(id) => assertValidID(id)] *)
Definition assertValidIDValue (v : JS.value) : Promise unit :=
  assert (isValidIDValue v) "Invalid ID: must be a positive integer.".

(** [(id) => { if (typeof id === "number") { assertValidID(id); } }] *)
Definition assertValidIDIfNumber (v : JS.value) : Promise unit :=
  match v with
  | JS.Num n => assertValidID n
  | _ => resolve tt
  end.

Record APIMoveUserOptions : Type := { onlyUser : option bool }.

(** [options?.onlyUser] *)
Definition onlyUserOf (options : option APIMoveUserOptions) : JS.value :=
  match options with
  | Some o => API.optional JS.Bool (onlyUser o)
  | None => JS.Undefined
  end.

Section Surface.

Variable shortest : Q -> string.

Definition getUser (id : JS.number) : Promise JS.json :=
  assertValidID id ;;
  data <- json GET_users_id
    {| Net.method := Net.GET;
       Net.path := "users/" ++ JS.Number_toString shortest id;
       Net.searchParams := None;
       Net.body := None |} ;;
  data <- assertValid GET_users_id data ;;
  resolve (user data).

Definition getDeviceGroups : Promise (list DeviceGroupData) :=
  data <- json GET_devices_groups
    {| Net.method := Net.GET;
       Net.path := "devices/groups";
       Net.searchParams := None;
       Net.body := None |} ;;
  data <- assertValid GET_devices_groups data ;;
  resolve (deviceGroups data).

(** [data] is the object the caller passes, sent as it is. *)
Definition updateUser (id : JS.number) (data : JS.value) : Promise JS.json :=
  assertValidID id ;;
  teacher <- get "teacher" data ;;
  optionalForEach assertValidIDValue teacher ;;
  children <- get "children" data ;;
  optionalForEach assertValidIDValue children ;;
  memberOf <- get "memberOf" data ;;
  optionalForEach assertValidIDIfNumber memberOf ;;
  json_ <- json PUT_users_id
    {| Net.method := Net.PUT;
       Net.path := "users/" ++ JS.Number_toString shortest id;
       Net.searchParams := None;
       Net.body := JS.stringify data |} ;;
  assertValid PUT_users_id json_.

Definition moveUser (userId locationId : JS.number)
  (options : option APIMoveUserOptions) : Promise JS.json :=
  assertValidID userId ;;
  assertValidID locationId ;;
  let payload :=
    JS.Obj [("locationId", JS.Num locationId);
            ("onlyUser", onlyUserOf options)] in
  json_ <- json PUT_users_id_migrate
    {| Net.method := Net.PUT;
       Net.path := "users/" ++ JS.Number_toString shortest userId ++ "/migrate";
       Net.searchParams := None;
       Net.body := JS.stringify payload |} ;;
  assertValid PUT_users_id_migrate json_.

End Surface.

(** *** The traversals of [Device] to its owner and its groups
    ([src/internal/device.ts]) *)

(** The failures of the remote service. *)
Definition recoverable (e : Error) : bool :=
  match e with
  | AuthError | PermissionError _ _ | APIError _ _ _ => true
  | _ => false
  end.

(** Modelled from the spec: [suppressAPIError(value, error)] is imported
    from [src/internal/api_error.ts], which is not among the sources.  A
    traversal catches only the recoverable remote failures and substitutes
    the given empty or null result; any other error is thrown again. *)
Definition suppressAPIError {A} (value : A) (error : Error) : Promise A :=
  if recoverable error then resolve value else throw error.

(** The factory. *)
Record User : Type := createUser { userData : JS.json }.
Record DeviceGroup : Type := createDeviceGroup { groupData : DeviceGroupData }.

Section Traversals.

Variable shortest : Q -> string.

(** These two methods read the private data of the device and never assign
    it: they are functions of the device.  [None] is [null]. *)
Definition getOwner (d : Device.t) : Promise (option User) :=
  if JS.strictEquals (Net.Owner.id (Net.owner (Device.data d))) (JS.ofZ 0)
  then resolve None
  else
    bind (getUser shortest (Net.Owner.id (Net.owner (Device.data d))))
      (fun settled =>
         match settled with
         | inl e => suppressAPIError None e
         | inr userData => resolve (Some (createUser userData))
         end).

Definition getGroups (d : Device.t) : Promise (list DeviceGroup) :=
  bind getDeviceGroups
    (fun settled =>
       match settled with
       | inl e => suppressAPIError [] e
       | inr allGroups =>
           let groups := Net.groups (Device.data d) in
           let myGroups :=
             filter (fun group => existsb (String.eqb (name group)) groups)
               allGroups in
           resolve (map createDeviceGroup myGroups)
       end).

End Traversals.

(** *** What a caller may know of an array property *)

(** The elements of a property that holds an array. *)
Definition elements (v : JS.value) : list JS.value :=
  match v with
  | JS.Arr items => items
  | _ => []
  end.

(** A property of the type [T[] | undefined]. *)
Definition optionalArray (v : JS.value) : bool :=
  match v with
  | JS.Undefined | JS.Arr _ => true
  | _ => false
  end.

End Directory.

(** A remote service for the routes about users and device groups: user 7
    exists, two device groups are listed, and every write is
    acknowledged. *)
Module DirectorySamples.
Import Directory.

Definition accepted (r : Route) (data : RouteData r) : Response r :=
  Build_Response r 200 (Net.Accepted data).

Definition school : Remote :=
  {| respond := fun r _ _ =>
       match r return Response r with
       | GET_users_id =>
           accepted GET_users_id
             {| user := JS.JObject [("id", JS.JNumber 7)] |}
       | GET_devices_groups =>
           accepted GET_devices_groups
             {| deviceGroups :=
                  [ {| id := JS.ofZ 1; name := "Year 7" |};
                    {| id := JS.ofZ 2; name := "IT Devices" |} ] |}
       | PUT_users_id => accepted PUT_users_id JS.JNull
       | PUT_users_id_migrate => accepted PUT_users_id_migrate JS.JNull
       end |}.

End DirectorySamples.
(* ===================================================================== *)
(** ** Properties *)
(* ===================================================================== *)

(** *** The examples of the test-suite and of the documentation *)

Example isValidUDID_examples :
  API.isValidUDID "c0ffee" = true /\ API.isValidUDID "-" = true
  /\ API.isValidUDID "00008020-000D6C2A1A88002E" = true
  /\ API.isValidUDID "X" = false /\ API.isValidUDID "" = false.
Proof. repeat split. Qed.

Example isValidID_examples :
  API.isValidID (JS.ofZ 0) = true
  /\ API.isValidID (JS.ofZ (2 ^ 53 - 1)) = true
  /\ API.isValidID (JS.ofZ (2 ^ 53)) = false
  /\ API.isValidID (JS.ofZ (-1)) = false
  /\ API.isValidID (JS.Finite 1.5) = false
  /\ API.isValidID JS.NaN = false
  /\ API.isValidID (JS.Infinity false) = false.
Proof. repeat split. Qed.

Example matchCoords_examples :
  JS.matchCoords "12.34,-56.78" = Some ("12.34", "-56.78")
  /\ JS.matchCoords "+1,-0.000000000000001" = Some ("+1", "-0.000000000000001")
  /\ JS.matchCoords "1234,5" = None
  /\ JS.matchCoords "1.,5" = None
  /\ JS.matchCoords "12.34" = None
  /\ JS.matchCoords "12.34,-56.78 " = None.
Proof. repeat split. Qed.

(** [parseFloat] returns doubles: 12.34 and -56.78 are the doubles nearest
    to these decimals, and two decimals with the same nearest double are
    the same number. *)
Example parseFloat_examples :
  JS.parseFloat "12.34" = JS.Finite (3473401212609495 # 281474976710656)
  /\ JS.parseFloat "12.34" = JS.toNumber 12.34
  /\ JS.parseFloat "-56.78" = JS.Finite (-1997768647203881 # 35184372088832)
  /\ JS.parseFloat "-56.78" = JS.toNumber (-56.78)
  /\ JS.parseFloat "+7" = JS.Finite 7
  /\ JS.parseFloat "0.5" = JS.Finite (1 # 2)
  /\ JS.parseFloat "123.123456789012345" = JS.parseFloat "123.12345678901235"
  /\ JS.parseFloat "" = JS.NaN.
Proof. vm_compute. repeat split. Qed.

(** "api.moveDevices: rejects empty array" *)
Example moveDevices_rejects_empty_array :
  Net.run (Samples.remote Samples.acknowledging true) []
    (API.moveDevices [] (JS.ofZ 0) None)
  = ([], inl (Net.AssertionError "")).
Proof. reflexivity. Qed.

(** "api.moveDevices: rejects array with more than 20 items" *)
Example moveDevices_rejects_21_items :
  Net.run (Samples.remote Samples.acknowledging true) []
    (API.moveDevices (repeat "-" 21) (JS.ofZ 0) None)
  = ([], inl (Net.AssertionError "")).
Proof. reflexivity. Qed.

(** "api.moveDevices: remaps parameters to their correct names/values" *)
Example moveDevices_remaps_parameters :
  Net.run (Samples.remote Samples.acknowledging true) []
    (API.moveDevices ["-"] (JS.ofZ 0) None)
  = ([ {| Net.method := Net.PUT;
          Net.path := "devices/migrate";
          Net.searchParams := None;
          Net.body := Some (JS.JObject [("locationId", JS.JNumber 0);
                                        ("udids", JS.JArray [JS.JString "-"])]) |} ],
     inr JS.JNull).
Proof. reflexivity. Qed.


Section CoordsLanguage.
Import JS.

Lemma chars_text (l : list ascii) : chars (text l) = l.
Proof. apply list_ascii_of_string_of_list_ascii. Qed.

Lemma text_chars (s : string) : text (chars s) = s.
Proof. apply string_of_list_ascii_of_string. Qed.

Lemma digit_not_sign c : isDigit c = true -> isSign c = false.
Proof.
  destruct c as [[] [] [] [] [] [] [] []]; vm_compute; congruence.
Qed.

Lemma digits_sound max s ds after :
  digits max s = (ds, after) ->
  s = ds ++ after /\ Digits 0 max ds.
Proof.
  revert s ds after.
  induction max as [|m IH]; intros s ds after H.
  - destruct s; inversion H; subst; repeat split; simpl; auto.
  - destruct s as [|c rest]; simpl in H.
    + inversion H; subst. repeat split; simpl; auto; lia.
    + destruct (isDigit c) eqn:Hc.
      * destruct (digits m rest) as [ds' after'] eqn:Hd.
        inversion H; subst.
        destruct (IH _ _ _ Hd) as [-> [[_ Hlen] Hall]].
        repeat split; simpl; auto; lia.
      * inversion H; subst. repeat split; simpl; auto; lia.
Qed.

Lemma digits_greedy max ds after :
  Forall (fun c => isDigit c = true) ds ->
  (List.length ds <= max)%nat ->
  stops after ->
  digits max (ds ++ after) = (ds, after).
Proof.
  revert ds.
  induction max as [|m IH]; intros ds Hall Hlen Hstop.
  - destruct ds; simpl in *; [|lia]. destruct after; reflexivity.
  - destruct ds as [|c ds]; simpl.
    + destruct after as [|c rest]; [reflexivity|].
      simpl in Hstop. now rewrite Hstop.
    + inversion Hall; subst. simpl in Hlen.
      rewrite H1, IH; auto. lia.
Qed.

Lemma sign_sound s sg rest :
  sign s = (sg, rest) -> s = sg ++ rest /\ Sign sg.
Proof.
  unfold sign, Sign. destruct s as [|c s]; intros H.
  - inversion H; auto.
  - destruct (isSign c) eqn:Hc; inversion H; subst; auto.
    split; [reflexivity|]. unfold isSign in Hc.
    apply orb_true_iff in Hc as [Hc|Hc]; apply Ascii.eqb_eq in Hc; subst; auto.
Qed.

Lemma coordinate_sound s m rest :
  coordinate s = Some (m, rest) -> s = m ++ rest /\ Coordinate m.
Proof.
  unfold coordinate.
  destruct (sign s) as [sg s1] eqn:Hsg.
  apply sign_sound in Hsg as [-> Hsign].
  destruct (digits 3 s1) as [int s2] eqn:Hint.
  apply digits_sound in Hint as [-> [[_ Hlen] Hall]].
  destruct int as [|d int]; [discriminate|].
  assert (Hint : Digits 1 3 (d :: int)) by (split; [simpl in *; lia|assumption]).
  assert (plain : sg ++ d :: int = sg ++ (d :: int) ++ []) by now rewrite app_nil_r.
  destruct s2 as [|c s3].
  - intros H; inversion H; subst. split.
    + now rewrite !app_nil_r.
    + rewrite plain. constructor; auto. now left.
  - destruct (Ascii.eqb c ".") eqn:Hc.
    + apply Ascii.eqb_eq in Hc; subst c.
      destruct (digits 15 s3) as [frac s4] eqn:Hfrac.
      apply digits_sound in Hfrac as [-> [[_ Hflen] Hfall]].
      destruct frac as [|f frac]; intros H; inversion H; subst.
      * split; [now rewrite <- app_assoc|].
        rewrite plain. constructor; auto. now left.
      * split.
        -- rewrite <- !app_assoc. simpl. now rewrite <- app_assoc.
        -- change (d :: int ++ "."%char :: f :: frac)
             with ((d :: int) ++ "."%char :: f :: frac).
           constructor; auto. right. exists (f :: frac). split; auto.
           split; [simpl in *; lia|assumption].
    + intros H; inversion H; subst. split.
      * now rewrite <- app_assoc.
      * rewrite plain. constructor; auto. now left.
Qed.

Lemma delimits_stops rest : delimits rest -> stops rest.
Proof. intros [->|[r ->]]; simpl; auto. Qed.

Lemma coordinate_complete m rest :
  Coordinate m -> delimits rest -> coordinate (m ++ rest) = Some (m, rest).
Proof.
  intros [sg int frac Hsign [[Hlo Hhi] Hall] Hfrac] Hrest.
  unfold coordinate.
  destruct int as [|d int]; [simpl in Hlo; lia|].
  inversion Hall as [|? ? Hd Hall']; subst.
  assert (Hs : sign ((sg ++ (d :: int) ++ frac) ++ rest)
               = (sg, (d :: int) ++ frac ++ rest)).
  { rewrite <- !app_assoc.
    destruct Hsign as [->|[->| ->]]; try reflexivity.
    simpl. now rewrite (digit_not_sign _ Hd). }
  rewrite Hs.
  assert (Hstop : stops (frac ++ rest)).
  { destruct Hfrac as [->|[ds [-> _]]]; simpl; auto.
    now apply delimits_stops. }
  rewrite (digits_greedy 3 (d :: int) (frac ++ rest) Hall Hhi Hstop).
  destruct Hfrac as [->|[ds [-> [[Hdlo Hdhi] Hdall]]]].
  - rewrite app_nil_r.
    destruct Hrest as [->|[r ->]]; reflexivity.
  - cbn [List.app]. rewrite (digits_greedy 15 ds rest Hdall Hdhi (delimits_stops _ Hrest)).
    destruct ds as [|f ds]; [simpl in Hdlo; lia|].
    reflexivity.
Qed.

(** [matchCoords] decides the language of [coords] and returns its two
    capture groups. *)
Lemma matchCoords_spec s lat lon :
  matchCoords s = Some (lat, lon) <-> Coords s lat lon.
Proof.
  unfold matchCoords, Coords. split.
  - destruct (coordinate (chars s)) as [[m rest]|] eqn:H1; [|discriminate].
    destruct rest as [|c rest]; [discriminate|].
    destruct (Ascii.eqb c ",") eqn:Hc; [|discriminate].
    apply Ascii.eqb_eq in Hc; subst c.
    destruct (coordinate rest) as [[n rest']|] eqn:H2; [|discriminate].
    destruct rest'; [|discriminate].
    intros H; inversion H; subst.
    apply coordinate_sound in H1 as [E1 C1].
    apply coordinate_sound in H2 as [E2 C2].
    rewrite !chars_text. rewrite app_nil_r in E2. subst rest. auto.
  - intros [E [C1 C2]]. rewrite E.
    rewrite (coordinate_complete _ (","%char :: chars lon) C1)
      by (right; eauto).
    simpl.
    rewrite <- (app_nil_r (chars lon)).
    rewrite (coordinate_complete _ [] C2) by now left.
    now rewrite !text_chars.
Qed.

End CoordsLanguage.

Section ParseFloat.
Import JS.

Lemma sign_complete sg s :
  Sign sg ->
  (exists d rest, s = d :: rest /\ isDigit d = true) ->
  sign (sg ++ s) = (sg, s).
Proof.
  intros Hsg [d [rest [-> Hd]]].
  destruct Hsg as [->|[->| ->]]; try reflexivity.
  simpl. now rewrite (digit_not_sign _ Hd).
Qed.

Lemma leadingDigits_complete ds after :
  Forall (fun c => isDigit c = true) ds ->
  stops after ->
  leadingDigits (ds ++ after) = (ds, after).
Proof.
  intros Hall Hstop. unfold leadingDigits.
  apply digits_greedy; auto. rewrite length_app. lia.
Qed.

(** On a text of the coordinate format [parseFloat] reads the whole text:
    the number is the Number value for the numeral made of all its digits,
    scaled by the length of the fraction, with the sign of the text. *)
Lemma parseFloat_coordinate sg int ds :
  Sign sg -> Digits 1 3 int -> Forall (fun c => isDigit c = true) ds ->
  parseFloat (text (sg ++ int ++ match ds with
                                 | [] => []
                                 | _ => "."%char :: ds
                                 end))
  = toNumber (Qmake (if existsb (Ascii.eqb "-") sg
                     then - numeral (int ++ ds)
                     else numeral (int ++ ds))
                    (Z.to_pos (10 ^ Z.of_nat (List.length ds)))).
Proof.
  intros Hsg [[Hlo _] Hall] Hds. unfold parseFloat.
  rewrite chars_text.
  destruct int as [|d int]; [simpl in Hlo; lia|].
  inversion Hall as [|? ? Hd Hall']; subst.
  rewrite sign_complete; auto.
  2:{ exists d. eexists. split; [reflexivity|exact Hd]. }
  destruct ds as [|f ds].
  - rewrite app_nil_r.
    rewrite <- (app_nil_r (d :: int)) at 1.
    rewrite leadingDigits_complete by (simpl; auto).
    rewrite !app_nil_r. reflexivity.
  - rewrite leadingDigits_complete by (simpl; auto).
    rewrite Ascii.eqb_refl.
    assert (E : leadingDigits (f :: ds) = (f :: ds, [])).
    { rewrite <- (app_nil_r (f :: ds)) at 1.
      apply leadingDigits_complete; simpl; auto. }
    rewrite E. reflexivity.
Qed.

End ParseFloat.

(** *** The rounding to the nearest double *)

Section Doubles.
Import JS.
Local Open Scope Q_scope.

Lemma pow2_pos (k : Z) : 0 < 2 ^ k.
Proof. apply Qpower_0_lt. reflexivity. Qed.

Lemma pow2_add (a b : Z) : 2 ^ (a + b) == 2 ^ a * 2 ^ b.
Proof. apply Qpower_plus. discriminate. Qed.

Lemma pow2_Z (n : Z) : (0 <= n)%Z -> inject_Z (2 ^ n) == 2 ^ n.
Proof. intros H. now rewrite Zpower_Qpower. Qed.

Lemma pow2_le (a b : Z) : (a <= b)%Z -> 2 ^ a <= 2 ^ b.
Proof. intros H. apply Qpower_le_compat_l; [exact H|discriminate]. Qed.

Lemma pow2_lt (a b : Z) : (a < b)%Z -> 2 ^ a < 2 ^ b.
Proof. intros H. apply Qpower_lt_compat_l; [exact H|reflexivity]. Qed.

Lemma pow2_lt_inv (a b : Z) : 2 ^ a < 2 ^ b -> (a < b)%Z.
Proof. intros H. apply (Qpower_lt_compat_l_inv 2); [exact H|reflexivity]. Qed.

Lemma Qabs_lower (x : Q) : x <= Qabs x /\ - x <= Qabs x.
Proof.
  split; [apply Qle_Qabs|]. rewrite <- (Qabs_opp x). apply Qle_Qabs.
Qed.

Lemma Qabs_inject_Z (m : Z) : Qabs (inject_Z m) == inject_Z (Z.abs m).
Proof. unfold inject_Z. symmetry. apply Zabs_Qabs. Qed.

Lemma roundHalfEven_floor (q : Q) :
  roundHalfEven q = Qfloor q \/ roundHalfEven q = (Qfloor q + 1)%Z.
Proof.
  unfold roundHalfEven.
  destruct (Qcompare _ _); [destruct (Z.even _)| |]; auto.
Qed.

(** No integer is nearer to [q] than [roundHalfEven q]. *)
Lemma roundHalfEven_nearest (q : Q) (n : Z) :
  Qabs (inject_Z (roundHalfEven q) - q) <= Qabs (inject_Z n - q).
Proof.
  pose proof (Qfloor_le q) as Hlo.
  pose proof (Qlt_floor q) as Hhi. rewrite inject_Z_plus in Hhi.
  change (inject_Z 1) with 1 in Hhi.
  destruct (Qabs_lower (inject_Z n - q)) as [H1 H2].
  assert (Hn : inject_Z n <= inject_Z (Qfloor q)
               \/ inject_Z (Qfloor q) + 1 <= inject_Z n).
  { destruct (Z_le_gt_dec n (Qfloor q)) as [H|H].
    - left. now rewrite <- Zle_Qle.
    - right. rewrite <- (inject_Z_plus _ 1), <- Zle_Qle. lia. }
  apply Qabs_Qle_condition.
  unfold roundHalfEven.
  destruct (Qcompare (q - inject_Z (Qfloor q)) (1 # 2)) eqn:Hc.
  - apply Qeq_alt in Hc.
    destruct (Z.even (Qfloor q));
      [|rewrite inject_Z_plus; change (inject_Z 1) with 1];
      destruct Hn; split; lra.
  - apply Qlt_alt in Hc. destruct Hn; split; lra.
  - apply Qgt_alt in Hc. rewrite inject_Z_plus. change (inject_Z 1) with 1.
    destruct Hn; split; lra.
Qed.

Lemma log2_bounds (n : Z) :
  (0 < n)%Z ->
  2 ^ Z.log2 n <= inject_Z n /\ inject_Z n < 2 ^ (Z.log2 n + 1).
Proof.
  intros H. destruct (Z.log2_spec n H) as [Hlo Hhi].
  pose proof (Z.log2_nonneg n) as Hnn.
  rewrite <- !pow2_Z by lia. rewrite <- Zle_Qle, <- Zlt_Qlt.
  replace (Z.log2 n + 1)%Z with (Z.succ (Z.log2 n)) by lia. split; assumption.
Qed.

(** The binade of a positive rational holds it. *)
Lemma binade_spec (q : Q) :
  0 < q -> 2 ^ binade q <= q /\ q < 2 ^ (binade q + 1).
Proof.
  intros Hq. destruct q as [n d].
  assert (Hn : (0 < n)%Z).
  { unfold Qlt in Hq. simpl in Hq. lia. }
  destruct (log2_bounds n Hn) as [Hn1 Hn2].
  destruct (log2_bounds (Zpos d) eq_refl) as [Hd1 Hd2].
  unfold binade. cbn [Qnum Qden].
  set (a := Z.log2 n) in *. set (b := Z.log2 (Zpos d)) in *.
  assert (HD : 0 < inject_Z (Zpos d)) by reflexivity.
  assert (E : n # d == inject_Z n / inject_Z (Zpos d)) by apply Qmake_Qdiv.
  assert (Hup : n # d < 2 ^ (a - b + 1)).
  { rewrite E. apply Qlt_shift_div_r; [exact HD|].
    assert (E1 : 2 ^ (a + 1) == 2 ^ (a - b + 1) * 2 ^ b).
    { rewrite <- pow2_add. now replace (a - b + 1 + b)%Z with (a + 1)%Z by lia. }
    pose proof (pow2_pos (a - b + 1)) as Hp. nra. }
  assert (Hdown : 2 ^ (a - b - 1) <= n # d).
  { rewrite E. apply Qle_shift_div_l; [exact HD|].
    assert (E1 : 2 ^ a == 2 ^ (a - b - 1) * 2 ^ (b + 1)).
    { rewrite <- pow2_add. now replace (a - b - 1 + (b + 1))%Z with a by lia. }
    pose proof (pow2_pos (a - b - 1)) as Hp. nra. }
  destruct (Qle_bool (2 ^ (a - b)) (n # d)) eqn:Hb.
  - apply Qle_bool_iff in Hb. split; assumption.
  - split; [exact Hdown|].
    replace (a - b - 1 + 1)%Z with (a - b)%Z by lia.
    apply Qnot_le_lt. intros H. apply Qle_bool_iff in H. congruence.
Qed.

Lemma isDouble_opp (y : Q) : isDouble y -> isDouble (- y).
Proof.
  intros [m [e [Hm [He E]]]]. exists (- m)%Z, e.
  split; [lia|]. split; [exact He|].
  rewrite E, inject_Z_opp. ring.
Qed.

Lemma isDouble_comp (y y' : Q) : y == y' -> isDouble y -> isDouble y'.
Proof.
  intros Hy [m [e [Hm [He E]]]]. exists m, e.
  split; [exact Hm|]. split; [exact He|]. now rewrite <- Hy.
Qed.

Lemma isDouble_zero : isDouble 0.
Proof. exists 0%Z, 0%Z. repeat split; try lia. Qed.

(** A positive rational of the normal range: its rounding at the spacing
    of its binade. *)
Section Nearest.

Variable a : Q.
Hypothesis Hmin : 2 ^ (-1022) <= a.
Hypothesis Hmax : a < 2 ^ 1023.

Let e := binade a.
Let p := 2 ^ (e - 52).
Let x := a / p.
Let m := roundHalfEven x.
Let r := inject_Z m * p.

Lemma nearest_a_pos : 0 < a.
Proof. pose proof (pow2_pos (-1022)). lra. Qed.

Lemma nearest_p_pos : 0 < p.
Proof. apply pow2_pos. Qed.

Lemma nearest_binade : (-1022 <= e <= 1022)%Z.
Proof.
  destruct (binade_spec a nearest_a_pos) as [H1 H2]. fold e in H1, H2.
  assert (A : (-1022 < e + 1)%Z) by (apply pow2_lt_inv; lra).
  assert (B : (e < 1023)%Z) by (apply pow2_lt_inv; lra).
  lia.
Qed.

Lemma nearest_scaled : a == x * p.
Proof.
  unfold x. field. pose proof nearest_p_pos. lra.
Qed.

Lemma nearest_binade_scaled :
  2 ^ e == inject_Z (2 ^ 52) * p /\ 2 ^ (e + 1) == inject_Z (2 ^ 53) * p.
Proof.
  unfold p. rewrite !pow2_Z by lia. rewrite <- !pow2_add.
  split; apply Qpower_comp; try reflexivity; lia.
Qed.

Lemma nearest_x_bounds : inject_Z (2 ^ 52) <= x /\ x < inject_Z (2 ^ 53).
Proof.
  destruct (binade_spec a nearest_a_pos) as [H1 H2]. fold e in H1, H2.
  destruct nearest_binade_scaled as [E1 E2].
  pose proof nearest_scaled as Ea. pose proof nearest_p_pos as Hp.
  rewrite E1, Ea in H1. rewrite E2, Ea in H2.
  split.
  - apply Qmult_le_r in H1; assumption.
  - apply Qmult_lt_r in H2; assumption.
Qed.

Lemma nearest_m_bounds : (2 ^ 52 <= m <= 2 ^ 53)%Z.
Proof.
  destruct nearest_x_bounds as [H1 H2].
  assert (F1 : (2 ^ 52 <= Qfloor x)%Z).
  { rewrite <- (Qfloor_Z (2 ^ 52)). now apply Qfloor_resp_le. }
  assert (F2 : (Qfloor x < 2 ^ 53)%Z).
  { rewrite Zlt_Qlt. pose proof (Qfloor_le x). lra. }
  unfold m. destruct (roundHalfEven_floor x) as [-> | ->]; lia.
Qed.

Lemma nearest_multiple (n : Z) :
  Qabs (r - a) <= Qabs (inject_Z n * p - a).
Proof.
  pose proof nearest_p_pos as Hp.
  assert (E1 : r - a == (inject_Z m - x) * p).
  { unfold r. rewrite nearest_scaled at 1. ring. }
  assert (E2 : inject_Z n * p - a == (inject_Z n - x) * p).
  { rewrite nearest_scaled at 1. ring. }
  rewrite E1, E2, !Qabs_Qmult, (Qabs_pos p) by lra.
  apply Qmult_le_compat_r; [apply roundHalfEven_nearest|lra].
Qed.

Lemma nearest_finite : r < 2 ^ 1024.
Proof.
  destruct nearest_m_bounds as [_ Hm]. pose proof nearest_binade as He.
  destruct nearest_binade_scaled as [_ E2]. pose proof nearest_p_pos as Hp.
  assert (H : r <= 2 ^ (e + 1)).
  { rewrite E2. unfold r. apply Qmult_le_compat_r; [|lra].
    now rewrite <- Zle_Qle. }
  assert (H' : 2 ^ (e + 1) < 2 ^ 1024) by (apply pow2_lt; lia).
  lra.
Qed.

Lemma nearest_isDouble : isDouble r.
Proof.
  destruct nearest_m_bounds as [Hlo Hhi]. pose proof nearest_binade as He.
  destruct (Z.eq_dec m (2 ^ 53)) as [E|N].
  - exists (2 ^ 52)%Z, (e - 51)%Z. split; [reflexivity|]. split; [lia|].
    unfold r, p. rewrite E.
    replace (e - 51)%Z with (1 + (e - 52))%Z by lia.
    rewrite pow2_add. change (inject_Z (2 ^ 53)) with (inject_Z (2 ^ 52) * 2 ^ 1).
    ring.
  - exists m, (e - 52)%Z. split; [lia|]. split; [lia|reflexivity].
Qed.

Lemma nearest_among_doubles (z : Q) :
  isDouble z -> Qabs (r - a) <= Qabs (z - a).
Proof.
  intros [m' [e' [Hm' [He' Ez]]]].
  pose proof nearest_p_pos as Hp. pose proof nearest_binade as He.
  destruct (Z_le_gt_dec (e - 52) e') as [Hk|Hk].
  - assert (E : z == inject_Z (m' * 2 ^ (e' - (e - 52))) * p).
    { rewrite Ez, inject_Z_mult, pow2_Z by lia. unfold p.
      rewrite <- Qmult_assoc, <- pow2_add.
      now replace (e' - (e - 52) + (e - 52))%Z with e' by lia. }
    rewrite E. apply nearest_multiple.
  - destruct (binade_spec a nearest_a_pos) as [H1 _]. fold e in H1.
    destruct nearest_binade_scaled as [E1 _].
    pose proof (nearest_multiple (2 ^ 52)) as Hn. rewrite <- E1 in Hn.
    assert (Hz : Qabs z < 2 ^ e).
    { rewrite Ez, Qabs_Qmult, Qabs_inject_Z, (Qabs_pos (2 ^ e')).
      2:{ pose proof (pow2_pos e'). lra. }
      assert (A : inject_Z (Z.abs m') * 2 ^ e' < inject_Z (2 ^ 53) * 2 ^ e').
      { apply Qmult_lt_r; [apply pow2_pos|]. now rewrite <- Zlt_Qlt. }
      assert (B : inject_Z (2 ^ 53) * 2 ^ e' <= 2 ^ e).
      { rewrite pow2_Z, <- pow2_add by lia. apply pow2_le. lia. }
      lra. }
    destruct (Qabs_lower z) as [Z1 _].
    destruct (Qabs_lower (z - a)) as [_ Z2].
    rewrite (Qabs_neg (2 ^ e - a)) in Hn by lra.
    lra.
Qed.

End Nearest.

(** [toNumber] gives the nearest double: on zero, and on the rationals of
    the normal range, which hold the values of the coordinate format. *)
Lemma toNumber_nearest (q : Q) :
  q == 0 \/ (2 ^ (-1022) <= Qabs q /\ Qabs q < 2 ^ 1023) ->
  exists y, toNumber q = Finite y /\ nearestDouble y q.
Proof.
  intros [H0|[Hmin Hmax]].
  - exists 0. split.
    + unfold toNumber. apply Qeq_bool_iff in H0. now rewrite H0.
    + split; [exact isDouble_zero|]. intros y' _.
      rewrite H0. setoid_replace (0 - 0) with 0 by ring.
      apply Qabs_nonneg.
  - pose proof (nearest_a_pos _ Hmin) as Ha.
    pose proof (nearest_binade _ Hmin Hmax) as He.
    pose proof (nearest_finite _ Hmin Hmax) as Hfin.
    pose proof (nearest_isDouble _ Hmin Hmax) as Hdbl.
    pose proof (nearest_among_doubles _ Hmin Hmax) as Hnear.
    unfold toNumber.
    destruct (Qeq_bool q 0) eqn:Hz.
    { apply Qeq_bool_iff in Hz. rewrite Hz in Ha. discriminate Ha. }
    rewrite Z.max_l by lia.
    set (r := inject_Z (roundHalfEven (Qabs q / 2 ^ (binade (Qabs q) - 52)))
              * 2 ^ (binade (Qabs q) - 52)) in *.
    destruct (Qle_bool (2 ^ 1024) r) eqn:Hb.
    { apply Qle_bool_iff in Hb. lra. }
    eexists. split; [reflexivity|].
    destruct (Qnum q <? 0)%Z eqn:Hs.
    + assert (Hq : q == - Qabs q).
      { rewrite Qabs_neg; [ring|].
        apply Z.ltb_lt in Hs. destruct q as [n d]. unfold Qle. simpl in *. lia. }
      split.
      * apply (isDouble_comp (- r)); [now rewrite Qred_correct|].
        now apply isDouble_opp.
      * intros y' Hy'. rewrite Qred_correct.
        setoid_replace (- r - q) with (- (r - Qabs q)) by (rewrite Hq at 1; ring).
        setoid_replace (y' - q) with (- (- y' - Qabs q)) by (rewrite Hq at 1; ring).
        rewrite !Qabs_opp. apply Hnear. now apply isDouble_opp.
    + assert (Hq : q == Qabs q).
      { rewrite Qabs_pos; [reflexivity|].
        apply Z.ltb_ge in Hs. destruct q as [n d]. unfold Qle. simpl in *. lia. }
      split.
      * apply (isDouble_comp r); [now rewrite Qred_correct|exact Hdbl].
      * intros y' Hy'. rewrite Qred_correct.
        setoid_replace (r - q) with (r - Qabs q) by (rewrite Hq at 1; ring).
        setoid_replace (y' - q) with (y' - Qabs q) by (rewrite Hq at 1; ring).
        now apply Hnear.
Qed.

Lemma nearestDouble_comp (y v w : Q) :
  v == w -> nearestDouble y v -> nearestDouble y w.
Proof.
  intros E [Hd Hn]. split; [exact Hd|].
  intros y' Hy'. rewrite <- E. now apply Hn.
Qed.

End Doubles.

(** *** The decimal that a coordinate text denotes *)

Section Reading.
Import JS.

Lemma digitValue_bounds c : isDigit c = true -> (0 <= digitValue c <= 9)%Z.
Proof.
  destruct c as [[] [] [] [] [] [] [] []]; vm_compute; intros H;
    try discriminate H; split; discriminate.
Qed.

Lemma numeral_from (ds : list ascii) (acc : Z) :
  fold_left (fun acc c => 10 * acc + digitValue c)%Z ds acc
  = (acc * 10 ^ Z.of_nat (List.length ds) + numeral ds)%Z.
Proof.
  unfold numeral. revert acc.
  induction ds as [|c ds IH]; intros acc.
  - simpl. lia.
  - cbn [fold_left List.length]. rewrite IH, (IH (10 * 0 + digitValue c)%Z).
    rewrite Nat2Z.inj_succ, Z.pow_succ_r by lia. ring.
Qed.

Lemma numeral_cons (c : ascii) (ds : list ascii) :
  numeral (c :: ds)
  = (digitValue c * 10 ^ Z.of_nat (List.length ds) + numeral ds)%Z.
Proof.
  unfold numeral at 1. cbn [fold_left]. rewrite numeral_from. ring.
Qed.

Lemma numeral_bounds (ds : list ascii) :
  Forall (fun c => isDigit c = true) ds ->
  (0 <= numeral ds < 10 ^ Z.of_nat (List.length ds))%Z.
Proof.
  induction 1 as [|c ds Hc _ IH].
  - vm_compute. split; [discriminate|reflexivity].
  - rewrite numeral_cons. cbn [List.length].
    rewrite Nat2Z.inj_succ, Z.pow_succ_r by lia.
    pose proof (digitValue_bounds c Hc).
    assert (0 < 10 ^ Z.of_nat (List.length ds))%Z by (apply Z.pow_pos_nonneg; lia).
    nia.
Qed.

(** The reader of the Standard Library reads a string of digits as the
    numeral that [parseFloat] computes. *)
Lemma uint_of_digits (ds : list ascii) :
  Forall (fun c => isDigit c = true) ds ->
  exists u,
    NilEmpty.uint_of_string (text ds) = Some u
    /\ Z.of_uint u = numeral ds
    /\ Unsigned.usize u = N.of_nat (List.length ds).
Proof.
  induction 1 as [|c ds Hc _ [u [Hu [Hv Hs]]]].
  - exists Decimal.Nil. repeat split.
  - unfold text in *. cbn [string_of_list_ascii NilEmpty.uint_of_string].
    rewrite Hu, numeral_cons, <- Hv.
    assert (Hpow : (10 ^ Z.of_nat (List.length ds))%Z
                   = Z.of_N (10 ^ Unsigned.usize u)).
    { rewrite Hs, N2Z.inj_pow, nat_N_Z. reflexivity. }
    rewrite Hpow.
    destruct c as [[] [] [] [] [] [] [] []]; try discriminate Hc;
      (eexists; split; [reflexivity|]; split;
       [ unfold Z.of_uint; cbn [Pos.of_uint];
         rewrite ?Unsigned.of_uint_acc_rev, <- ?Unsigned.of_uint_alt,
           ?N2Z.inj_add, ?N2Z.inj_mul;
         vm_compute digitValue; cbn [Z.of_N]; try ring
       | cbn [Unsigned.usize]; rewrite Hs; cbn [List.length]; lia ]).
Qed.

Lemma Reads_parts (sg int ds sg' int' ds' : list ascii) :
  Sign sg -> Digits 1 3 int -> Sign sg' -> Digits 1 3 int' ->
  sg ++ int ++ match ds with [] => [] | _ => "."%char :: ds end
  = sg' ++ int' ++ match ds' with [] => [] | _ => "."%char :: ds' end ->
  sg = sg' /\ int = int' /\ ds = ds'.
Proof.
  intros Hsg [[Hlo Hhi] Hall] Hsg' [[Hlo' Hhi'] Hall'] E.
  assert (Hstop : forall l : list ascii,
             stops match l with [] => [] | _ => "."%char :: l end).
  { intros [|c l]; simpl; auto. }
  assert (S1 : sign (sg ++ int ++ match ds with
                                  | [] => []
                                  | _ => "."%char :: ds
                                  end)
               = (sg, int ++ match ds with
                             | [] => []
                             | _ => "."%char :: ds
                             end)).
  { apply sign_complete; [exact Hsg|].
    destruct int as [|c int]; [simpl in Hlo; lia|].
    inversion Hall as [|? ? Hc ?]; subst.
    exists c. eexists. split; [reflexivity|exact Hc]. }
  assert (S2 : sign (sg' ++ int' ++ match ds' with
                                    | [] => []
                                    | _ => "."%char :: ds'
                                    end)
               = (sg', int' ++ match ds' with
                               | [] => []
                               | _ => "."%char :: ds'
                               end)).
  { apply sign_complete; [exact Hsg'|].
    destruct int' as [|c int']; [simpl in Hlo'; lia|].
    inversion Hall' as [|? ? Hc ?]; subst.
    exists c. eexists. split; [reflexivity|exact Hc]. }
  rewrite E, S2 in S1. injection S1 as <- E1.
  split; [reflexivity|].
  pose proof (digits_greedy 3 int _ Hall Hhi (Hstop ds)) as D1.
  pose proof (digits_greedy 3 int' _ Hall' Hhi' (Hstop ds')) as D2.
  rewrite <- E1, D2 in D1. injection D1 as <- E2.
  split; [reflexivity|].
  destruct ds, ds'; try discriminate; [reflexivity|].
  injection E2 as -> ->. reflexivity.
Qed.

Local Open Scope Q_scope.

(** A text denotes one decimal. *)
Lemma Reads_functional (s : list ascii) (v w : Q) :
  Reads s v -> Reads s w -> v == w.
Proof.
  intros Hv Hw.
  inversion Hv as [sg int ds u Hsg Hint Hds Hu Es Ev].
  inversion Hw as [sg' int' ds' u' Hsg' Hint' Hds' Hu' Es' Ew].
  rewrite <- Es' in Es.
  destruct (Reads_parts _ _ _ _ _ _ Hsg Hint Hsg' Hint' Es) as [<- [<- <-]].
  rewrite Hu in Hu'. injection Hu' as <-. reflexivity.
Qed.

Lemma decimal_fraction (n : Z) (k : nat) :
  n # Z.to_pos (10 ^ Z.of_nat k) == inject_Z n / 10 ^ Z.of_nat k.
Proof.
  assert (H : (0 < 10 ^ Z.of_nat k)%Z) by (apply Z.pow_pos_nonneg; lia).
  rewrite Qmake_Qdiv, Z2Pos.id by exact H.
  rewrite (Zpower_Qpower 10) by lia. reflexivity.
Qed.

(** A text of the coordinate format denotes a decimal, and [parseFloat]
    returns a double nearest to it. *)
Lemma parseFloat_reads (s : string) :
  Coordinate (chars s) ->
  exists y v,
    parseFloat s = Finite y /\ Reads (chars s) v /\ nearestDouble y v.
Proof.
  intros C.
  assert (Hs : parseFloat s = parseFloat (text (chars s)))
    by now rewrite text_chars.
  rewrite Hs. clear Hs.
  inversion C as [sg int frac Hsg Hint Hfrac E]. clear C.
  assert (Hds : exists ds, Digits 0 15 ds
                           /\ frac = match ds with
                                     | [] => []
                                     | _ => "."%char :: ds
                                     end).
  { destruct Hfrac as [->|[ds [-> [[Hlo Hhi] Hall]]]].
    - exists []. repeat split; simpl; auto; lia.
    - exists ds. split; [repeat split; auto; lia|].
      destruct ds; [simpl in Hlo; lia|reflexivity]. }
  destruct Hds as [ds [Hds ->]].
  destruct Hds as [[_ Hlen] Hall]. destruct Hint as [[Hlo Hhi] Hiall].
  rewrite parseFloat_coordinate by (repeat split; auto).
  assert (Hdig : Forall (fun c => isDigit c = true) (int ++ ds))
    by (apply Forall_app; split; assumption).
  destruct (uint_of_digits _ Hdig) as [u [Hu [Hv _]]].
  pose proof (numeral_bounds _ Hdig) as Hb. rewrite length_app in Hb.
  set (n := numeral (int ++ ds)) in *.
  set (k := List.length ds) in *.
  set (num := if existsb (Ascii.eqb "-") sg then (- n)%Z else n).
  assert (Hk : (0 < 10 ^ Z.of_nat k)%Z) by (apply Z.pow_pos_nonneg; lia).
  assert (Hk15 : (10 ^ Z.of_nat k <= 10 ^ 15)%Z)
    by (apply Z.pow_le_mono_r; lia).
  assert (Hn : (n < 1000 * 10 ^ Z.of_nat k)%Z).
  { destruct Hb as [_ Hb]. rewrite Nat2Z.inj_add, Z.pow_add_r in Hb by lia.
    assert (10 ^ Z.of_nat (List.length int) <= 10 ^ 3)%Z
      by (apply Z.pow_le_mono_r; lia).
    change (10 ^ 3)%Z with 1000%Z in *. nia. }
  assert (Habs : Z.abs num = n).
  { unfold num. destruct (existsb _ sg); lia. }
  assert (Hrange : num # Z.to_pos (10 ^ Z.of_nat k) == 0
                   \/ (2 ^ (-1022) <= Qabs (num # Z.to_pos (10 ^ Z.of_nat k))
                       /\ Qabs (num # Z.to_pos (10 ^ Z.of_nat k)) < 2 ^ 1023)).
  { destruct (Z.eq_dec n 0) as [Hz|Hnz].
    - left. unfold Qeq. simpl. lia.
    - right. rewrite <- Zabs_Qabs, Habs. split.
      + apply Qle_trans with (1 # 10 ^ 15).
        * apply Qle_bool_iff. vm_compute. reflexivity.
        * unfold Qle. cbn [Qnum Qden]. rewrite Z2Pos.id by exact Hk.
          change (Z.pos (10 ^ 15)) with (10 ^ 15)%Z. nia.
      + apply Qlt_le_trans with 1000.
        * unfold Qlt. cbn [Qnum Qden]. rewrite Z2Pos.id by exact Hk. lia.
        * apply Qle_bool_iff. vm_compute. reflexivity. }
  destruct (toNumber_nearest _ Hrange) as [y [Hy Hnear]].
  exists y.
  exists ((if existsb (Ascii.eqb "-") sg then - (1) else 1)
          * (inject_Z (Z.of_uint u) / 10 ^ Z.of_nat k)).
  split; [exact Hy|]. split.
  - apply Reads_intro; repeat split; auto; lia.
  - apply (nearestDouble_comp y (num # Z.to_pos (10 ^ Z.of_nat k)));
      [|exact Hnear].
    rewrite decimal_fraction, Hv. fold n. unfold num.
    destruct (existsb _ sg); [rewrite inject_Z_opp|]; field;
      apply Qpower_not_0; discriminate.
Qed.

End Reading.

Section Running.
Import Net.

Lemma run_bind {A B} (w : Remote) (p : IO A) (f : A -> IO B) sent :
  run w sent (bind p f)
  = run w (fst (run w sent p)) (f (snd (run w sent p))).
Proof.
  revert sent. induction p as [a|r req k IH|k IH]; intros sent; simpl; auto.
Qed.

End Running.

Section MoveDevices.
Import Net API.

(** A valid ID is a whole number between 0 and [MAX_SAFE_INTEGER]. *)
Lemma isValidID_spec (id : JS.number) :
  isValidID id = true
  <-> exists q z, id = JS.Finite q /\ (q == inject_Z z)%Q
                  /\ (0 <= z <= JS.MAX_SAFE_INTEGER)%Z.
Proof.
  unfold isValidID. split.
  - destruct id as [| |q]; try discriminate. simpl.
    unfold JS.isIntegral, JS.integerValue.
    intros H. apply andb_true_iff in H as [H Hpos].
    apply andb_true_iff in H as [Hint Hmax].
    apply Z.eqb_eq in Hint. apply Z.leb_le in Hmax, Hpos.
    exists q, (Qnum q / Zpos (Qden q))%Z. split; [reflexivity|].
    pose proof (Z.div_mod (Qnum q) (Zpos (Qden q)) ltac:(lia)) as E.
    rewrite Hint, Z.add_0_r in E.
    assert (0 <= Qnum q / Zpos (Qden q))%Z
      by (apply Z.div_pos; lia).
    split; [unfold Qeq; simpl; lia|lia].
  - intros [q [z [-> [E [Hlo Hhi]]]]]. simpl.
    unfold Qeq in E. simpl in E. rewrite Z.mul_1_r in E.
    unfold JS.isIntegral, JS.integerValue. rewrite E.
    rewrite Z.mod_mul, Z.div_mul by lia.
    rewrite Z.eqb_refl. simpl.
    apply andb_true_iff. split; [apply Z.leb_le; lia|].
    apply Z.leb_le. apply Z.mul_nonneg_nonneg; lia.
Qed.

(** A valid UDID is a non-empty string of hexadecimal digits and dashes. *)
Lemma isValidUDID_spec (udid : string) :
  isValidUDID udid = true
  <-> udid <> "" /\ Forall (fun c => isUDIDChar c = true) (JS.chars udid).
Proof.
  unfold isValidUDID, JS.chars. destruct udid as [|c rest]; simpl.
  - split; [discriminate|]. intros [H _]. now destruct H.
  - rewrite andb_true_iff, forallb_forall, Forall_forall. split.
    + intros [Hc Hrest]. split; [discriminate|].
      intros x [<-|Hx]; auto.
    + intros [_ H]. split; [apply H; now left|].
      intros x Hx. apply H. now right.
Qed.

Lemma assert_true (message : string) : assert true message = resolve tt.
Proof. reflexivity. Qed.

Lemma forEach_valid (devices : list string) :
  (forall u, In u devices -> isValidUDID u = true) ->
  forEach assertValidUDID devices = resolve tt.
Proof.
  induction devices as [|u rest IH]; intros H; simpl; [reflexivity|].
  unfold assertValidUDID at 1. rewrite (H u) by now left.
  simpl. apply IH. intros v Hv. apply H. now right.
Qed.

Lemma forEach_invalid (devices : list string) :
  (exists u, In u devices /\ isValidUDID u = false) ->
  exists e, forEach assertValidUDID devices = throw e.
Proof.
  induction devices as [|u rest IH]; intros [v [Hin Hv]]; [destruct Hin|].
  simpl. unfold assertValidUDID at 1.
  destruct (isValidUDID u) eqn:Hu; simpl.
  - apply IH. destruct Hin as [->|Hin]; [congruence|eauto].
  - eexists. reflexivity.
Qed.

Lemma stringify_strings (l : list string) :
  map (fun x => match JS.stringify x with Some j => j | None => JS.JNull end)
      (map JS.Str l)
  = map JS.JString l.
Proof. induction l; simpl; congruence. Qed.

Lemma isValidID_finite (id : JS.number) :
  isValidID id = true -> exists q, id = JS.Finite q.
Proof. destruct id; try discriminate; eauto. Qed.

Lemma run_json_assertValid w sent r req :
  run w sent (await (json r req) (assertValid r))
  = (sent ++ [req], answer r req (respond w r sent req)).
Proof.
  simpl. unfold answer.
  destruct (afterResponse req (respond w r sent req)); [reflexivity|].
  destruct (payload (respond w r sent req)); reflexivity.
Qed.

Lemma moveDevices_sends devices q options :
  (1 <= List.length devices <= 20)%nat ->
  isValidID (JS.Finite q) = true ->
  (forall u, In u devices -> isValidUDID u = true) ->
  moveDevices devices (JS.Finite q) options
  = await (json PUT_devices_migrate
            {| method := PUT; path := "devices/migrate"; searchParams := None;
               body := Some (moveDevicesBody devices q options) |})
          (assertValid PUT_devices_migrate).
Proof.
  intros [Hlo Hhi] Hid Hall. unfold moveDevices, assertValidID.
  rewrite Hid.
  replace (0 <? List.length devices)%nat with true
    by (symmetry; apply Nat.ltb_lt; lia).
  replace (List.length devices <=? 20)%nat with true
    by (symmetry; apply Nat.leb_le; lia).
  rewrite !assert_true, (forEach_valid _ Hall).
  cbn. rewrite stringify_strings.
  destruct options as [[[b|]]|]; reflexivity.
Qed.


(** C1.  [moveDevices(udids, locationId, options?)]: when [udids] is empty
    or has more than 20 elements, or [locationId] is no valid ID, or some
    element of [udids] is no valid UDID, the call throws and no request is
    sent; when [udids] has between 1 and 20 elements, all of them valid
    UDIDs, and [locationId] is valid, exactly one request is sent, a PUT to
    [devices/migrate] whose JSON body has exactly those UDIDs in its field
    [udids]. *)
Theorem moveDevices_contract devices locationId options :
  ((List.length devices = 0%nat \/ (20 < List.length devices)%nat
    \/ isValidID locationId = false
    \/ (exists u, In u devices /\ isValidUDID u = false)) ->
   (exists e, moveDevices devices locationId options = throw e)
   /\ forall w, requests w (moveDevices devices locationId options) = [])
  /\
  ((1 <= List.length devices <= 20)%nat ->
   isValidID locationId = true ->
   (forall u, In u devices -> isValidUDID u = true) ->
   exists req members,
     (forall w, requests w (moveDevices devices locationId options) = [req])
     /\ method req = PUT /\ path req = "devices/migrate"
     /\ body req = Some (JS.JObject members)
     /\ JS.member "udids" members = Some (JS.JArray (map JS.JString devices))).
Proof.
  split.
  - intros H.
    assert (E : exists e, moveDevices devices locationId options = throw e).
    { unfold moveDevices, assertValidID.
      destruct (isValidID locationId) eqn:Hid; [|eexists; reflexivity].
      destruct (0 <? List.length devices)%nat eqn:Hlo; [|eexists; reflexivity].
      destruct (List.length devices <=? 20)%nat eqn:Hhi; [|eexists; reflexivity].
      apply Nat.ltb_lt in Hlo. apply Nat.leb_le in Hhi.
      destruct H as [H|[H|[H|H]]]; try lia; try discriminate.
      destruct (forEach_invalid _ H) as [e He].
      rewrite !assert_true. cbn -[forEach]. rewrite He. eexists. reflexivity. }
    split; [exact E|]. destruct E as [e ->]. reflexivity.
  - intros Hlen Hid Hall.
    destruct (isValidID_finite _ Hid) as [q ->].
    rewrite (moveDevices_sends devices q options Hlen Hid Hall).
    eexists. eexists. split; [|split; [|split; [|split]]].
    + intros w. unfold requests.
      rewrite (run_json_assertValid w [] PUT_devices_migrate). reflexivity.
    + reflexivity.
    + reflexivity.
    + reflexivity.
    + reflexivity.
Qed.


(** The bulk move at the empty list, and at two UDIDs for location 3. *)
Lemma moveDevices_contract_witness :
  ((exists e, moveDevices [] (JS.ofZ 0) None = throw e)
   /\ forall w, requests w (moveDevices [] (JS.ofZ 0) None) = [])
  /\ exists req members,
       (forall w, requests w (moveDevices ["-"; "c0ffee"] (JS.ofZ 3) None)
                  = [req])
       /\ method req = PUT /\ path req = "devices/migrate"
       /\ body req = Some (JS.JObject members)
       /\ JS.member "udids" members
          = Some (JS.JArray (map JS.JString ["-"; "c0ffee"])).
Proof.
  split.
  - apply (proj1 (moveDevices_contract [] (JS.ofZ 0) None)).
    left. reflexivity.
  - apply (proj2 (moveDevices_contract ["-"; "c0ffee"] (JS.ofZ 3) None)).
    + simpl. lia.
    + reflexivity.
    + intros u [<-|[<-|[]]]; reflexivity.
Defined.

(** ["X"] is no valid UDID: [moveDevices(["X"], 0)] throws and sends no
    body at all. *)
Lemma moveDevices_X_is_rejected :
  moveDevices ["X"] (JS.ofZ 0) None
  = throw (AssertionError "Invalid UDID: X")
  /\ firstRequest (moveDevices ["X"] (JS.ofZ 0) None) = None
  /\ requests (Samples.remote Samples.acknowledging true)
       (moveDevices ["X"] (JS.ofZ 0) None) = [].
Proof. repeat split. Qed.

(** C7, amended.  For every valid UDID [u] (the tests use ["-"]),
    [moveDevices([u], 0)] with the options omitted sends the JSON body
    [{locationId: 0, udids: [u]}], in which there is no key [onlyDevice];
    with [{onlyDevice: true}] it sends the same body with
    [onlyDevice: true] added. *)
Theorem moveDevices_body (u : string) :
  isValidUDID u = true ->
  (forall w,
     requests w (moveDevices [u] (JS.ofZ 0) None)
     = [ {| method := PUT; path := "devices/migrate"; searchParams := None;
            body := Some (JS.JObject [("locationId", JS.JNumber 0);
                                      ("udids", JS.JArray [JS.JString u])]) |} ])
  /\ JS.hasKey "onlyDevice"
       (JS.JObject [("locationId", JS.JNumber 0);
                    ("udids", JS.JArray [JS.JString u])]) = false
  /\ (forall w,
        requests w (moveDevices [u] (JS.ofZ 0)
                      (Some {| onlyDevice := Some true |}))
        = [ {| method := PUT; path := "devices/migrate"; searchParams := None;
               body := Some (JS.JObject [("locationId", JS.JNumber 0);
                                         ("udids", JS.JArray [JS.JString u]);
                                         ("onlyDevice", JS.JBool true)]) |} ]).
Proof.
  intros Hu.
  assert (Hall : forall v, In v [u] -> isValidUDID v = true)
    by (intros v [<-|[]]; exact Hu).
  assert (Hlen : (1 <= List.length [u] <= 20)%nat) by (simpl; lia).
  repeat split.
  - intros w. unfold requests, JS.ofZ.
    rewrite (moveDevices_sends [u] (inject_Z 0) None Hlen eq_refl Hall).
    rewrite (run_json_assertValid w [] PUT_devices_migrate). reflexivity.
  - intros w. unfold requests, JS.ofZ.
    rewrite (moveDevices_sends [u] (inject_Z 0) _ Hlen eq_refl Hall).
    rewrite (run_json_assertValid w [] PUT_devices_migrate). reflexivity.
Qed.

(** The bulk move of the UDID ["-"], as in the tests. *)
Lemma moveDevices_body_witness :
  isValidUDID "-" = true
  /\ forall w,
       requests w (moveDevices ["-"] (JS.ofZ 0) None)
       = [ {| method := PUT; path := "devices/migrate"; searchParams := None;
              body := Some (JS.JObject [("locationId", JS.JNumber 0);
                                        ("udids", JS.JArray [JS.JString "-"])]) |} ].
Proof.
  split; [reflexivity|].
  exact (proj1 (moveDevices_body "-" eq_refl)).
Defined.

End MoveDevices.

Section QueryParameters.
Import Net API.
Variable shortest : Q -> string.

(** The entries that [toSearchParams] keeps. *)
Lemma toSearchParams_In data entries key s :
  toSearchParams shortest data = Some entries ->
  (In (key, s) entries
   <-> exists v, In (key, v) data /\ JS.notNullish v = true
                 /\ s = JS.String_ shortest (castBoolean v)).
Proof.
  unfold toSearchParams. rewrite map_map.
  set (kept := filter _ data).
  intros H.
  assert (E : entries
              = map (fun '(key, val) =>
                       (key, JS.String_ shortest (castBoolean val))) kept).
  { destruct (map _ kept) eqn:Hm; [discriminate|].
    inversion H; subst. rewrite <- Hm. apply map_ext. now intros [k v]. }
  subst entries. rewrite in_map_iff. split.
  - intros [[k v] [Hkv Hin]]. inversion Hkv; subst.
    apply filter_In in Hin as [Hin Hv]. eauto.
  - intros [v [Hin [Hv ->]]]. exists (key, v). split; [reflexivity|].
    apply filter_In. auto.
Qed.

Lemma toSearchParams_None data :
  toSearchParams shortest data = None
  <-> forall key v, In (key, v) data -> JS.notNullish v = false.
Proof.
  unfold toSearchParams. rewrite map_map.
  set (keep := fun '(_, val) => JS.notNullish val).
  split.
  - intros H key v Hin.
    destruct (JS.notNullish v) eqn:Hv; [|reflexivity].
    assert (Hk : In (key, v) (filter keep data))
      by (apply filter_In; auto).
    destruct (filter keep data); [destruct Hk|discriminate].
  - intros H.
    assert (E : filter keep data = []).
    { induction data as [|[k v] rest IH]; [reflexivity|].
      simpl. rewrite (H k v) by now left.
      apply IH. intros key v' Hin. apply (H key). now right. }
    now rewrite E.
Qed.

End QueryParameters.

Section QueryContract.
Import Net API.
Variable shortest : Q -> string.

Lemma getDevice_request udid options :
  isValidUDID udid = true ->
  firstRequest (getDevice shortest udid options)
  = Some {| method := GET;
            path := "devices/" ++ udid;
            searchParams :=
              match getDevice_includeApps options with
              | Some true => Some [("includeApps", "true")]
              | _ => None
              end;
            body := None |}.
Proof.
  intros Hu. unfold getDevice, assertValidUDID. rewrite Hu.
  destruct options as [[[|]|]]; reflexivity.
Qed.

(** C2, amended.  In the query that [toSearchParams] builds, a boolean
    is sent as ["0"] or ["1"]; every parameter sent comes from a value that
    is neither [null] nor [undefined]; and when every value is [null] or
    [undefined] there is no query at all.  The parameter [includeApps] of
    [GET /devices/:udid] is sent as the string ["true"] when the option is
    true, and is omitted, as is then the whole query, when the option is
    false or absent. *)
Theorem query_parameters (data : list (string * JS.value)) (udid : string) :
  isValidUDID udid = true ->
  (* booleans are sent as "0" and "1" *)
  (forall key b, In (key, JS.Bool b) data ->
     exists entries,
       toSearchParams shortest data = Some entries
       /\ In (key, if b then "1" else "0") entries)
  (* what is sent comes from a value that is neither null nor undefined *)
  /\ (forall entries key s,
        toSearchParams shortest data = Some entries ->
        In (key, s) entries ->
        exists v, In (key, v) data /\ v <> JS.Undefined /\ v <> JS.Null
                  /\ s = JS.String_ shortest (castBoolean v))
  (* no parameter left: no query string *)
  /\ ((forall key v, In (key, v) data -> v = JS.Undefined \/ v = JS.Null)
      -> toSearchParams shortest data = None)
  (* includeApps of GET /devices/:udid *)
  /\ (forall options,
        firstRequest (getDevice shortest udid options)
        = Some {| method := GET;
                  path := "devices/" ++ udid;
                  searchParams :=
                    match getDevice_includeApps options with
                    | Some true => Some [("includeApps", "true")]
                    | _ => None
                    end;
                  body := None |}).
Proof.
  intros Hu. repeat split.
  - intros key b Hin.
    destruct (toSearchParams shortest data) as [entries|] eqn:E.
    + exists entries. split; [reflexivity|].
      apply (toSearchParams_In shortest data entries key _ E).
      exists (JS.Bool b). repeat split; auto.
      destruct b; reflexivity.
    + pose proof (proj1 (toSearchParams_None shortest data) E _ _ Hin).
      discriminate.
  - intros entries key s E Hin.
    apply (toSearchParams_In shortest data entries key s E) in Hin
      as [v [Hin [Hv ->]]].
    exists v. repeat split; auto; intros ->; discriminate.
  - intros H. apply toSearchParams_None. intros key v Hin.
    destruct (H key v Hin) as [-> | ->]; reflexivity.
  - intros options. now apply getDevice_request.
Qed.

End QueryContract.

(** A query with two booleans and two omitted values, and one that
    collapses. *)
Lemma query_parameters_witness :
  API.isValidUDID "c0ffee" = true
  /\ (exists entries,
        API.toSearchParams Samples.noFraction
          [("hasOwner", JS.Bool false); ("name", JS.Undefined);
           ("supervised", JS.Bool true); ("owner", JS.Null)] = Some entries
        /\ In ("hasOwner", "0") entries)
  /\ API.toSearchParams Samples.noFraction
       [("name", JS.Undefined); ("owner", JS.Null)] = None.
Proof.
  split; [reflexivity|]. split.
  - apply (proj1 (query_parameters Samples.noFraction
             [("hasOwner", JS.Bool false); ("name", JS.Undefined);
              ("supervised", JS.Bool true); ("owner", JS.Null)]
             "c0ffee" eq_refl) "hasOwner" false).
    left. reflexivity.
  - apply (proj1 (proj2 (proj2 (query_parameters Samples.noFraction
             [("name", JS.Undefined); ("owner", JS.Null)]
             "c0ffee" eq_refl)))).
    intros key v [H|[H|[]]]; inversion H; auto.
Defined.

(** With [includeApps: false] the parameter is not sent as ["false"]: the
    request carries no query at all. *)
Lemma getDevice_includeApps_false_is_omitted :
  Net.firstRequest
    (API.getDevice Samples.noFraction "c0ffee"
       {| API.getDevice_includeApps := Some false |})
  = Some {| Net.method := Net.GET;
            Net.path := "devices/c0ffee";
            Net.searchParams := None;
            Net.body := None |}
  /\ Net.firstRequest
       (API.getDevice Samples.noFraction "c0ffee"
          {| API.getDevice_includeApps := Some false |})
     <> Some {| Net.method := Net.GET;
                Net.path := "devices/c0ffee";
                Net.searchParams := Some [("includeApps", "false")];
                Net.body := None |}.
Proof. split; [reflexivity|discriminate]. Qed.

Section Objects.
Import Net API.
Local Open Scope method_scope.

Lemma mbind_this {S B} (f : S -> Stateful S B) (s : S) :
  (x <- this ;; f x) s = f s s.
Proof. reflexivity. Qed.

Lemma run_mbind_call {S A B} (w : Remote) sent (p : Promise A)
    (f : A -> Stateful S B) (s : S) :
  run w sent ((x <- call p ;; f x) s)
  = match snd (run w sent p) with
    | inl e => (fst (run w sent p), (s, inl e))
    | inr a => run w (fst (run w sent p)) (f a s)
    end.
Proof.
  unfold mbind, call. rewrite !run_bind. simpl.
  destruct (snd (run w sent p)); reflexivity.
Qed.

Lemma run_call_then {S A} (w : Remote) sent (p : Promise A) (s : S) :
  run w sent ((call p ;; mret tt) s)
  = (fst (run w sent p),
     (s, match snd (run w sent p) with
         | inl e => inl e
         | inr _ => inr tt
         end)).
Proof.
  unfold mbind, call, mret. rewrite !run_bind. simpl.
  destruct (snd (run w sent p)); reflexivity.
Qed.

(** A call followed by nothing else leaves the object as it was and sends
    what the call sends. *)
Lemma call_then_unchanged {S A} (w : Remote) (p : Promise A) (s : S) :
  fst (outcome w ((call p ;; mret tt) s)) = s
  /\ requests w ((call p ;; mret tt) s) = requests w p.
Proof.
  unfold outcome, requests. rewrite run_call_then. split; reflexivity.
Qed.

Lemma setDeviceOwner_sends udid userId :
  isValidUDID udid = true -> isValidID userId = true ->
  setDeviceOwner udid userId
  = await (json PUT_devices_udid_owner
             {| method := PUT;
                path := "devices/" ++ udid ++ "/owner";
                searchParams := None;
                body := JS.stringify (JS.Obj [("user", JS.Num userId)]) |})
          (assertValid PUT_devices_udid_owner).
Proof.
  intros Hu Hi. unfold setDeviceOwner, assertValidUDID, assertValidID.
  rewrite Hu, Hi. reflexivity.
Qed.

Lemma updateDevice_sends udid data :
  isValidUDID udid = true ->
  updateDevice udid data
  = await (json POST_devices_udid_details
             {| method := POST;
                path := "devices/" ++ udid ++ "/details";
                searchParams := None;
                body := JS.stringify data |})
          (assertValid POST_devices_udid_details).
Proof.
  intros Hu. unfold updateDevice, assertValidUDID. rewrite Hu. reflexivity.
Qed.

Lemma updateDevice_rejects udid data :
  isValidUDID udid = false ->
  updateDevice udid data = throw (AssertionError ("Invalid UDID: " ++ udid)).
Proof.
  intros Hu. unfold updateDevice, assertValidUDID. rewrite Hu. reflexivity.
Qed.

Lemma moveDevice_sends udid locationId options :
  isValidUDID udid = true -> isValidID locationId = true ->
  moveDevice udid locationId options
  = await (json PUT_devices_udid_migrate
             {| method := PUT;
                path := "devices/" ++ udid ++ "/migrate";
                searchParams := None;
                body := JS.stringify
                          (JS.Obj [("locationId", JS.Num locationId);
                                   ("onlyDevice", onlyDeviceOf options)]) |})
          (assertValid PUT_devices_udid_migrate).
Proof.
  intros Hu Hi. unfold moveDevice, assertValidUDID, assertValidID.
  rewrite Hu, Hi. reflexivity.
Qed.

Lemma moveDevice_rejects udid locationId options :
  isValidUDID udid && isValidID locationId = false ->
  exists e, moveDevice udid locationId options = throw e.
Proof.
  intros H. unfold moveDevice, assertValidUDID, assertValidID.
  destruct (isValidUDID udid); [|eexists; reflexivity].
  destruct (isValidID locationId); [discriminate|eexists; reflexivity].
Qed.

Lemma requests_exchange (w : Remote) r req :
  requests w (await (json r req) (assertValid r)) = [req].
Proof. unfold requests. now rewrite run_json_assertValid. Qed.

End Objects.

Section OwnerMethods.
Import Net API.
Local Open Scope method_scope.

(** C6.  [setOwner({id: 0})] throws an assertion error and sends no
    request.  [removeOwner()] sends no request when the owner id of the
    snapshot is 0; when it is not, it calls [setDeviceOwner] with the UDID
    of the device and the user id 0, which for a valid UDID is the one
    request [PUT devices/<udid>/owner] with the body [{user: 0}]. *)
Theorem owner_contract (d : Device.t) :
  (Device.setOwner {| Device.id := JS.ofZ 0 |} d
   = Ret (d, inl (AssertionError
       "Using ID 0 would remove the owner. If this is intentional, use `Device.removeOwner()`"))
   /\ forall w,
        requests w (Device.setOwner {| Device.id := JS.ofZ 0 |} d) = [])
  /\ (JS.strictEquals (Device.ownerId d) (JS.ofZ 0) = true ->
      Device.removeOwner d = Ret (d, inr tt)
      /\ forall w, requests w (Device.removeOwner d) = [])
  /\ (JS.strictEquals (Device.ownerId d) (JS.ofZ 0) = false ->
      Device.removeOwner d
      = (call (setDeviceOwner (Device.udid d) (JS.ofZ 0)) ;; mret tt) d
      /\ (isValidUDID (Device.udid d) = true ->
          forall w,
            requests w (Device.removeOwner d)
            = [ {| method := PUT;
                   path := "devices/" ++ Device.udid d ++ "/owner";
                   searchParams := None;
                   body := Some (JS.JObject [("user", JS.JNumber 0)]) |} ])).
Proof.
  split; [|split].
  - split; [reflexivity|]. intros w. reflexivity.
  - intros H. unfold Device.ownerId, Device.data in H.
    assert (E : Device.removeOwner d = Ret (d, inr tt)).
    { unfold Device.removeOwner, mbind at 1, this, Device.data. simpl.
      rewrite H. reflexivity. }
    split; [exact E|]. intros w. now rewrite E.
  - intros H. unfold Device.ownerId, Device.data in H.
    assert (E : Device.removeOwner d
                = (call (setDeviceOwner (Device.udid d) (JS.ofZ 0)) ;; mret tt) d).
    { unfold Device.removeOwner, mbind at 1, this, Device.udid, Device.data.
      simpl. rewrite H. reflexivity. }
    split; [exact E|]. intros Hu w. rewrite E.
    rewrite (proj2 (call_then_unchanged w _ d)).
    rewrite (setDeviceOwner_sends _ (JS.ofZ 0) Hu eq_refl).
    apply (requests_exchange w PUT_devices_udid_owner).
Qed.

(** [removeOwner] on a device without owner, and on a device of user 7. *)
Lemma owner_contract_witness :
  JS.strictEquals (Device.ownerId Samples.unowned) (JS.ofZ 0) = true
  /\ JS.strictEquals (Device.ownerId Samples.ipad) (JS.ofZ 0) = false
  /\ API.isValidUDID (Device.udid Samples.ipad) = true
  /\ (forall w, requests w (Device.removeOwner Samples.unowned) = [])
  /\ (forall w,
        requests w (Device.removeOwner Samples.ipad)
        = [ {| method := PUT;
               path := "devices/c0ffee/owner";
               searchParams := None;
               body := Some (JS.JObject [("user", JS.JNumber 0)]) |} ]).
Proof.
  split; [reflexivity|]. split; [reflexivity|]. split; [reflexivity|]. split.
  - apply (proj1 (proj2 (owner_contract Samples.unowned))). reflexivity.
  - apply (proj2 (proj2 (owner_contract Samples.ipad))); reflexivity.
Defined.

End OwnerMethods.

Section Setters.
Import Net API.
Local Open Scope method_scope.

(** A setter reads the snapshot, compares, and then either returns or
    makes its one call: [setter m] exposes the comparison of [m]. *)
Ltac setter m :=
  unfold Device.assetTag, Device.locationId, Device.udid in *;
  unfold m, mbind at 1, this;
  simpl.

Lemma setAssetTag_same d text :
  Device.assetTag d = text -> Device.setAssetTag text d = Ret (d, inr tt).
Proof.
  intros <-. setter Device.setAssetTag. now rewrite String.eqb_refl.
Qed.

Lemma setAssetTag_other d text :
  Device.assetTag d <> text ->
  Device.setAssetTag text d
  = (call (updateDevice (Device.udid d) (JS.Obj [("assetTag", JS.Str text)]))
     ;; mret tt) d.
Proof.
  intros H. apply String.eqb_neq in H.
  setter Device.setAssetTag. now rewrite H.
Qed.

Lemma setNotes_same d text :
  notes (Device.data d) = text -> Device.setNotes text d = Ret (d, inr tt).
Proof.
  intros <-. setter Device.setNotes. now rewrite String.eqb_refl.
Qed.

Lemma setNotes_other d text :
  notes (Device.data d) <> text ->
  Device.setNotes text d
  = (call (updateDevice (Device.udid d) (JS.Obj [("notes", JS.Str text)]))
     ;; mret tt) d.
Proof.
  intros H. apply String.eqb_neq in H.
  setter Device.setNotes. now rewrite H.
Qed.

Lemma setLocation_same d location :
  JS.strictEquals (Device.locationId d) (Device.id location) = true ->
  Device.setLocation location d = Ret (d, inr tt).
Proof.
  intros H. setter Device.setLocation. now rewrite H.
Qed.

Lemma setLocation_other d location :
  JS.strictEquals (Device.locationId d) (Device.id location) = false ->
  Device.setLocation location d
  = (call (moveDevice (Device.udid d) (Device.id location) None)
     ;; mret tt) d.
Proof.
  intros H. setter Device.setLocation. now rewrite H.
Qed.

(** What one write through [updateDevice] sends. *)
Lemma requests_updateDevice w udid data :
  requests w (updateDevice udid data)
  = if isValidUDID udid
    then [ {| method := POST;
              path := "devices/" ++ udid ++ "/details";
              searchParams := None;
              body := JS.stringify data |} ]
    else [].
Proof.
  destruct (isValidUDID udid) eqn:Hu.
  - rewrite (updateDevice_sends _ _ Hu).
    apply (requests_exchange w POST_devices_udid_details).
  - now rewrite (updateDevice_rejects _ _ Hu).
Qed.

Lemma requests_moveDevice w udid locationId options :
  requests w (moveDevice udid locationId options)
  = if isValidUDID udid && isValidID locationId
    then [ {| method := PUT;
              path := "devices/" ++ udid ++ "/migrate";
              searchParams := None;
              body := JS.stringify
                        (JS.Obj [("locationId", JS.Num locationId);
                                 ("onlyDevice", onlyDeviceOf options)]) |} ]
    else [].
Proof.
  destruct (isValidUDID udid && isValidID locationId) eqn:H.
  - apply andb_true_iff in H as [Hu Hi].
    rewrite (moveDevice_sends _ _ _ Hu Hi).
    apply (requests_exchange w PUT_devices_udid_migrate).
  - destruct (moveDevice_rejects _ _ options H) as [e ->]. reflexivity.
Qed.

(** C8, amended.  For each of [setAssetTag], [setNotes] and [setLocation]:
    when the value equals the field of the snapshot, no request is sent;
    when it differs, the method calls the write of the API surface once
    ([updateDevice], [moveDevice]), which sends exactly one request when the
    UDID of the snapshot is a valid UDID (and, for [setLocation], the new
    location is a valid ID) and none otherwise.  In every case the snapshot
    is left as it was. *)
Theorem setters_contract (d : Device.t) (w : Remote) :
  (forall text,
     (Device.assetTag d = text ->
      requests w (Device.setAssetTag text d) = []
      /\ fst (outcome w (Device.setAssetTag text d)) = d)
     /\ (Device.assetTag d <> text ->
         Device.setAssetTag text d
         = (call (updateDevice (Device.udid d)
                    (JS.Obj [("assetTag", JS.Str text)])) ;; mret tt) d
         /\ requests w (Device.setAssetTag text d)
            = (if isValidUDID (Device.udid d)
               then [ {| method := POST;
                         path := "devices/" ++ Device.udid d ++ "/details";
                         searchParams := None;
                         body := Some (JS.JObject
                                         [("assetTag", JS.JString text)]) |} ]
               else [])
         /\ fst (outcome w (Device.setAssetTag text d)) = d))
  /\ (forall text,
        (notes (Device.data d) = text ->
         requests w (Device.setNotes text d) = []
         /\ fst (outcome w (Device.setNotes text d)) = d)
        /\ (notes (Device.data d) <> text ->
            Device.setNotes text d
            = (call (updateDevice (Device.udid d)
                       (JS.Obj [("notes", JS.Str text)])) ;; mret tt) d
            /\ requests w (Device.setNotes text d)
               = (if isValidUDID (Device.udid d)
                  then [ {| method := POST;
                            path := "devices/" ++ Device.udid d ++ "/details";
                            searchParams := None;
                            body := Some (JS.JObject
                                            [("notes", JS.JString text)]) |} ]
                  else [])
            /\ fst (outcome w (Device.setNotes text d)) = d))
  /\ (forall location,
        (JS.strictEquals (Device.locationId d) (Device.id location) = true ->
         requests w (Device.setLocation location d) = []
         /\ fst (outcome w (Device.setLocation location d)) = d)
        /\ (JS.strictEquals (Device.locationId d) (Device.id location) = false ->
            Device.setLocation location d
            = (call (moveDevice (Device.udid d) (Device.id location) None)
               ;; mret tt) d
            /\ requests w (Device.setLocation location d)
               = (if isValidUDID (Device.udid d)
                     && isValidID (Device.id location)
                  then [ {| method := PUT;
                            path := "devices/" ++ Device.udid d ++ "/migrate";
                            searchParams := None;
                            body := JS.stringify
                                      (JS.Obj [("locationId",
                                                JS.Num (Device.id location))]) |} ]
                  else [])
            /\ fst (outcome w (Device.setLocation location d)) = d)).
Proof.
  split; [|split].
  - intros text. split.
    + intros H. rewrite (setAssetTag_same _ _ H). split; reflexivity.
    + intros H. rewrite (setAssetTag_other _ _ H).
      split; [reflexivity|].
      destruct (call_then_unchanged w
                  (updateDevice (Device.udid d)
                     (JS.Obj [("assetTag", JS.Str text)])) d) as [Hs Hr].
      split; [|exact Hs]. rewrite Hr. apply requests_updateDevice.
  - intros text. split.
    + intros H. rewrite (setNotes_same _ _ H). split; reflexivity.
    + intros H. rewrite (setNotes_other _ _ H).
      split; [reflexivity|].
      destruct (call_then_unchanged w
                  (updateDevice (Device.udid d)
                     (JS.Obj [("notes", JS.Str text)])) d) as [Hs Hr].
      split; [|exact Hs]. rewrite Hr. apply requests_updateDevice.
  - intros location. split.
    + intros H. rewrite (setLocation_same _ _ H). split; reflexivity.
    + intros H. rewrite (setLocation_other _ _ H).
      split; [reflexivity|].
      destruct (call_then_unchanged w
                  (moveDevice (Device.udid d) (Device.id location) None) d)
        as [Hs Hr].
      split; [|exact Hs]. rewrite Hr, requests_moveDevice.
      destruct (Device.id location); reflexivity.
Qed.

End Setters.

(** A new asset tag for the sample iPad. *)
Lemma setters_contract_witness :
  Device.assetTag Samples.ipad <> "B-2"
  /\ Net.requests (Samples.remote Samples.acknowledging true)
       (Device.setAssetTag "B-2" Samples.ipad)
     = [ {| Net.method := Net.POST;
            Net.path := "devices/c0ffee/details";
            Net.searchParams := None;
            Net.body := Some (JS.JObject [("assetTag", JS.JString "B-2")]) |} ]
  /\ fst (Net.outcome (Samples.remote Samples.acknowledging true)
            (Device.setAssetTag "B-2" Samples.ipad)) = Samples.ipad.
Proof.
  assert (H : Device.assetTag Samples.ipad <> "B-2") by discriminate.
  split; [exact H|].
  exact (proj2 (proj2 (proj1 (setters_contract Samples.ipad
           (Samples.remote Samples.acknowledging true)) "B-2") H)).
Defined.

(** A new location that is no valid ID differs from the current one, and
    yet nothing is written. *)
Lemma setLocation_invalid_id_writes_nothing :
  JS.strictEquals (Device.locationId Samples.ipad) (JS.ofZ (-1)) = false
  /\ Net.requests (Samples.remote Samples.acknowledging true)
       (Device.setLocation {| Device.id := JS.ofZ (-1) |} Samples.ipad) = []
  /\ Net.outcome (Samples.remote Samples.acknowledging true)
       (Device.setLocation {| Device.id := JS.ofZ (-1) |} Samples.ipad)
     = (Samples.ipad,
        inl (Net.AssertionError "Invalid ID: must be a positive integer.")).
Proof. repeat split. Qed.

Section Update.
Import Net API.
Local Open Scope method_scope.
Variable shortest : Q -> string.

Lemma run_update (w : Remote) (d : Device.t) :
  run w [] (Device.update shortest d)
  = (fst (run w [] (Device.lookup shortest d)),
     match snd (run w [] (Device.lookup shortest d)) with
     | inl e => (d, inl e)
     | inr [device] => (Client.createDevice device, inr tt)
     | inr devices =>
         (d, inl (PlainError
                    ("Expected 1 device, got "
                     ++ JS.decimal (Z.of_nat (List.length devices)))))
     end).
Proof.
  unfold Device.update. rewrite mbind_this, run_mbind_call.
  fold (Device.serialNumber d). fold (Device.lookup shortest d).
  destruct (run w [] (Device.lookup shortest d)) as [sent [e|devices]]; simpl; [reflexivity|].
  destruct devices as [|device [|]]; reflexivity.
Qed.

(** C9.  When the lookup by serial number of [update()] returns a list
    whose length is not 1, [update()] throws and the snapshot is unchanged;
    when it returns exactly one device, the snapshot becomes that device;
    and the snapshot changes in no other case. *)
Theorem update_atomic (w : Remote) (d : Device.t) :
  (forall devices,
     outcome w (Device.lookup shortest d) = inr devices ->
     List.length devices <> 1%nat ->
     outcome w (Device.update shortest d)
     = (d, inl (PlainError
                  ("Expected 1 device, got "
                   ++ JS.decimal (Z.of_nat (List.length devices))))))
  /\ (forall device,
        outcome w (Device.lookup shortest d) = inr [device] ->
        outcome w (Device.update shortest d)
        = (Client.createDevice device, inr tt))
  /\ (forall d' r,
        outcome w (Device.update shortest d) = (d', r) ->
        d' <> d ->
        r = inr tt
        /\ exists device,
             outcome w (Device.lookup shortest d) = inr [device]
             /\ d' = Client.createDevice device).
Proof.
  unfold outcome. rewrite run_update. cbn [snd].
  destruct (snd (run w [] (Device.lookup shortest d))) as [e|devices].
  - split; [|split].
    + intros devices H. discriminate.
    + intros device H. discriminate.
    + intros d' r H Hd. inversion H; subst. contradiction.
  - split; [|split].
    + intros ds H Hlen. inversion H; subst.
      destruct ds as [|device [|]]; simpl in *; congruence.
    + intros device H. inversion H; subst. reflexivity.
    + intros d' r H Hd.
      destruct devices as [|device [|]]; inversion H; subst;
        try contradiction.
      split; [reflexivity|]. exists device. split; reflexivity.
Qed.

(** C3, amended.  After a successful [update()] the UDID of a device is
    the UDID of the one record that the lookup by serial number returned,
    and the id of an app is the id of the record that [getApp] returned:
    the identity is unchanged exactly when the remote service returns a
    record of the same identity, which [update()] does not check. *)
Theorem update_identity (w : Remote) :
  (forall d d',
     outcome w (Device.update shortest d) = (d', inr tt) ->
     exists device,
       outcome w (Device.lookup shortest d) = inr [device]
       /\ Device.udid d' = UDID device
       /\ (Device.udid d' = Device.udid d <-> UDID device = Device.udid d))
  /\ (forall a a',
        outcome w (App.update shortest a) = (a', inr tt) ->
        exists fetched,
          outcome w (getApp shortest (App.id a)) = inr fetched
          /\ App.id a' = AppData.id fetched
          /\ (App.id a' = App.id a <-> AppData.id fetched = App.id a)).
Proof.
  split.
  - intros d d'. unfold outcome. rewrite run_update. cbn [snd].
    destruct (snd (run w [] (Device.lookup shortest d))) as [e|devices]; [discriminate|].
    destruct devices as [|device [|]]; try discriminate.
    intros H. inversion H; subst. exists device.
    repeat split; auto.
  - intros a a'. unfold outcome, App.update.
    rewrite mbind_this, run_mbind_call.
    unfold App.id, App.data.
    destruct (run w [] (getApp shortest (AppData.id (Client.appData a))))
      as [sent [e|fetched]]; simpl; [discriminate|].
    intros H. inversion H; subst. exists fetched. repeat split; auto.
Qed.

End Update.

(** The lookup finds no device. *)
Lemma update_atomic_witness :
  Net.outcome (Samples.remote (Samples.listing []) true)
    (Device.lookup Samples.noFraction Samples.ipad) = inr []
  /\ List.length (@nil Net.DeviceData) <> 1%nat
  /\ Net.outcome (Samples.remote (Samples.listing []) true)
       (Device.update Samples.noFraction Samples.ipad)
     = (Samples.ipad, inl (Net.PlainError "Expected 1 device, got 0")).
Proof.
  assert (H : Net.outcome (Samples.remote (Samples.listing []) true)
                (Device.lookup Samples.noFraction Samples.ipad) = inr [])
    by reflexivity.
  assert (L : List.length (@nil Net.DeviceData) <> 1%nat) by discriminate.
  split; [exact H|]. split; [exact L|].
  exact (proj1 (update_atomic Samples.noFraction
                  (Samples.remote (Samples.listing []) true) Samples.ipad)
           [] H L).
Defined.

(** The lookup returns the serial number of the iPad under another
    UDID. *)
Lemma update_identity_witness :
  Net.outcome (Samples.remote (Samples.listing [Samples.reenrolled]) true)
    (Device.update Samples.noFraction Samples.ipad)
  = (Client.createDevice Samples.reenrolled, inr tt)
  /\ exists device,
       Net.outcome (Samples.remote (Samples.listing [Samples.reenrolled]) true)
         (Device.lookup Samples.noFraction Samples.ipad) = inr [device]
       /\ Device.udid (Client.createDevice Samples.reenrolled)
          = Net.UDID device
       /\ (Device.udid (Client.createDevice Samples.reenrolled)
           = Device.udid Samples.ipad
           <-> Net.UDID device = Device.udid Samples.ipad).
Proof.
  assert (H : Net.outcome
                (Samples.remote (Samples.listing [Samples.reenrolled]) true)
                (Device.update Samples.noFraction Samples.ipad)
              = (Client.createDevice Samples.reenrolled, inr tt))
    by reflexivity.
  split; [exact H|].
  exact (proj1 (update_identity Samples.noFraction
                  (Samples.remote (Samples.listing [Samples.reenrolled]) true))
           Samples.ipad _ H).
Defined.

(** The remote service may answer the lookup with a record of another
    identity, and [update] adopts it. *)
Lemma update_adopts_returned_identity :
  (Net.outcome (Samples.remote (Samples.listing [Samples.reenrolled]) true)
     (Device.update Samples.noFraction Samples.ipad)
   = (Client.createDevice Samples.reenrolled, inr tt)
   /\ Device.udid Samples.ipad = "c0ffee"
   /\ Device.udid (Client.createDevice Samples.reenrolled) = "decaf")
  /\ (Net.outcome (Samples.remote (Samples.serving (Samples.app 2 "notes")) true)
        (App.update Samples.noFraction
           (Client.createApp (Samples.app 1 "notes")))
      = (Client.createApp (Samples.app 2 "notes"), inr tt)
      /\ App.id (Client.createApp (Samples.app 1 "notes")) = JS.ofZ 1
      /\ App.id (Client.createApp (Samples.app 2 "notes")) = JS.ofZ 2).
Proof. repeat split. Qed.

Section GetApps.
Import Net API APIErrors.
Local Open Scope method_scope.
Variable shortest : Q -> string.

Lemma run_all2 {A B} (w : Remote) sent (p : Promise A) (q : Promise B) :
  run w sent (all2 p q)
  = (fst (run w (fst (run w sent p)) q),
     match snd (run w sent p), snd (run w (fst (run w sent p)) q) with
     | inr a, inr b => inr (a, b)
     | inl e, inr _ => inl e
     | inr _, inl e => inl e
     | inl e1, inl e2 =>
         inl (earlier w (fst (run w (fst (run w sent p)) q)) p q e1 e2)
     end).
Proof.
  unfold all2, earlier. rewrite !run_bind.
  destruct (snd (run w sent p)) as [e1|a];
    destruct (snd (run w (fst (run w sent p)) q)) as [e2|b];
    try reflexivity.
  destruct (suspends p); [|reflexivity].
  destruct (suspends q); reflexivity.
Qed.

Lemma run_getApps (w : Remote) (d : Device.t) :
  snd (run w [] (Device.getApps shortest d))
  = match snd (run w [] (all2 getApps (Device.detail shortest d))) with
    | inl e => (d, if recoverable e then inr [] else inl e)
    | inr (apps, myAppData) =>
        match DeviceDetail.apps myAppData with
        | None =>
            (d, inl (PlainError "Missing 'apps' property in returned apps"))
        | Some installed =>
            (d, inr (map Client.createApp
                       (filter (fun app =>
                                  existsb (String.eqb (AppData.bundleId app))
                                    (map InstalledApp.identifier installed))
                          apps)))
        end
    end.
Proof.
  unfold Device.getApps. rewrite mbind_this.
  fold (Device.udid d). fold (Device.detail shortest d).
  unfold mbind, attempt, call. rewrite !run_bind.
  destruct (snd (run w [] (all2 getApps (Device.detail shortest d)))) as [e|[apps myAppData]];
    cbn [snd fst run].
  - unfold suppressAPIError. destruct (recoverable e); reflexivity.
  - destruct (DeviceDetail.apps myAppData); reflexivity.
Qed.

(** C4, amended.  When one of the two calls of [getApps()] (the app-list
    fetch, the device-detail fetch with the apps included) fails with an
    APIError-class failure and the other call succeeds or fails with an
    APIError-class failure too, [getApps()] returns the empty array; when
    both calls succeed and the device detail has no field [apps],
    [getApps()] throws. *)
Theorem getApps_contract (w : Remote) (d : Device.t) :
  let appsFetch := run w [] getApps in
  let detailFetch := run w (fst appsFetch) (Device.detail shortest d) in
  (* the app-list fetch fails with a recoverable error, and the other call
     does not fail with a fatal one *)
  (forall e,
     snd appsFetch = inl e -> recoverable e = true ->
     (forall e', snd detailFetch = inl e' -> recoverable e' = true) ->
     outcome w (Device.getApps shortest d) = (d, inr []))
  (* the same for the device-detail fetch *)
  /\ (forall e,
        snd detailFetch = inl e -> recoverable e = true ->
        (forall e', snd appsFetch = inl e' -> recoverable e' = true) ->
        outcome w (Device.getApps shortest d) = (d, inr []))
  (* both calls succeed and the device has no 'apps' *)
  /\ (forall apps myAppData,
        snd appsFetch = inr apps -> snd detailFetch = inr myAppData ->
        DeviceDetail.apps myAppData = None ->
        outcome w (Device.getApps shortest d)
        = (d, inl (PlainError "Missing 'apps' property in returned apps")))
  /\ recoverable (PlainError "Missing 'apps' property in returned apps")
     = false.
Proof.
  intros appsFetch detailFetch. unfold outcome.
  rewrite run_getApps, run_all2. cbn [snd].
  fold appsFetch. fold detailFetch.
  split; [|split; [|split; [|reflexivity]]].
  - intros e H1 R1 H2. rewrite H1.
    destruct (snd detailFetch) as [e2|detail2].
    + specialize (H2 e2 eq_refl). unfold earlier.
      destruct (negb (suspends getApps)); [now rewrite R1|].
      destruct (negb (suspends (Device.detail shortest d))); [now rewrite H2|].
      destruct (firstSettles w (fst detailFetch)); [now rewrite R1|now rewrite H2].
    + now rewrite R1.
  - intros e H2 R2 H1. rewrite H2.
    destruct (snd appsFetch) as [e1|apps].
    + specialize (H1 e1 eq_refl). unfold earlier.
      destruct (negb (suspends getApps)); [now rewrite H1|].
      destruct (negb (suspends (Device.detail shortest d))); [now rewrite R2|].
      destruct (firstSettles w (fst detailFetch)); [now rewrite H1|now rewrite R2].
    + now rewrite R2.
  - intros apps myAppData H1 H2 Hnone. rewrite H1, H2, Hnone. reflexivity.
Qed.

End GetApps.

(** A remote service that is down, and one whose device detail lacks the
    apps. *)
Lemma getApps_contract_witness :
  (exists e,
     snd (Net.run (Samples.remote Samples.down true) [] API.getApps) = inl e
     /\ APIErrors.recoverable e = true)
  /\ Net.outcome (Samples.remote Samples.down true)
       (Device.getApps Samples.noFraction Samples.ipad)
     = (Samples.ipad, inr [])
  /\ Net.outcome (Samples.remote (Samples.inventory [] None) true)
       (Device.getApps Samples.noFraction Samples.ipad)
     = (Samples.ipad,
        inl (Net.PlainError "Missing 'apps' property in returned apps")).
Proof.
  split; [eexists; split; reflexivity|]. split.
  - apply (proj1 (getApps_contract Samples.noFraction
                    (Samples.remote Samples.down true) Samples.ipad)
             (Net.APIError 500 Net.GET "apps")).
    + reflexivity.
    + reflexivity.
    + intros e' H. inversion H. reflexivity.
  - apply (proj1 (proj2 (proj2 (getApps_contract Samples.noFraction
                    (Samples.remote (Samples.inventory [] None) true)
                    Samples.ipad)))
             [] {| Net.DeviceDetail.UDID := "c0ffee";
                   Net.DeviceDetail.apps := None |});
      reflexivity.
Defined.

(** The app-list fetch fails with a 500, and [getApps] still throws: the
    device-detail fetch was answered first, by a body that its schema
    rejects. *)
Lemma getApps_fatal_error_wins :
  snd (Net.run (Samples.remote Samples.halfBroken false) [] API.getApps)
  = inl (Net.APIError 500 Net.GET "apps")
  /\ APIErrors.recoverable (Net.APIError 500 Net.GET "apps") = true
  /\ Net.outcome (Samples.remote Samples.halfBroken false)
       (Device.getApps Samples.noFraction Samples.ipad)
     = (Samples.ipad, inl (Net.SchemaError Net.GET_devices_udid)).
Proof. repeat split. Qed.

Section RegionGetter.
Import Net.

(** C5.  [getRegion()] returns [null] when the region name is empty.
    When the name is not empty and the coordinate string is in the language
    of [coords], it returns the name with the latitude and the longitude
    parsed from the two captures: each is a double, and no double is nearer
    to the decimal that its capture denotes.  For ["12.34,-56.78"] these
    are the doubles 12.34 and -56.78.  When the name is not empty and the
    coordinate string is present but not in the language, it throws an
    assertion error. *)
Theorem getRegion_contract (d : Device.t) :
  let r := region (Device.data d) in
  (Region.string r = "" -> Device.getRegion d = inr None)
  /\ (forall coordinates lat lon,
        Region.string r <> "" ->
        Region.coordinates r = Some coordinates ->
        JS.Coords coordinates lat lon ->
        exists y x v w,
          Device.getRegion d
          = inr (Some {| Device.name := Region.string r;
                         Device.latitude := JS.Finite y;
                         Device.longitude := JS.Finite x |})
          /\ JS.Reads (JS.chars lat) v /\ JS.nearestDouble y v
          /\ JS.Reads (JS.chars lon) w /\ JS.nearestDouble x w)
  /\ (Region.string r <> "" ->
      Region.coordinates r = Some "12.34,-56.78" ->
      Device.getRegion d
      = inr (Some {| Device.name := Region.string r;
                     Device.latitude :=
                       JS.Finite (3473401212609495 # 281474976710656);
                     Device.longitude :=
                       JS.Finite (-1997768647203881 # 35184372088832) |})
      /\ JS.nearestDouble (3473401212609495 # 281474976710656) 12.34
      /\ JS.nearestDouble (-1997768647203881 # 35184372088832) (-56.78))
  /\ (forall coordinates,
        Region.string r <> "" ->
        Region.coordinates r = Some coordinates ->
        (forall lat lon, ~ JS.Coords coordinates lat lon) ->
        Device.getRegion d
        = inl (AssertionError "Unexpected coordinate format")).
Proof.
  intros r. unfold Device.getRegion. fold r.
  split; [|split; [|split]].
  - intros ->. reflexivity.
  - intros coordinates lat lon Hname Hc Hm.
    apply String.eqb_neq in Hname. rewrite Hname, Hc.
    destruct Hm as [Hs [Clat Clon]].
    assert (Hm : JS.matchCoords coordinates = Some (lat, lon))
      by (apply matchCoords_spec; repeat split; assumption).
    rewrite Hm.
    destruct (parseFloat_reads lat Clat) as [y [v [Ey [Rv Nv]]]].
    destruct (parseFloat_reads lon Clon) as [x [w [Ex [Rw Nw]]]].
    exists y, x, v, w. rewrite Ey, Ex.
    split; [reflexivity|]. split; [exact Rv|]. split; [exact Nv|].
    split; [exact Rw|exact Nw].
  - intros Hname Hc.
    apply String.eqb_neq in Hname. rewrite Hname, Hc.
    split; [reflexivity|].
    split.
    + destruct (toNumber_nearest 12.34) as [y [Ey Ny]].
      { right. split; apply Qle_bool_iff || apply Qlt_alt; reflexivity. }
      vm_compute in Ey. injection Ey as <-. exact Ny.
    + destruct (toNumber_nearest (-56.78)) as [y [Ey Ny]].
      { right. split; apply Qle_bool_iff || apply Qlt_alt; reflexivity. }
      vm_compute in Ey. injection Ey as <-. exact Ny.
  - intros coordinates Hname Hc Hno.
    apply String.eqb_neq in Hname. rewrite Hname, Hc.
    destruct (JS.matchCoords coordinates) as [[lat lon]|] eqn:Hm;
      [|reflexivity].
    apply matchCoords_spec in Hm. now destruct (Hno lat lon).
Qed.

(** C10.  When the region name is not empty and the snapshot has no
    coordinate string, [getRegion()] throws the assertion error of an
    unparseable coordinate string. *)
Theorem getRegion_without_coordinates (d : Device.t) :
  Region.string (region (Device.data d)) <> "" ->
  Region.coordinates (region (Device.data d)) = None ->
  Device.getRegion d = inl (AssertionError "Unexpected coordinate format").
Proof.
  intros Hname Hc. unfold Device.getRegion.
  apply String.eqb_neq in Hname. now rewrite Hname, Hc.
Qed.

End RegionGetter.

(** The region of the sample iPad. *)
Lemma getRegion_contract_witness :
  Net.Region.string (Net.region (Device.data Samples.ipad)) <> ""
  /\ Net.Region.coordinates (Net.region (Device.data Samples.ipad))
     = Some "12.34,-56.78"
  /\ Device.getRegion Samples.ipad
     = inr (Some {| Device.name := "Home";
                    Device.latitude :=
                      JS.Finite (3473401212609495 # 281474976710656);
                    Device.longitude :=
                      JS.Finite (-1997768647203881 # 35184372088832) |}).
Proof.
  assert (H : Net.Region.string (Net.region (Device.data Samples.ipad)) <> "")
    by discriminate.
  split; [exact H|]. split; [reflexivity|].
  exact (proj1 (proj1 (proj2 (proj2 (getRegion_contract Samples.ipad)))
                  H eq_refl)).
Defined.

(** A region name without coordinates. *)
Lemma getRegion_without_coordinates_witness :
  Net.Region.string (Net.region (Device.data Samples.uncharted)) <> ""
  /\ Net.Region.coordinates (Net.region (Device.data Samples.uncharted)) = None
  /\ Device.getRegion Samples.uncharted
     = inl (Net.AssertionError "Unexpected coordinate format").
Proof.
  assert (H : Net.Region.string (Net.region (Device.data Samples.uncharted))
              <> "") by discriminate.
  split; [exact H|]. split; [reflexivity|].
  exact (getRegion_without_coordinates Samples.uncharted H eq_refl).
Defined.

(* ===================================================================== *)
(** ** Further properties of the client *)
(* ===================================================================== *)

(** *** The transport hooks *)

Section Hooks.
Import Net API.

(** The hooks let a response through exactly when its status is 2xx. *)
Lemma afterResponse_none_iff (req : Request) (r : Route) (resp : Response r) :
  afterResponse req resp = None <-> (200 <= status resp <= 299)%Z.
Proof.
  unfold afterResponse, ok.
  destruct (status resp =? 405)%Z eqn:E405;
    [apply Z.eqb_eq in E405; rewrite E405; split; [discriminate|lia]|].
  destruct (status resp =? 401)%Z eqn:E401;
    [apply Z.eqb_eq in E401; rewrite E401; split; [discriminate|lia]|].
  destruct (200 <=? status resp)%Z eqn:Elo;
    [apply Z.leb_le in Elo|apply Z.leb_gt in Elo];
    (destruct (status resp <=? 299)%Z eqn:Ehi;
       [apply Z.leb_le in Ehi|apply Z.leb_gt in Ehi]);
    simpl; split; try discriminate; try lia; auto.
Qed.

(** X1.  The hooks let a response through exactly when its status is 2xx.
    A 405 becomes a PermissionError made of the method of the request and
    of the pathname of its URL: for a client whose prefix URL has the
    pathname [prefix], slash at the end included, that is [prefix] followed
    by the path of the request.  A 401 becomes an AuthError.  Each has
    precedence over the general case, in which every other status that is
    not 2xx becomes an APIError. *)
Theorem afterResponse_classification (req : Request) (r : Route)
    (resp : Response r) :
  (afterResponse req resp = None <-> (200 <= status resp <= 299)%Z)
  /\ (status resp = 405%Z ->
      exists endpoint,
        afterResponse req resp = Some (PermissionError (method req) endpoint)
        /\ forall prefix,
             pathnameUnder prefix endpoint = (prefix ++ path req)%string)
  /\ (status resp = 401%Z -> afterResponse req resp = Some AuthError)
  /\ (~ (200 <= status resp <= 299)%Z ->
      status resp <> 405%Z -> status resp <> 401%Z ->
      exists status method endpoint,
        afterResponse req resp = Some (APIError status method endpoint)).
Proof.
  split; [apply afterResponse_none_iff|].
  unfold afterResponse, ok.
  split; [|split].
  - intros H. rewrite H. cbn [Z.eqb Pos.eqb].
    exists (pathname req). split; reflexivity.
  - intros H. rewrite H. reflexivity.
  - intros Hok H405 H401.
    apply Z.eqb_neq in H405, H401. rewrite H405, H401.
    replace ((200 <=? status resp)%Z && (status resp <=? 299)%Z) with false.
    + cbn [negb]. eauto.
    + symmetry. apply andb_false_iff.
      destruct (Z_le_gt_dec 200 (status resp)) as [Hlo|Hlo].
      * right. apply Z.leb_gt. lia.
      * left. apply Z.leb_gt. lia.
Qed.

Lemma afterResponse_classification_witness :
  status (Build_Response PUT_devices_udid_owner 405 NotJSON) = 405%Z
  /\ exists endpoint,
       afterResponse
         {| method := PUT; path := "devices/c0ffee/owner";
            searchParams := None; body := None |}
         (Build_Response PUT_devices_udid_owner 405 NotJSON)
       = Some (PermissionError PUT endpoint)
       /\ forall prefix,
            pathnameUnder prefix endpoint
            = (prefix ++ "devices/c0ffee/owner")%string.
Proof.
  split; [reflexivity|].
  exact (proj1 (proj2 (afterResponse_classification
           {| method := PUT; path := "devices/c0ffee/owner";
              searchParams := None; body := None |}
           PUT_devices_udid_owner
           (Build_Response PUT_devices_udid_owner 405 NotJSON))) eq_refl).
Defined.

(** What an exchange yields is data only for a 2xx response whose body the
    validator of the route accepts. *)
Lemma answer_data (r : Route) (req : Request) (resp : Response r)
    (d : RouteData r) :
  answer r req resp = inr d
  <-> (200 <= status resp <= 299)%Z /\ payload resp = Accepted d.
Proof.
  pose proof (afterResponse_none_iff req r resp) as Hnone.
  unfold answer. destruct (afterResponse req resp) as [e|] eqn:E.
  - split; [discriminate|]. intros [H _]. apply Hnone in H. discriminate.
  - assert (Hok : (200 <= status resp <= 299)%Z) by now apply Hnone.
    destruct (payload resp) as [| |d']; split;
      try discriminate; try (intros [_ H]; discriminate).
    + intros H. inversion H. auto.
    + intros [_ H]. inversion H. reflexivity.
Qed.

Lemma run_exchange_field {A} (w : Remote) sent (r : Route) (req : Request)
    (f : RouteData r -> A) :
  run w sent
    (await (json r req)
       (fun data => await (assertValid r data) (fun data => resolve (f data))))
  = (sent ++ [req],
     match answer r req (respond w r sent req) with
     | inl e => inl e
     | inr d => inr (f d)
     end).
Proof.
  simpl. unfold answer.
  destruct (afterResponse req (respond w r sent req)); [reflexivity|].
  destruct (payload (respond w r sent req)); reflexivity.
Qed.

End Hooks.

Section ReadRoutes.
Import Net API.
Variable shortest : Q -> string.

(** The request of [getDevices]. *)
Lemma getDevices_shape options :
  exists req,
    firstRequest (getDevices shortest options) = Some req
    /\ method req = GET /\ path req = "devices" /\ body req = None
    /\ getDevices shortest options
       = await (json GET_devices req)
           (fun data => await (assertValid GET_devices data)
                          (fun data => resolve (devices data))).
Proof. eexists. repeat split. Qed.

(** X2.  [getDevices] returns a list of devices only when the response has
    a 2xx status and a body that the validator of [GET /devices] accepts,
    and the list is then the field [devices] of that body: no other
    response reaches the caller as data. *)
Theorem getDevices_only_validated (w : Remote) options req ds :
  firstRequest (getDevices shortest options) = Some req ->
  (outcome w (getDevices shortest options) = inr ds
   <-> (200 <= status (respond w GET_devices [] req) <= 299)%Z
       /\ exists data,
            payload (respond w GET_devices [] req) = Accepted data
            /\ devices data = ds).
Proof.
  destruct (getDevices_shape options) as [req' [Hreq [_ [_ [_ E]]]]].
  rewrite Hreq. intros H. inversion H; subst req'. clear H.
  unfold outcome. rewrite E.
  rewrite (run_exchange_field w [] GET_devices req devices). cbn [snd].
  destruct (answer GET_devices req (respond w GET_devices [] req))
    as [e|d] eqn:Ha.
  - split; [discriminate|]. intros [Hok [data [Hp _]]].
    assert (Hd : answer GET_devices req (respond w GET_devices [] req)
                 = inr data) by (apply answer_data; auto).
    congruence.
  - apply answer_data in Ha as [Hok Hp]. split.
    + intros H. inversion H. split; [exact Hok|]. exists d. auto.
    + intros [_ [data [Hp' Hd]]]. rewrite Hp in Hp'. inversion Hp'.
      subst. reflexivity.
Qed.

End ReadRoutes.

Lemma getDevices_only_validated_witness :
  Net.outcome (Samples.remote (Samples.listing [Samples.reenrolled]) true)
    (API.getDevices Samples.noFraction API.noOptions)
  = inr [Samples.reenrolled].
Proof.
  apply (proj2 (getDevices_only_validated Samples.noFraction
           (Samples.remote (Samples.listing [Samples.reenrolled]) true)
           API.noOptions
           {| Net.method := Net.GET; Net.path := "devices";
              Net.searchParams := None; Net.body := None |}
           [Samples.reenrolled] eq_refl)).
  split; [simpl; lia|].
  eexists. split; reflexivity.
Defined.

(** *** Queries and bodies of the API surface *)

Section Queries.
Import Net API.
Variable shortest : Q -> string.

(** An entry of a literal query object, by its key. *)
Ltac pick_entry H :=
  simpl in H;
  repeat (destruct H as [H|H]; [inversion H; subst; clear H|]);
  try contradiction.

(** An option that is set has its entry in the query object. *)
Ltac absent Hall key val :=
  exfalso;
  let C := fresh "C" in
  assert (C : JS.notNullish val = false)
    by (apply (Hall key); simpl; tauto);
  discriminate C.

(** X3.  The query of [getDevices].  There is no query string at all
    exactly when no option is set (an [includeApps] that is false counts as
    not set).  A boolean filter is sent as ["0"] or ["1"] under the key of
    the remote API, also when it is [false] ([isTrashed: false] is sent as
    [inTrash=0]); the serial number is sent as it is; and [includeApps] is
    sent as ["1"] when it is true and is left out when it is false.  In
    each case the query exists and holds the entry when the option is set,
    and holds no other entry under that key.  The request is a GET to
    [devices]. *)
Theorem getDevices_query (options : APIGetDevicesOptions) :
  exists req,
  firstRequest (getDevices shortest options) = Some req /\
  method req = GET /\ path req = "devices" /\
  let sent := fun key s =>
    exists entries, searchParams req = Some entries /\ In (key, s) entries in
  (searchParams req = None
   <-> groupIds options = None /\ ownerGroupIds options = None
       /\ isOwned options = None /\ ownerId options = None
       /\ ownerName options = None /\ isManaged options = None
       /\ modelIdentifier options = None /\ locationId options = None
       /\ isSupervised options = None /\ isTrashed options = None
       /\ assetTag options = None /\ serialNumber options = None
       /\ enrollmentType options = None /\ includeApps options <> Some true)
  /\ (forall s, sent "hasOwner" s
                <-> exists b, isOwned options = Some b
                              /\ s = if b then "1" else "0")
  /\ (forall s, sent "inTrash" s
                <-> exists b, isTrashed options = Some b
                              /\ s = if b then "1" else "0")
  /\ (forall s, sent "serialnumber" s <-> serialNumber options = Some s)
  /\ (forall s, sent "includeApps" s
                <-> includeApps options = Some true /\ s = "1").
Proof.
  eexists. split; [reflexivity|]. split; [reflexivity|].
  split; [reflexivity|]. intros sent.
  cbn [searchParams] in *.
  match goal with
  | |- (toSearchParams _ ?d = None <-> _) /\ _ => set (data := d) in *
  end.
  assert (Hsent : forall key s,
             sent key s
             <-> exists v, In (key, v) data /\ JS.notNullish v = true
                           /\ s = JS.String_ shortest (castBoolean v)).
  { intros key s. unfold sent. split.
    - intros [entries [E Hin]].
      now apply (toSearchParams_In shortest data entries key s E).
    - intros [v [Hin [Hv ->]]].
      destruct (toSearchParams shortest data) as [entries|] eqn:E.
      + exists entries. split; [reflexivity|].
        apply (toSearchParams_In shortest data entries key _ E). eauto.
      + pose proof (proj1 (toSearchParams_None shortest data) E _ _ Hin).
        congruence. }
  split; [|split; [|split; [|split]]].
  - rewrite toSearchParams_None. unfold data. split.
    + intros Hall.
      destruct (groupIds options) as [x1|];
        [absent Hall "groups" (joined shortest x1)|].
      destruct (ownerGroupIds options) as [x2|];
        [absent Hall "ownergroups" (joined shortest x2)|].
      destruct (isOwned options) as [x3|];
        [absent Hall "hasOwner" (JS.Bool x3)|].
      destruct (ownerId options) as [x4|];
        [absent Hall "owner" (JS.Num x4)|].
      destruct (ownerName options) as [x5|];
        [absent Hall "name" (JS.Str x5)|].
      destruct (isManaged options) as [x6|];
        [absent Hall "managed" (JS.Bool x6)|].
      destruct (modelIdentifier options) as [x7|];
        [absent Hall "model" (JS.Str x7)|].
      destruct (locationId options) as [x8|];
        [absent Hall "location" (JS.Num x8)|].
      destruct (isSupervised options) as [x9|];
        [absent Hall "supervised" (JS.Bool x9)|].
      destruct (isTrashed options) as [x10|];
        [absent Hall "inTrash" (JS.Bool x10)|].
      destruct (assetTag options) as [x11|];
        [absent Hall "assettag" (JS.Str x11)|].
      destruct (serialNumber options) as [x12|];
        [absent Hall "serialnumber" (JS.Str x12)|].
      destruct (enrollmentType options) as [x13|];
        [absent Hall "enrollType" (JS.Str x13)|].
      destruct (includeApps options) as [[|]|];
        [absent Hall "includeApps" (JS.Bool true)| |];
        repeat split; discriminate.
    + intros (H1 & H2 & H3 & H4 & H5 & H6 & H7 & H8 & H9 & H10 & H11 & H12
              & H13 & H14) key v Hin.
      rewrite H1, H2, H3, H4, H5, H6, H7, H8, H9, H10, H11, H12, H13 in Hin.
      destruct (includeApps options) as [[|]|]; [congruence| |];
        pick_entry Hin; reflexivity.
  - intros s. rewrite Hsent. unfold data. split.
    + intros [v [Hv [Hn ->]]]. pick_entry Hv.
      destruct (isOwned options) as [b|]; [|discriminate].
      exists b. split; [reflexivity|]. destruct b; reflexivity.
    + intros [b [Hb ->]]. exists (JS.Bool b). rewrite Hb.
      split; [simpl; tauto|]. split; [reflexivity|].
      destruct b; reflexivity.
  - intros s. rewrite Hsent. unfold data. split.
    + intros [v [Hv [Hn ->]]]. pick_entry Hv.
      destruct (isTrashed options) as [b|]; [|discriminate].
      exists b. split; [reflexivity|]. destruct b; reflexivity.
    + intros [b [Hb ->]]. exists (JS.Bool b). rewrite Hb.
      split; [simpl; tauto|]. split; [reflexivity|].
      destruct b; reflexivity.
  - intros s. rewrite Hsent. unfold data. split.
    + intros [v [Hv [Hn ->]]]. pick_entry Hv.
      destruct (serialNumber options) as [sn|]; [|discriminate].
      reflexivity.
    + intros Hs. exists (JS.Str s). rewrite Hs.
      split; [simpl; tauto|]. split; reflexivity.
  - intros s. rewrite Hsent. unfold data. split.
    + intros [v [Hv [Hn ->]]]. pick_entry Hv.
      destruct (includeApps options) as [[|]|]; try discriminate.
      split; reflexivity.
    + intros [Hi ->]. exists (JS.Bool true). rewrite Hi.
      split; [simpl; tauto|]. split; reflexivity.
Qed.

(** X4.  [toSearchParams] returns [undefined] exactly when every value of
    the object is [null] or [undefined], and never an empty set of
    parameters.  The parameters it returns have the keys of the values that
    are neither [null] nor [undefined], in the order of the object; a
    boolean is sent as ["1"] or ["0"] and a string as it is. *)
Theorem toSearchParams_keys (data : list (string * JS.value)) :
  (toSearchParams shortest data = None
   <-> forall key v, In (key, v) data -> JS.notNullish v = false)
  /\ toSearchParams shortest data <> Some []
  /\ forall entries,
       toSearchParams shortest data = Some entries ->
       map fst entries
       = map fst (filter (fun '(_, val) => JS.notNullish val) data)
       /\ (forall key b,
             In (key, JS.Bool b) data ->
             In (key, if b then "1" else "0") entries)
       /\ (forall key s, In (key, JS.Str s) data -> In (key, s) entries).
Proof.
  split; [apply toSearchParams_None|].
  split.
  - unfold toSearchParams. rewrite map_map.
    destruct (filter _ data) as [|[k v] rest]; simpl; discriminate.
  - intros entries H. split; [|split].
    + unfold toSearchParams in H. rewrite map_map in H.
      set (kept := filter _ data) in *.
      assert (E : entries
                  = map (fun '(key, val) =>
                           (key, JS.String_ shortest (castBoolean val))) kept).
      { destruct (map _ kept) eqn:Hm; [discriminate|].
        inversion H; subst. rewrite <- Hm. apply map_ext. now intros [k v]. }
      rewrite E, map_map. apply map_ext. now intros [k v].
    + intros key b Hin.
      apply (toSearchParams_In shortest data entries key _ H).
      exists (JS.Bool b). split; [exact Hin|]. split; [reflexivity|].
      destruct b; reflexivity.
    + intros key s Hin.
      apply (toSearchParams_In shortest data entries key _ H).
      exists (JS.Str s). split; [exact Hin|]. split; reflexivity.
Qed.

(** X5.  [getApp] with a valid ID sends one GET to [apps/<id>]: the ID is
    a whole number from 0 to [MAX_SAFE_INTEGER], and the path ends in its
    decimal numeral, whatever the printer of the other numbers is.  With an
    ID that is not valid it throws and sends nothing. *)
Theorem getApp_request (id : JS.number) :
  (isValidID id = false ->
   getApp shortest id
   = throw (AssertionError "Invalid ID: must be a positive integer."))
  /\ (isValidID id = true ->
      exists z,
        (0 <= z <= JS.MAX_SAFE_INTEGER)%Z
        /\ JS.strictEquals id (JS.ofZ z) = true
        /\ forall w,
             requests w (getApp shortest id)
             = [ {| method := GET; path := "apps/" ++ JS.decimal z;
                    searchParams := None; body := None |} ]).
Proof.
  split.
  - intros H. unfold getApp, assertValidID. now rewrite H.
  - intros H.
    destruct (proj1 (isValidID_spec id) H) as [q [z [-> [Hq Hz]]]].
    exists z. split; [exact Hz|]. split.
    { unfold JS.strictEquals, JS.ofZ. now apply Qeq_bool_iff. }
    intros w.
    unfold getApp, assertValidID. rewrite H.
    assert (Hs : JS.Number_toString shortest (JS.Finite q) = JS.decimal z).
    { unfold Qeq in Hq. simpl in Hq. rewrite Z.mul_1_r in Hq.
      unfold JS.Number_toString, JS.isIntegral, JS.integerValue.
      rewrite Hq, Z.mod_mul, Z.div_mul by lia.
      rewrite Z.eqb_refl.
      replace (Z.abs z <? 10 ^ 21)%Z with true; [reflexivity|].
      symmetry. apply Z.ltb_lt. unfold JS.MAX_SAFE_INTEGER in Hz. lia. }
    rewrite Hs.
    apply (requests_exchange w GET_apps_id).
Qed.

End Queries.

Lemma getDevices_query_witness :
  exists req,
    Net.firstRequest
      (API.getDevices Samples.noFraction
         (Device.bySerialNumber "F9FXH0")) = Some req
    /\ exists entries,
         Net.searchParams req = Some entries
         /\ In ("serialnumber", "F9FXH0") entries.
Proof.
  destruct (getDevices_query Samples.noFraction
              (Device.bySerialNumber "F9FXH0"))
    as [req [Hreq [_ [_ [_ [_ [_ [Hserial _]]]]]]]].
  exists req. split; [exact Hreq|].
  exact (proj2 (Hserial "F9FXH0") eq_refl).
Defined.

Lemma toSearchParams_keys_witness :
  API.toSearchParams Samples.noFraction
    [("a", JS.Null); ("b", JS.Bool true); ("c", JS.Str "x")]
  = Some [("b", "1"); ("c", "x")]
  /\ map fst [("b", "1"); ("c", "x")] = ["b"; "c"]
  /\ In ("b", "1") [("b", "1"); ("c", "x")].
Proof.
  split; [reflexivity|].
  pose proof (proj2 (proj2 (toSearchParams_keys Samples.noFraction
                [("a", JS.Null); ("b", JS.Bool true); ("c", JS.Str "x")]))
                _ eq_refl) as [Hkeys [Hbool _]].
  split; [exact Hkeys|].
  exact (Hbool "b" true (or_intror (or_introl eq_refl))).
Defined.

Lemma getApp_request_witness :
  API.isValidID (JS.ofZ 12) = true
  /\ exists z,
       (0 <= z <= JS.MAX_SAFE_INTEGER)%Z
       /\ JS.strictEquals (JS.ofZ 12) (JS.ofZ z) = true
       /\ forall w,
            Net.requests w (API.getApp Samples.noFraction (JS.ofZ 12))
            = [ {| Net.method := Net.GET;
                   Net.path := "apps/" ++ JS.decimal z;
                   Net.searchParams := None; Net.body := None |} ].
Proof.
  split; [reflexivity|].
  exact (proj2 (getApp_request Samples.noFraction (JS.ofZ 12)) eq_refl).
Defined.

(** *** Validation before the request *)

Section Validation.
Import Net API.

(** X6.  [moveDevice] with a valid UDID and a valid location ID sends one
    PUT to [devices/<udid>/migrate].  Its body has the location ID and, when
    the option is omitted, no key [onlyDevice]; when the option is given,
    the key carries it, [false] included. *)
Theorem moveDevice_body (udid : string) (q : Q)
    (options : option APIMoveDeviceOptions) :
  isValidUDID udid = true ->
  isValidID (JS.Finite q) = true ->
  forall w,
    requests w (moveDevice udid (JS.Finite q) options)
    = [ {| method := PUT;
           path := "devices/" ++ udid ++ "/migrate";
           searchParams := None;
           body :=
             Some (JS.JObject
                     (("locationId", JS.JNumber q)
                      :: match options with
                         | Some {| onlyDevice := Some b |} =>
                             [("onlyDevice", JS.JBool b)]
                         | _ => []
                         end)) |} ].
Proof.
  intros Hu Hi w. rewrite (moveDevice_sends _ _ options Hu Hi).
  rewrite (requests_exchange w PUT_devices_udid_migrate).
  destruct options as [[[b|]]|]; reflexivity.
Qed.

Lemma moveDevice_body_witness :
  isValidUDID "c0ffee" = true
  /\ isValidID (JS.Finite 0) = true
  /\ forall w,
       requests w (moveDevice "c0ffee" (JS.Finite 0) None)
       = [ {| method := PUT;
              path := "devices/c0ffee/migrate";
              searchParams := None;
              body := Some (JS.JObject [("locationId", JS.JNumber 0)]) |} ].
Proof.
  split; [reflexivity|]. split; [reflexivity|].
  exact (moveDevice_body "c0ffee" 0 None eq_refl eq_refl).
Defined.

(** The first element of a list that is no valid UDID. *)
Lemma forEach_first_invalid (devices : list string) (u : string) :
  find (fun v => negb (isValidUDID v)) devices = Some u ->
  forEach assertValidUDID devices
  = throw (AssertionError ("Invalid UDID: " ++ u)).
Proof.
  induction devices as [|v rest IH]; [discriminate|].
  simpl. unfold assertValidUDID at 1.
  destruct (isValidUDID v) eqn:Hv; simpl.
  - exact IH.
  - intros H. inversion H; subst. reflexivity.
Qed.

(** X7.  The order of the checks of [moveDevices]: a location ID that is
    not valid is reported whatever the list is; then an empty list and a
    list of more than 20; and among the UDIDs the first that is not valid,
    in the order of the list, is the one reported.  Nothing is sent in any
    of these cases. *)
Theorem moveDevices_error_precedence (devices : list string)
    (locationId : JS.number) (options : option APIMoveDevicesOptions) :
  (isValidID locationId = false ->
   moveDevices devices locationId options
   = throw (AssertionError "Invalid ID: must be a positive integer."))
  /\ (isValidID locationId = true ->
      (devices = [] \/ (20 < List.length devices)%nat) ->
      moveDevices devices locationId options = throw (AssertionError ""))
  /\ (forall u,
        isValidID locationId = true ->
        (1 <= List.length devices <= 20)%nat ->
        find (fun v => negb (isValidUDID v)) devices = Some u ->
        moveDevices devices locationId options
        = throw (AssertionError ("Invalid UDID: " ++ u))).
Proof.
  unfold moveDevices, assertValidID. split; [|split].
  - intros ->. reflexivity.
  - intros -> [->|Hlen]; [reflexivity|].
    replace (0 <? List.length devices)%nat with true
      by (symmetry; apply Nat.ltb_lt; lia).
    replace (List.length devices <=? 20)%nat with false
      by (symmetry; apply Nat.leb_gt; lia).
    reflexivity.
  - intros u -> [Hlo Hhi] Hfind.
    replace (0 <? List.length devices)%nat with true
      by (symmetry; apply Nat.ltb_lt; lia).
    replace (List.length devices <=? 20)%nat with true
      by (symmetry; apply Nat.leb_le; lia).
    rewrite !assert_true. cbn -[forEach].
    rewrite (forEach_first_invalid _ _ Hfind). reflexivity.
Qed.

Lemma moveDevices_error_precedence_witness :
  isValidID (JS.ofZ 0) = true
  /\ (1 <= List.length ["c0ffee"; "no"; "c0de"; "nope"] <= 20)%nat
  /\ moveDevices ["c0ffee"; "no"; "c0de"; "nope"] (JS.ofZ 0) None
     = throw (AssertionError "Invalid UDID: no")
  /\ moveDevices [] (JS.ofZ (-1)) None
     = throw (AssertionError "Invalid ID: must be a positive integer.").
Proof.
  split; [reflexivity|]. split; [simpl; lia|]. split.
  - apply (proj2 (proj2 (moveDevices_error_precedence
             ["c0ffee"; "no"; "c0de"; "nope"] (JS.ofZ 0) None))).
    + reflexivity.
    + simpl; lia.
    + reflexivity.
  - apply (proj1 (moveDevices_error_precedence [] (JS.ofZ (-1)) None)).
    reflexivity.
Defined.

(** X8.  In [setDeviceOwner] and [moveDevice] the UDID is checked before
    the ID: with a UDID that is not valid the error names the UDID, whatever
    the ID is; with a valid UDID and an ID that is not valid the error is
    the one of the ID.  Nothing is sent in either case. *)
Theorem udid_checked_before_id (udid : string) (id : JS.number)
    (options : option APIMoveDeviceOptions) :
  (isValidUDID udid = false ->
   setDeviceOwner udid id = throw (AssertionError ("Invalid UDID: " ++ udid))
   /\ moveDevice udid id options
      = throw (AssertionError ("Invalid UDID: " ++ udid)))
  /\ (isValidUDID udid = true -> isValidID id = false ->
      setDeviceOwner udid id
      = throw (AssertionError "Invalid ID: must be a positive integer.")
      /\ moveDevice udid id options
         = throw (AssertionError "Invalid ID: must be a positive integer.")).
Proof.
  unfold setDeviceOwner, moveDevice, assertValidUDID, assertValidID.
  split.
  - intros ->. split; reflexivity.
  - intros -> ->. split; reflexivity.
Qed.

Lemma udid_checked_before_id_witness :
  isValidUDID "no" = false
  /\ setDeviceOwner "no" (JS.ofZ (-1))
     = throw (AssertionError "Invalid UDID: no").
Proof.
  split; [reflexivity|].
  exact (proj1 (proj1 (udid_checked_before_id "no" (JS.ofZ (-1)) None)
                  eq_refl)).
Defined.

Lemma udid_char_is_path_safe (c : ascii) :
  isUDIDChar c = true ->
  c <> "/"%char /\ c <> "?"%char /\ c <> "#"%char /\ c <> "."%char
  /\ c <> "%"%char /\ c <> " "%char.
Proof.
  destruct c as [[] [] [] [] [] [] [] []]; vm_compute; intros H;
    try discriminate H; repeat split; discriminate.
Qed.

(** X9.  A valid UDID has no character that means something in a URL: no
    slash, question mark, hash, dot, percent sign or blank.  The path that a
    method builds from a valid UDID therefore has the segments the method
    wrote, and no query. *)
Theorem valid_UDID_is_path_safe (udid : string) :
  isValidUDID udid = true ->
  forall c, In c (JS.chars udid) ->
    c <> "/"%char /\ c <> "?"%char /\ c <> "#"%char /\ c <> "."%char
    /\ c <> "%"%char /\ c <> " "%char.
Proof.
  intros H c Hc. apply isValidUDID_spec in H as [_ H].
  rewrite Forall_forall in H. apply udid_char_is_path_safe. now apply H.
Qed.

Lemma valid_UDID_is_path_safe_witness :
  isValidUDID "00008020-000D6C2A1A88002E" = true
  /\ In "-"%char (JS.chars "00008020-000D6C2A1A88002E")
  /\ "-"%char <> "/"%char.
Proof.
  split; [reflexivity|]. split; [simpl; tauto|].
  exact (proj1 (valid_UDID_is_path_safe "00008020-000D6C2A1A88002E" eq_refl
                  "-"%char ltac:(simpl; tauto))).
Defined.

End Validation.

(** *** Writes of a [Device] *)

Section Writes.
Import Net API.
Local Open Scope method_scope.

Lemma run_mbind {S A B} (w : Remote) sent (m : Stateful S A)
    (f : A -> Stateful S B) (s : S) :
  run w sent ((x <- m ;; f x) s)
  = match snd (run w sent (m s)) with
    | (s1, inl e) => (fst (run w sent (m s)), (s1, inl e))
    | (s1, inr a) => run w (fst (run w sent (m s))) (f a s1)
    end.
Proof.
  unfold mbind. rewrite run_bind.
  destruct (snd (run w sent (m s))) as [s1 [e|a]]; reflexivity.
Qed.

Lemma setDeviceOwner_rejects udid userId :
  isValidUDID udid && isValidID userId = false ->
  exists e, setDeviceOwner udid userId = throw e.
Proof.
  intros H. unfold setDeviceOwner, assertValidUDID, assertValidID.
  destruct (isValidUDID udid); [|eexists; reflexivity].
  destruct (isValidID userId); [discriminate|eexists; reflexivity].
Qed.

Lemma run_setDeviceOwner w sent udid userId :
  fst (run w sent (setDeviceOwner udid userId))
  = sent ++ (if isValidUDID udid && isValidID userId
             then [ {| method := PUT;
                       path := "devices/" ++ udid ++ "/owner";
                       searchParams := None;
                       body := JS.stringify
                                 (JS.Obj [("user", JS.Num userId)]) |} ]
             else []).
Proof.
  destruct (isValidUDID udid && isValidID userId) eqn:H.
  - apply andb_true_iff in H as [Hu Hi].
    rewrite (setDeviceOwner_sends _ _ Hu Hi).
    now rewrite (run_json_assertValid w sent PUT_devices_udid_owner).
  - destruct (setDeviceOwner_rejects _ _ H) as [e ->]. simpl.
    now rewrite app_nil_r.
Qed.

Lemma run_updateDevice w sent udid data :
  fst (run w sent (updateDevice udid data))
  = sent ++ (if isValidUDID udid
             then [ {| method := POST;
                       path := "devices/" ++ udid ++ "/details";
                       searchParams := None;
                       body := JS.stringify data |} ]
             else []).
Proof.
  destruct (isValidUDID udid) eqn:Hu.
  - rewrite (updateDevice_sends _ _ Hu).
    now rewrite (run_json_assertValid w sent POST_devices_udid_details).
  - rewrite (updateDevice_rejects _ _ Hu). simpl. now rewrite app_nil_r.
Qed.

Lemma run_moveDevice w sent udid locationId options :
  fst (run w sent (moveDevice udid locationId options))
  = sent ++ (if isValidUDID udid && isValidID locationId
             then [ {| method := PUT;
                       path := "devices/" ++ udid ++ "/migrate";
                       searchParams := None;
                       body := JS.stringify
                                 (JS.Obj [("locationId", JS.Num locationId);
                                          ("onlyDevice",
                                           onlyDeviceOf options)]) |} ]
             else []).
Proof.
  destruct (isValidUDID udid && isValidID locationId) eqn:H.
  - apply andb_true_iff in H as [Hu Hi].
    rewrite (moveDevice_sends _ _ _ Hu Hi).
    now rewrite (run_json_assertValid w sent PUT_devices_udid_migrate).
  - destruct (moveDevice_rejects _ _ options H) as [e ->]. simpl.
    now rewrite app_nil_r.
Qed.

(** [setOwner], by its two tests. *)
Lemma setOwner_cases (user : Device.HasId) (d : Device.t) :
  Device.setOwner user d
  = if JS.strictEquals (Device.id user) (JS.ofZ 0) then
      Ret (d, inl (AssertionError
        "Using ID 0 would remove the owner. If this is intentional, use `Device.removeOwner()`"))
    else if JS.strictEquals (Device.ownerId d) (Device.id user) then
      Ret (d, inr tt)
    else
      (call (setDeviceOwner (Device.udid d) (Device.id user)) ;; mret tt) d.
Proof.
  unfold Device.setOwner. rewrite mbind_this.
  unfold Device.ownerId, Device.udid.
  destruct (JS.strictEquals (Device.id user) (JS.ofZ 0)); [reflexivity|].
  destruct (JS.strictEquals (Owner.id (owner (Device.data d)))
              (Device.id user)); reflexivity.
Qed.

(** X10.  [setOwner] with a user whose id is not 0: when the id is the
    owner id of the snapshot nothing is sent; when it differs, one PUT to
    [devices/<udid>/owner] with the body [{user: id}] is sent if the UDID
    of the snapshot and the id are valid, and nothing otherwise.  The
    snapshot is never changed, the owner of the snapshot included. *)
Theorem setOwner_contract (d : Device.t) (user : Device.HasId) (w : Remote) :
  JS.strictEquals (Device.id user) (JS.ofZ 0) = false ->
  (JS.strictEquals (Device.ownerId d) (Device.id user) = true ->
   requests w (Device.setOwner user d) = []
   /\ outcome w (Device.setOwner user d) = (d, inr tt))
  /\ (JS.strictEquals (Device.ownerId d) (Device.id user) = false ->
      requests w (Device.setOwner user d)
      = (if isValidUDID (Device.udid d) && isValidID (Device.id user)
         then [ {| method := PUT;
                   path := "devices/" ++ Device.udid d ++ "/owner";
                   searchParams := None;
                   body := JS.stringify
                             (JS.Obj [("user", JS.Num (Device.id user))]) |} ]
         else [])
      /\ fst (outcome w (Device.setOwner user d)) = d).
Proof.
  intros H0. rewrite setOwner_cases, H0. split.
  - intros ->. split; reflexivity.
  - intros ->. unfold requests, outcome. rewrite run_call_then.
    cbn [fst snd]. split; [|reflexivity].
    now rewrite run_setDeviceOwner.
Qed.

Lemma setOwner_contract_witness :
  JS.strictEquals (Device.id {| Device.id := JS.ofZ 9 |}) (JS.ofZ 0) = false
  /\ JS.strictEquals (Device.ownerId Samples.ipad)
       (Device.id {| Device.id := JS.ofZ 9 |}) = false
  /\ requests (Samples.remote Samples.acknowledging true)
       (Device.setOwner {| Device.id := JS.ofZ 9 |} Samples.ipad)
     = [ {| method := PUT;
            path := "devices/c0ffee/owner";
            searchParams := None;
            body := Some (JS.JObject [("user", JS.JNumber 9)]) |} ].
Proof.
  split; [reflexivity|]. split; [reflexivity|].
  exact (proj1 (proj2 (setOwner_contract Samples.ipad
           {| Device.id := JS.ofZ 9 |}
           (Samples.remote Samples.acknowledging true) eq_refl) eq_refl)).
Defined.

(** One write leaves the snapshot as it was and sends at most one
    request. *)
Lemma perform_run (write : Mutation.Write) (w : Remote) sent (d : Device.t) :
  fst (snd (run w sent (Mutation.perform write d))) = d
  /\ (fst (run w sent (Mutation.perform write d)) = sent
      \/ exists req,
           fst (run w sent (Mutation.perform write d)) = sent ++ [req]).
Proof.
  assert (one : forall (l : list Request) (b : bool) (req : Request),
             sent ++ (if b then [req] else []) = l ->
             l = sent \/ exists req', l = sent ++ [req']).
  { intros l [|] req <-; [right; eauto|left; apply app_nil_r]. }
  destruct write as [user| |text|text|location]; simpl.
  - rewrite setOwner_cases.
    destruct (JS.strictEquals (Device.id user) (JS.ofZ 0));
      [simpl; auto|].
    destruct (JS.strictEquals (Device.ownerId d) (Device.id user));
      [simpl; auto|].
    rewrite run_call_then. cbn [fst snd]. split; [reflexivity|].
    eapply one. symmetry. apply run_setDeviceOwner.
  - unfold Device.removeOwner. rewrite mbind_this.
    destruct (negb _); [|simpl; auto].
    rewrite run_call_then. cbn [fst snd]. split; [reflexivity|].
    eapply one. symmetry. apply run_setDeviceOwner.
  - unfold Device.setAssetTag. rewrite mbind_this.
    destruct (negb _); [|simpl; auto].
    rewrite run_call_then. cbn [fst snd]. split; [reflexivity|].
    eapply one. symmetry. apply run_updateDevice.
  - unfold Device.setNotes. rewrite mbind_this.
    destruct (negb _); [|simpl; auto].
    rewrite run_call_then. cbn [fst snd]. split; [reflexivity|].
    eapply one. symmetry. apply run_updateDevice.
  - unfold Device.setLocation. rewrite mbind_this.
    destruct (negb _); [|simpl; auto].
    rewrite run_call_then. cbn [fst snd]. split; [reflexivity|].
    eapply one. symmetry. apply run_moveDevice.
Qed.

Lemma performAll_run (writes : list Mutation.Write) (w : Remote)
    (d : Device.t) :
  forall sent,
    fst (snd (run w sent (Mutation.performAll writes d))) = d
    /\ (List.length (fst (run w sent (Mutation.performAll writes d)))
        <= List.length sent + List.length writes)%nat.
Proof.
  induction writes as [|write rest IH]; intros sent.
  - simpl. split; [reflexivity|lia].
  - cbn [Mutation.performAll]. rewrite run_mbind.
    destruct (perform_run write w sent d) as [Hs Hr].
    destruct (run w sent (Mutation.perform write d)) as [sent1 [d1 r]].
    cbn [fst snd] in *. subst d1.
    assert (Hlen : (List.length sent1 <= List.length sent + 1)%nat).
    { destruct Hr as [->|[req ->]]; [lia|].
      rewrite length_app. simpl. lia. }
    destruct r as [e|[]].
    + cbn [fst snd]. split; [reflexivity|]. simpl. lia.
    + destruct (IH sent1) as [IHs IHl]. split; [exact IHs|].
      simpl. lia.
Qed.

(** X11.  Whatever writes of a device are awaited one after the other
    ([setOwner], [removeOwner], [setAssetTag], [setNotes], [setLocation]),
    and whatever the remote service answers, the snapshot of the device at
    the end is the snapshot at the start, and at most one request was sent
    for each write. *)
Theorem writes_leave_snapshot (writes : list Mutation.Write) (w : Remote)
    (d : Device.t) :
  fst (outcome w (Mutation.performAll writes d)) = d
  /\ (List.length (requests w (Mutation.performAll writes d))
      <= List.length writes)%nat.
Proof.
  unfold outcome, requests.
  destruct (performAll_run writes w d []) as [Hs Hl]. split; auto.
Qed.

(** X12.  The write of a setter is not remembered: when [setAssetTag(text)]
    succeeded and is called again with the same text before any
    [update()], the same request is sent a second time. *)
Theorem setter_repeats_write (d : Device.t) (text : string) (w : Remote) :
  Device.assetTag d <> text ->
  isValidUDID (Device.udid d) = true ->
  snd (outcome w (Device.setAssetTag text d)) = inr tt ->
  requests w ((Device.setAssetTag text ;; Device.setAssetTag text) d)
  = [ {| method := POST;
         path := "devices/" ++ Device.udid d ++ "/details";
         searchParams := None;
         body := Some (JS.JObject [("assetTag", JS.JString text)]) |};
      {| method := POST;
         path := "devices/" ++ Device.udid d ++ "/details";
         searchParams := None;
         body := Some (JS.JObject [("assetTag", JS.JString text)]) |} ].
Proof.
  intros Hne Hu Hok. unfold requests, outcome in *.
  rewrite run_mbind.
  rewrite (setAssetTag_other _ _ Hne) in *.
  rewrite run_call_then in *. cbn [fst snd] in *.
  destruct (snd (run w [] (updateDevice (Device.udid d)
                             (JS.Obj [("assetTag", JS.Str text)]))))
    as [e|j]; [discriminate|].
  rewrite (setAssetTag_other _ _ Hne), run_call_then. cbn [fst].
  rewrite !run_updateDevice, Hu. reflexivity.
Qed.

Lemma setter_repeats_write_witness :
  Device.assetTag Samples.ipad <> "B-2"
  /\ isValidUDID (Device.udid Samples.ipad) = true
  /\ snd (outcome (Samples.remote Samples.acknowledging true)
            (Device.setAssetTag "B-2" Samples.ipad)) = inr tt
  /\ List.length
       (requests (Samples.remote Samples.acknowledging true)
          ((Device.setAssetTag "B-2" ;; Device.setAssetTag "B-2")
             Samples.ipad)) = 2%nat.
Proof.
  assert (H : Device.assetTag Samples.ipad <> "B-2") by discriminate.
  split; [exact H|]. split; [reflexivity|]. split; [reflexivity|].
  rewrite (setter_repeats_write Samples.ipad "B-2"
             (Samples.remote Samples.acknowledging true) H eq_refl eq_refl).
  reflexivity.
Defined.

End Writes.

(** *** Reads of a [Device] and of an [App] *)

Section Reads.
Import Net API APIErrors.
Local Open Scope method_scope.
Variable shortest : Q -> string.

(** X13.  [update()] of a device sends exactly one request, whatever the
    answer is: a GET to [devices] whose query is the serial number of the
    snapshot and nothing else. *)
Theorem update_request (w : Remote) (d : Device.t) :
  requests w (Device.update shortest d)
  = [ {| method := GET;
         path := "devices";
         searchParams := Some [("serialnumber", Device.serialNumber d)];
         body := None |} ].
Proof.
  unfold requests. rewrite run_update. cbn [fst].
  unfold Device.lookup.
  destruct (getDevices_shape shortest
              (Device.bySerialNumber (Device.serialNumber d)))
    as [req [Hreq [_ [_ [_ E]]]]].
  rewrite E, (run_exchange_field w [] GET_devices req devices). cbn [fst].
  simpl in Hreq. inversion Hreq. reflexivity.
Qed.

(** The requests of [getApps]. *)
Lemma run_getApps_requests (w : Remote) (d : Device.t) :
  fst (run w [] (Device.getApps shortest d))
  = fst (run w [] (all2 getApps (Device.detail shortest d))).
Proof.
  unfold Device.getApps. rewrite mbind_this.
  fold (Device.udid d). fold (Device.detail shortest d).
  unfold mbind, attempt, call. rewrite !run_bind.
  destruct (snd (run w [] (all2 getApps (Device.detail shortest d))))
    as [e|[apps myAppData]]; cbn [snd fst run].
  - unfold suppressAPIError. destruct (recoverable e); reflexivity.
  - destruct (DeviceDetail.apps myAppData); reflexivity.
Qed.

Lemma run_detail (w : Remote) sent (d : Device.t) :
  fst (run w sent (Device.detail shortest d))
  = sent ++ (if isValidUDID (Device.udid d)
             then [ {| method := GET;
                       path := "devices/" ++ Device.udid d;
                       searchParams := Some [("includeApps", "true")];
                       body := None |} ]
             else []).
Proof.
  unfold Device.detail.
  destruct (isValidUDID (Device.udid d)) eqn:Hu.
  - assert (E : getDevice shortest (Device.udid d)
                  {| getDevice_includeApps := Some true |}
                = await (json GET_devices_udid
                           {| method := GET;
                              path := "devices/" ++ Device.udid d;
                              searchParams := Some [("includeApps", "true")];
                              body := None |})
                    (fun data =>
                       await (assertValid GET_devices_udid data)
                         (fun data => resolve (device data)))).
    { unfold getDevice, assertValidUDID. rewrite Hu. reflexivity. }
    rewrite E, (run_exchange_field w sent GET_devices_udid _ device).
    reflexivity.
  - unfold getDevice, assertValidUDID. rewrite Hu. simpl.
    now rewrite app_nil_r.
Qed.

(** X14.  [getApps()] of a device always asks for the list of apps, and,
    when the UDID of the snapshot is valid, for the device with its apps
    ([includeApps=true]); it sends nothing else, whatever the answers are,
    and it never changes the snapshot. *)
Theorem getApps_requests (w : Remote) (d : Device.t) :
  requests w (Device.getApps shortest d)
  = {| method := GET; path := "apps"; searchParams := None; body := None |}
    :: (if isValidUDID (Device.udid d)
        then [ {| method := GET;
                  path := "devices/" ++ Device.udid d;
                  searchParams := Some [("includeApps", "true")];
                  body := None |} ]
        else [])
  /\ fst (outcome w (Device.getApps shortest d)) = d.
Proof.
  unfold requests, outcome. split.
  - rewrite run_getApps_requests, run_all2. cbn [fst].
    rewrite run_detail.
    unfold getApps at 1.
    rewrite (run_exchange_field w [] GET_apps _ apps_). reflexivity.
  - rewrite run_getApps.
    destruct (snd (run w [] (all2 getApps (Device.detail shortest d))))
      as [e|[apps myAppData]].
    + reflexivity.
    + destruct (DeviceDetail.apps myAppData); reflexivity.
Qed.

(** X15.  When both calls of [getApps()] succeed and the device comes with
    its installed apps, the result holds exactly the apps of the list whose
    bundle ID is the identifier of an installed app, each as often and in
    the order in which the list has it. *)
Theorem getApps_result (w : Remote) (d : Device.t)
    (apps : list AppData.t) (myAppData : DeviceDetail.t)
    (installed : list InstalledApp.t) :
  let appsFetch := run w [] getApps in
  let detailFetch := run w (fst appsFetch) (Device.detail shortest d) in
  snd appsFetch = inr apps ->
  snd detailFetch = inr myAppData ->
  DeviceDetail.apps myAppData = Some installed ->
  exists result,
    outcome w (Device.getApps shortest d) = (d, inr result)
    /\ (forall a,
          In a result
          <-> In (Client.appData a) apps
              /\ exists i, In i installed
                   /\ InstalledApp.identifier i
                      = AppData.bundleId (Client.appData a))
    /\ (installed = [] -> result = [])
    /\ exists keep, map Client.appData result = filter keep apps.
Proof.
  intros appsFetch detailFetch H1 H2 H3. unfold outcome.
  rewrite run_getApps, run_all2. cbn [snd].
  fold appsFetch. fold detailFetch. rewrite H1, H2, H3.
  eexists. split; [reflexivity|]. split; [|split].
  - intros [a]. rewrite in_map_iff. cbn [Client.appData]. split.
    + intros [x [Hx Hin]]. inversion Hx; subst x.
      apply filter_In in Hin as [Hin Hex].
      split; [exact Hin|].
      apply existsb_exists in Hex as [s [Hs Heq]].
      apply in_map_iff in Hs as [i [<- Hi]].
      apply String.eqb_eq in Heq. eauto.
    + intros [Hin [i [Hi Heq]]]. exists a. split; [reflexivity|].
      apply filter_In. split; [exact Hin|].
      apply existsb_exists. exists (InstalledApp.identifier i).
      split; [now apply in_map|]. apply String.eqb_eq. auto.
  - intros ->. simpl. clear H1.
    induction apps as [|x rest IH]; [reflexivity|exact IH].
  - eexists. rewrite map_map. cbn [Client.appData]. now rewrite map_id.
Qed.

(** [App.update], by the result of the fetch. *)
Lemma run_App_update (w : Remote) (a : App.t) :
  run w [] (App.update shortest a)
  = (fst (run w [] (getApp shortest (App.id a))),
     match snd (run w [] (getApp shortest (App.id a))) with
     | inl e => (a, inl e)
     | inr fetched => (Client.createApp fetched, inr tt)
     end).
Proof.
  unfold App.update. rewrite mbind_this, run_mbind_call.
  fold (App.id a).
  destruct (run w [] (getApp shortest (App.id a))) as [sent [e|fetched]];
    reflexivity.
Qed.

(** X16.  [update()] of an app replaces the snapshot by the record that
    [getApp] returns, and leaves it as it was when [getApp] fails; with an
    id that is no valid ID it throws without any request. *)
Theorem App_update_atomic (w : Remote) (a : App.t) :
  (forall e,
     outcome w (getApp shortest (App.id a)) = inl e ->
     outcome w (App.update shortest a) = (a, inl e))
  /\ (forall fetched,
        outcome w (getApp shortest (App.id a)) = inr fetched ->
        outcome w (App.update shortest a)
        = (Client.createApp fetched, inr tt))
  /\ (isValidID (App.id a) = false ->
      requests w (App.update shortest a) = []
      /\ outcome w (App.update shortest a)
         = (a, inl (AssertionError
                      "Invalid ID: must be a positive integer."))).
Proof.
  unfold outcome, requests. rewrite run_App_update. cbn [fst snd].
  split; [|split].
  - intros e ->. reflexivity.
  - intros fetched ->. reflexivity.
  - intros H. unfold getApp, assertValidID. rewrite H. split; reflexivity.
Qed.

End Reads.

Lemma getApps_result_witness :
  exists result,
    Net.outcome
      (Samples.remote
         (Samples.inventory
            [Samples.app 1 "com.apple.Pages"; Samples.app 2 "com.khan"]
            (Some [ {| Net.InstalledApp.name := "Pages";
                       Net.InstalledApp.identifier := "com.apple.Pages";
                       Net.InstalledApp.version := "11";
                       Net.InstalledApp.vendor := "";
                       Net.InstalledApp.icon := "" |} ])) true)
      (Device.getApps Samples.noFraction Samples.ipad)
    = (Samples.ipad, inr result)
    /\ (In (Client.createApp (Samples.app 1 "com.apple.Pages")) result)
    /\ ~ In (Client.createApp (Samples.app 2 "com.khan")) result.
Proof.
  destruct (getApps_result Samples.noFraction
              (Samples.remote
                 (Samples.inventory
                    [Samples.app 1 "com.apple.Pages"; Samples.app 2 "com.khan"]
                    (Some [ {| Net.InstalledApp.name := "Pages";
                               Net.InstalledApp.identifier := "com.apple.Pages";
                               Net.InstalledApp.version := "11";
                               Net.InstalledApp.vendor := "";
                               Net.InstalledApp.icon := "" |} ])) true)
              Samples.ipad _ _ _ eq_refl eq_refl eq_refl)
    as [result [Ho [Hin _]]].
  exists result. split; [exact Ho|]. split.
  - apply Hin. split; [simpl; tauto|].
    eexists. split; [left; reflexivity|reflexivity].
  - intros H. apply Hin in H as [_ [i [[<-|[]] Hi]]]. discriminate Hi.
Defined.

Lemma App_update_atomic_witness :
  API.isValidID (App.id (Client.createApp (Samples.app (-3) "x"))) = false
  /\ Net.requests (Samples.remote Samples.down true)
       (App.update Samples.noFraction (Client.createApp (Samples.app (-3) "x")))
     = [].
Proof.
  split; [reflexivity|].
  exact (proj1 (proj2 (proj2 (App_update_atomic Samples.noFraction
           (Samples.remote Samples.down true)
           (Client.createApp (Samples.app (-3) "x")))) eq_refl)).
Defined.

Section AppDevices.
Import Net API APIErrors AppTraversal.
Local Open Scope method_scope.
Variable shortest : Q -> string.

(** The devices that the callback of [getDevices] keeps. *)
Lemma filterThrowing_hasApp (bundleId : string) (devices : list DeviceData) :
  ((exists device, In device devices /\ apps device = None) ->
   filterThrowing (hasApp bundleId) devices
   = inl (AssertionError "Expected an array of apps"))
  /\ ((forall device, In device devices -> apps device <> None) ->
      filterThrowing (hasApp bundleId) devices
      = inr (filter (fun device =>
                       match apps device with
                       | Some installed =>
                           existsb (fun app =>
                                      String.eqb (InstalledApp.identifier app)
                                        bundleId) installed
                       | None => false
                       end) devices)).
Proof.
  induction devices as [|x rest [IHbad IHgood]].
  - split; [intros [device [[] _]]|reflexivity].
  - split.
    + intros [device [Hin Hnone]]. simpl. unfold hasApp at 1.
      destruct (apps x) as [installed|] eqn:Hx; [|reflexivity].
      destruct Hin as [->|Hin]; [congruence|].
      rewrite IHbad by eauto. reflexivity.
    + intros Hall. simpl. unfold hasApp at 1.
      destruct (apps x) as [installed|] eqn:Hx.
      * rewrite IHgood by (intros device Hin; apply Hall; now right).
        destruct (existsb _ installed); reflexivity.
      * destruct (Hall x (or_introl eq_refl) Hx).
Qed.

Lemma run_App_getDevices (w : Remote) (a : App.t) :
  run w [] (getDevices shortest a)
  = (fst (run w [] (API.getDevices shortest includingApps)),
     (a, match snd (run w [] (API.getDevices shortest includingApps)) with
         | inl e => if recoverable e then inr [] else inl e
         | inr devices =>
             match filterThrowing (hasApp (App.bundleId a)) devices with
             | inl e => inl e
             | inr found => inr (map Client.createDevice found)
             end
         end)).
Proof.
  unfold getDevices. rewrite mbind_this.
  unfold mbind, attempt, call. rewrite !run_bind.
  fold (App.bundleId a).
  destruct (run w [] (API.getDevices shortest includingApps))
    as [sent [e|devices]]; cbn [snd fst run].
  - unfold suppressAPIError. destruct (recoverable e); reflexivity.
  - destruct (filterThrowing (hasApp (App.bundleId a)) devices);
      reflexivity.
Qed.

(** X17.  [getDevices()] of an app sends one GET to [devices] with the
    query [includeApps=1] and never changes the snapshot of the app.  When
    the list arrives, a device in it without its apps makes the call throw
    an assertion error; when every device comes with its apps, the result
    holds exactly the devices of the list on which an app with the bundle
    ID of this app is installed. *)
Theorem App_getDevices_contract (w : Remote) (a : App.t) :
  requests w (getDevices shortest a)
  = [ {| method := GET; path := "devices";
         searchParams := Some [("includeApps", "1")]; body := None |} ]
  /\ fst (outcome w (getDevices shortest a)) = a
  /\ forall devices,
       outcome w (API.getDevices shortest includingApps) = inr devices ->
       ((exists device, In device devices /\ apps device = None) ->
        snd (outcome w (getDevices shortest a))
        = inl (AssertionError "Expected an array of apps"))
       /\ ((forall device, In device devices -> apps device <> None) ->
           exists found,
             snd (outcome w (getDevices shortest a)) = inr found
             /\ forall x,
                  In x found
                  <-> In (Client.deviceData x) devices
                      /\ exists installed i,
                           apps (Client.deviceData x) = Some installed
                           /\ In i installed
                           /\ InstalledApp.identifier i = App.bundleId a).
Proof.
  unfold requests, outcome. rewrite run_App_getDevices. cbn [fst snd].
  split; [|split; [reflexivity|]].
  - destruct (getDevices_shape shortest includingApps)
      as [req [Hreq [_ [_ [_ E]]]]].
    rewrite E, (run_exchange_field w [] GET_devices req devices).
    cbn [fst]. simpl in Hreq. inversion Hreq. reflexivity.
  - intros devices ->.
    destruct (filterThrowing_hasApp (App.bundleId a) devices)
      as [Hbad Hgood].
    split.
    + intros H. now rewrite (Hbad H).
    + intros H. rewrite (Hgood H). eexists. split; [reflexivity|].
      intros [x]. rewrite in_map_iff. cbn [Client.deviceData]. split.
      * intros [y [Hy Hin]]. inversion Hy; subst y.
        apply filter_In in Hin as [Hin Hk]. split; [exact Hin|].
        destruct (apps x) as [installed|]; [|discriminate].
        apply existsb_exists in Hk as [i [Hi Heq]].
        apply String.eqb_eq in Heq. eauto.
      * intros [Hin [installed [i [Hx [Hi Heq]]]]].
        exists x. split; [reflexivity|].
        apply filter_In. split; [exact Hin|]. rewrite Hx.
        apply existsb_exists. exists i. split; [exact Hi|].
        now apply String.eqb_eq.
Qed.

End AppDevices.

Lemma App_getDevices_contract_witness :
  Net.outcome (Samples.remote (Samples.listing [Samples.reenrolled]) true)
    (API.getDevices Samples.noFraction AppTraversal.includingApps)
  = inr [Samples.reenrolled]
  /\ Net.apps Samples.reenrolled = None
  /\ snd (Net.outcome
            (Samples.remote (Samples.listing [Samples.reenrolled]) true)
            (AppTraversal.getDevices Samples.noFraction
               (Client.createApp (Samples.app 1 "com.apple.Pages"))))
     = inl (Net.AssertionError "Expected an array of apps").
Proof.
  split; [reflexivity|]. split; [reflexivity|].
  apply (proj1 (proj2 (proj2 (App_getDevices_contract Samples.noFraction
           (Samples.remote (Samples.listing [Samples.reenrolled]) true)
           (Client.createApp (Samples.app 1 "com.apple.Pages"))))
           [Samples.reenrolled] eq_refl)).
  exists Samples.reenrolled. split; [left|]; reflexivity.
Defined.

(** *** The enrollment table *)

Section EnrollmentTable.
Import Net DeviceView.

(** X18.  The table [enrollment] loses nothing: two values of [enrollType]
    with the same entry are the same value.  An entry is pending exactly
    for [ac2Pending] and [depPending], and a manual enrollment is never
    pending. *)
Theorem enrollment_table :
  (forall k1 k2, enrollment k1 = enrollment k2 -> k1 = k2)
  /\ (forall k, pending (enrollment k) = true
                <-> k = ac2Pending \/ k = depPending)
  /\ (forall k, type (enrollment k) = manual_ <-> k = manual).
Proof.
  split; [|split].
  - intros [] []; simpl; intros H; try reflexivity; discriminate H.
  - intros []; simpl; split; intros H; try discriminate H; auto;
      destruct H as [H|H]; discriminate H.
  - intros []; simpl; split; intros H; try discriminate H; reflexivity.
Qed.

Lemma enrollment_table_witness :
  enrollment ac2Pending = {| type := ac2_; pending := true |}
  /\ (enrollment ac2Pending = enrollment ac2Pending
      -> ac2Pending = ac2Pending)
  /\ pending (enrollment depPending) = true.
Proof.
  split; [reflexivity|]. split.
  - exact (proj1 enrollment_table ac2Pending ac2Pending).
  - apply (proj1 (proj2 enrollment_table) depPending). now right.
Defined.

End EnrollmentTable.

(** *** The bundling script *)

Section Bundle.
Import Scripts.

Lemma append_empty_r (s : string) : (s ++ "")%string = s.
Proof. induction s as [|c s IH]; simpl; [reflexivity|now rewrite IH]. Qed.

Lemma chars_append (a b : string) :
  JS.chars (a ++ b) = JS.chars a ++ JS.chars b.
Proof.
  unfold JS.chars. induction a as [|c a IH]; simpl; [reflexivity|].
  now rewrite IH.
Qed.

Lemma concat_cons (x : string) (l : list string) :
  String.concat "" (x :: l) = (x ++ String.concat "" l)%string.
Proof.
  destruct l as [|y l]; simpl; [now rewrite append_empty_r|reflexivity].
Qed.

(** The characters of [s.replaceAll(search, replacement)]. *)
Lemma chars_replaceAll (search : ascii) (replacement s : string) :
  JS.chars (replaceAll search replacement s)
  = flat_map (fun c => if Ascii.eqb c search then JS.chars replacement
                       else [c])
      (JS.chars s).
Proof.
  unfold replaceAll.
  induction (JS.chars s) as [|c rest IH]; [reflexivity|].
  cbn [map flat_map].
  rewrite concat_cons, chars_append, IH.
  destruct (Ascii.eqb c search); reflexivity.
Qed.

(** X19.  The file name that the bundling script derives from a route key
    has no blank, no colon and no slash, whatever the key is: it names a
    file of the build directory itself.  On the route keys of the API
    surface the names are pairwise different, so no validator overwrites
    another. *)
Theorem outFileName_is_a_file_name :
  (forall key c,
     In c (JS.chars (outFileName key)) ->
     c <> " "%char /\ c <> ":"%char /\ c <> "/"%char)
  /\ NoDup (map outFileName routeKeys).
Proof.
  split.
  - intros key c. unfold outFileName.
    rewrite chars_append, in_app_iff, !chars_replaceAll.
    intros [H|H].
    + apply in_flat_map in H as [c1 [H1 Hc]].
      apply in_flat_map in H1 as [c2 [H2 Hc1]].
      apply in_flat_map in H2 as [c3 [_ Hc2]].
      destruct (Ascii.eqb c3 " ") eqn:E3; [destruct Hc2|].
      destruct Hc2 as [<-|[]].
      destruct (Ascii.eqb c3 ":") eqn:E2; [destruct Hc1|].
      destruct Hc1 as [<-|[]].
      destruct (Ascii.eqb c3 "/") eqn:E1.
      * destruct Hc as [<-|[]]. repeat split; discriminate.
      * destruct Hc as [<-|[]].
        apply Ascii.eqb_neq in E1, E2, E3. auto.
    + simpl in H.
      repeat (destruct H as [<-|H]; [repeat split; discriminate|]).
      destruct H.
  - assert (E : nodup string_dec (map outFileName routeKeys)
                = map outFileName routeKeys) by (vm_compute; reflexivity).
    rewrite <- E. apply NoDup_nodup.
Qed.

End Bundle.

Lemma outFileName_is_a_file_name_witness :
  Scripts.outFileName "PUT /devices/:udid/migrate"
  = "PUT_devices_udid_migrate.ts"
  /\ In "_"%char (JS.chars (Scripts.outFileName "PUT /devices/:udid/migrate"))
  /\ "_"%char <> "/"%char.
Proof.
  split; [reflexivity|].
  assert (H : In "_"%char
                (JS.chars (Scripts.outFileName "PUT /devices/:udid/migrate")))
    by (simpl; tauto).
  split; [exact H|].
  exact (proj2 (proj2 (proj1 outFileName_is_a_file_name _ _ H))).
Defined.

(** *** Response schemas *)

Section SchemaFacts.
Import JS JTD Schemas.

Lemma lookup_In {A} (key : string) (l : list (string * A)) (a : A) :
  lookup key l = Some a -> In (key, a) l.
Proof.
  induction l as [|[k x] rest IH]; simpl; [discriminate|].
  destruct (String.eqb k key) eqn:E.
  - apply String.eqb_eq in E. intros H. inversion H; subst. now left.
  - intros H. right. now apply IH.
Qed.

Lemma member_In (key : string) (ms : list (string * json)) (v : json) :
  member key ms = Some v -> In (key, v) ms.
Proof.
  induction ms as [|[k x] rest IH]; simpl; [discriminate|].
  destruct (String.eqb k key) eqn:E.
  - apply String.eqb_eq in E. intros H. inversion H; subst. now left.
  - intros H. right. now apply IH.
Qed.

Lemma In_member (key : string) (ms : list (string * json)) (v : json) :
  In (key, v) ms -> exists v', member key ms = Some v'.
Proof.
  induction ms as [|[k x] rest IH]; simpl; [intros []|].
  intros [H|H].
  - inversion H; subst. rewrite String.eqb_refl. eauto.
  - destruct (String.eqb k key); eauto.
Qed.

(** A document that a schema accepts, taken apart. *)
Lemma valid_properties (properties optionalProperties : list (string * Schema))
    (ms : list (string * json)) :
  valid (Properties properties optionalProperties) (JObject ms) = true
  <-> (forall key s, In (key, s) properties ->
         exists v, member key ms = Some v /\ valid s v = true)
      /\ (forall key s v, In (key, s) optionalProperties ->
            member key ms = Some v -> valid s v = true)
      /\ (forall key v, In (key, v) ms ->
            declares key properties || declares key optionalProperties
            = true).
Proof.
  cbn [valid]. rewrite !andb_true_iff, !forallb_forall. split.
  - intros [[Hreq Hopt] Hmore]. split; [|split].
    + intros key s Hin. specialize (Hreq _ Hin). cbn in Hreq.
      destruct (member key ms) as [v|]; [eauto|discriminate].
    + intros key s v Hin Hm. specialize (Hopt _ Hin). cbn in Hopt.
      now rewrite Hm in Hopt.
    + intros key v Hin. exact (Hmore _ Hin).
  - intros [Hreq [Hopt Hmore]]. split; [split|].
    + intros [key s] Hin. destruct (Hreq _ _ Hin) as [v [-> Hv]]. exact Hv.
    + intros [key s] Hin.
      destruct (member key ms) as [v|] eqn:Hm; [|reflexivity].
      exact (Hopt _ _ _ Hin Hm).
    + intros [key v] Hin. exact (Hmore _ _ Hin).
Qed.

(** A schema that grants a type accepts only documents of that type. *)
Lemma grants_sound (t : Ty) :
  forall (s : Schema) (j : json),
    grants s t = true -> valid s j = true -> inhabits t j = true.
Proof.
  induction t as [| | |literals|elements IH|fields IH] using Ty_induction;
    intros s j Hg Hv.
  - destruct s as [[]| | |]; try discriminate. destruct j; auto.
  - destruct s as [[]| | |]; try discriminate. destruct j; auto.
  - destruct s as [[]| | |]; try discriminate; destruct j; auto;
      discriminate.
  - destruct s as [|values| |]; try discriminate.
    destruct j; try discriminate. cbn in *.
    apply existsb_exists in Hv as [v [Hin Heq]].
    apply String.eqb_eq in Heq. subst v.
    rewrite forallb_forall in Hg. exact (Hg _ Hin).
  - destruct s as [| |s'|]; try discriminate.
    destruct j as [| | | |items|]; try discriminate. cbn in *.
    rewrite forallb_forall in *. intros x Hx. eapply IH; eauto.
  - destruct s as [| | |properties optionalProperties]; try discriminate.
    destruct j as [| | | | |ms]; try discriminate.
    apply valid_properties in Hv as [Hreq [Hopt _]].
    cbn in Hg. cbn [inhabits].
    rewrite forallb_forall in *. rewrite Forall_forall in IH.
    intros [name [isOptional t']] Hin.
    specialize (Hg _ Hin). specialize (IH _ Hin). cbn in Hg, IH.
    destruct (lookup name properties) as [s'|] eqn:Hl.
    + apply lookup_In in Hl. destruct (Hreq _ _ Hl) as [v [-> Hv]].
      eapply IH; eauto.
    + apply andb_true_iff in Hg as [-> Hg].
      destruct (member name ms) as [v|] eqn:Hm; [|reflexivity].
      destruct (lookup name optionalProperties) as [s'|] eqn:Hl';
        [|discriminate].
      apply lookup_In in Hl'. eapply IH; eauto.
Qed.

(** X20.  Every response that the validator of [GET /devices] accepts has
    the declared type [ResponseData]: each device of it has all the
    required fields of that type, at their types, and its optional fields
    ([apps], [isBootstrapStored], the coordinates of the region, ...) are
    absent or at their types.  So no getter of [Device] reads a field that
    is missing. *)
Theorem schema_grants_the_type (j : json) :
  valid responseSchema j = true -> inhabits ResponseData j = true.
Proof.
  apply grants_sound. vm_compute. reflexivity.
Qed.

Lemma schema_grants_the_type_witness :
  valid responseSchema
    (responseDocument
       (deviceDocument (JObject [("string", JString "Home")]) "dep")) = true
  /\ inhabits ResponseData
       (responseDocument
          (deviceDocument (JObject [("string", JString "Home")]) "dep"))
     = true.
Proof.
  assert (H : valid responseSchema
                (responseDocument
                   (deviceDocument (JObject [("string", JString "Home")])
                      "dep")) = true) by (vm_compute; reflexivity).
  split; [exact H|]. exact (schema_grants_the_type _ H).
Defined.

(** X21.  The values that the schema of a device accepts for [enrollType]
    are exactly the keys of the table [enrollment] of [Device]: the lookup
    [enrollment[this.#data.enrollType]] is defined on validated data, and
    the table has no key that the schema excludes. *)
Theorem enrollType_schema_matches_table :
  exists enum,
    lookup "enrollType" (requiredOf deviceSchema) = Some enum
    /\ forall s,
         valid enum (JString s) = true
         <-> exists key : Net.EnrollType, enrollTypeName key = s.
Proof.
  eexists. split; [reflexivity|].
  intros s. cbn [valid]. rewrite existsb_exists. split.
  - intros [v [Hin Heq]]. apply String.eqb_eq in Heq. subst v.
    simpl in Hin.
    destruct Hin as [<-|[<-|[<-|[<-|[<-|[]]]]]].
    + now exists Net.ac2.
    + now exists Net.ac2Pending.
    + now exists Net.dep.
    + now exists Net.depPending.
    + now exists Net.manual.
  - intros [key <-]. exists (enrollTypeName key).
    split; [|apply String.eqb_refl].
    destruct key; simpl; tauto.
Qed.

(** X22.  The schema of a device is strict in both directions: a device
    that lacks one of its required properties is rejected, and so is a
    device with a property that the schema does not declare. *)
Theorem deviceSchema_is_strict (ms : list (string * json)) (key : string) :
  (declares key (requiredOf deviceSchema) = true ->
   member key ms = None ->
   valid deviceSchema (JObject ms) = false)
  /\ (declares key (requiredOf deviceSchema)
      || declares key (optionalOf deviceSchema) = false ->
      member key ms <> None ->
      valid deviceSchema (JObject ms) = false).
Proof.
  unfold deviceSchema. cbn [requiredOf optionalOf]. split.
  - intros Hd Hm.
    destruct (valid _ _) eqn:Hv; [|reflexivity].
    apply valid_properties in Hv as [Hreq _].
    unfold declares in Hd.
    match type of Hd with
    | context [lookup key ?p] =>
        destruct (lookup key p) as [s|] eqn:Hl; [|discriminate];
        apply lookup_In in Hl; destruct (Hreq _ _ Hl) as [v [Hv _]]
    end.
    congruence.
  - intros Hd Hm.
    destruct (valid _ _) eqn:Hv; [|reflexivity].
    apply valid_properties in Hv as [_ [_ Hmore]].
    destruct (member key ms) as [v|] eqn:Hk; [|congruence].
    apply member_In in Hk. specialize (Hmore _ _ Hk). congruence.
Qed.

Lemma deviceSchema_is_strict_witness :
  valid deviceSchema
    (JObject (deviceDocument (JObject [("string", JString "Home")]) "dep"))
  = true
  /\ valid deviceSchema
       (JObject (("jailbroken", JBool false)
                 :: deviceDocument (JObject [("string", JString "Home")])
                      "dep")) = false
  /\ valid deviceSchema
       (JObject (tl (deviceDocument (JObject [("string", JString "Home")])
                       "dep"))) = false.
Proof.
  split; [vm_compute; reflexivity|]. split.
  - apply (proj2 (deviceSchema_is_strict
             (("jailbroken", JBool false)
              :: deviceDocument (JObject [("string", JString "Home")]) "dep")
             "jailbroken")).
    + vm_compute. reflexivity.
    + discriminate.
  - apply (proj1 (deviceSchema_is_strict
             (tl (deviceDocument (JObject [("string", JString "Home")])
                    "dep"))
             "UDID")).
    + vm_compute. reflexivity.
    + vm_compute. reflexivity.
Defined.

(** X23.  The schema of the write receipt accepts exactly the objects that
    have a string [message], a string [device] and no other property. *)
Theorem receiptSchema_accepts (j : json) :
  valid receiptSchema j = true
  <-> exists ms m d,
        j = JObject ms
        /\ member "message" ms = Some (JString m)
        /\ member "device" ms = Some (JString d)
        /\ forall key v, In (key, v) ms -> key = "message" \/ key = "device".
Proof.
  split.
  - intros H. destruct j as [| | | | |ms]; try discriminate.
    apply valid_properties in H as [Hreq [_ Hmore]].
    destruct (Hreq "message" string__ (or_introl eq_refl)) as [v1 [H1 V1]].
    destruct (Hreq "device" string__ (or_intror (or_introl eq_refl)))
      as [v2 [H2 V2]].
    destruct v1 as [| | |m| |]; try discriminate.
    destruct v2 as [| | |d| |]; try discriminate.
    exists ms, m, d. repeat split; auto.
    intros key v Hin. specialize (Hmore _ _ Hin).
    unfold declares in Hmore. cbn [lookup] in Hmore.
    destruct (String.eqb "message" key) eqn:E1;
      [apply String.eqb_eq in E1; auto|].
    destruct (String.eqb "device" key) eqn:E2;
      [apply String.eqb_eq in E2; auto|].
    discriminate.
  - intros [ms [m [d [-> [H1 [H2 Hmore]]]]]].
    apply valid_properties. split; [|split].
    + intros key s [H|[H|[]]]; inversion H; subst; eauto.
    + intros key s v [].
    + intros key v Hin.
      destruct (Hmore _ _ Hin) as [-> | ->]; reflexivity.
Qed.

Lemma enrollType_schema_matches_table_witness :
  exists enum,
    lookup "enrollType" (requiredOf deviceSchema) = Some enum
    /\ valid enum (JString "depPending") = true
    /\ valid enum (JString "byod") = false.
Proof.
  destruct enrollType_schema_matches_table as [enum [Hl Hv]].
  exists enum. split; [exact Hl|]. split.
  - apply Hv. now exists Net.depPending.
  - destruct (valid enum (JString "byod")) eqn:E; [|reflexivity].
    apply Hv in E as [[] E]; discriminate E.
Defined.

Lemma receiptSchema_accepts_witness :
  valid receiptSchema
    (JObject [("message", JString "DeviceOwnerSet");
              ("device", JString "c0ffee")]) = true.
Proof.
  apply (proj2 (receiptSchema_accepts _)).
  exists [("message", JString "DeviceOwnerSet"); ("device", JString "c0ffee")],
    "DeviceOwnerSet", "c0ffee".
  split; [reflexivity|]. split; [reflexivity|]. split; [reflexivity|].
  intros key v [H|[H|[]]]; inversion H; auto.
Defined.

End SchemaFacts.

(** *** Users and device groups *)

Section DirectoryFacts.
Import Directory.
Local Open Scope directory_scope.

Variable shortest : Q -> string.

Lemma directory_run_bind {A B} (w : Remote) (p : IO A) (f : A -> IO B) sent :
  run w sent (bind p f)
  = run w (fst (run w sent p)) (f (snd (run w sent p))).
Proof.
  revert sent. induction p as [a|r req k IH]; intros sent; simpl; auto.
Qed.

(** What a method gets from one exchange: the hooks, then [.json()], then
    the validator of the route. *)
Lemma directory_exchange (w : Remote) (r : Route) (req : Net.Request) sent :
  run w sent (await (json r req) (assertValid r))
  = (sent ++ [req],
     match afterResponse req (respond w r sent req) with
     | Some e => inl e
     | None =>
         match payload (respond w r sent req) with
         | Net.NotJSON => inl SyntaxError
         | Net.Rejected => inl (SchemaError r)
         | Net.Accepted d => inr d
         end
     end).
Proof.
  simpl.
  destruct (afterResponse req (respond w r sent req)); [reflexivity|].
  destruct (payload (respond w r sent req)); reflexivity.
Qed.

(** A valid ID is a whole number, and prints as its decimal numeral. *)
Lemma valid_ID_prints_decimal (id : JS.number) :
  API.isValidID id = true ->
  exists z, (0 <= z <= JS.MAX_SAFE_INTEGER)%Z
            /\ JS.strictEquals id (JS.ofZ z) = true
            /\ JS.Number_toString shortest id = JS.decimal z.
Proof.
  intros H.
  destruct (proj1 (isValidID_spec id) H) as [q [z [-> [Hq Hz]]]].
  exists z. split; [exact Hz|].
  split; [unfold JS.strictEquals, JS.ofZ; now apply Qeq_bool_iff|].
  unfold Qeq in Hq. simpl in Hq. rewrite Z.mul_1_r in Hq.
  unfold JS.Number_toString, JS.isIntegral, JS.integerValue.
  rewrite Hq, Z.mod_mul, Z.div_mul by lia.
  rewrite Z.eqb_refl.
  replace (Z.abs z <? 10 ^ 21)%Z with true; [reflexivity|].
  symmetry. apply Z.ltb_lt. unfold JS.MAX_SAFE_INTEGER in Hz. lia.
Qed.

Lemma optionalForEach_elements (f : JS.value -> Promise unit) (v : JS.value) :
  optionalArray v = true -> optionalForEach f v = forEach f (elements v).
Proof. destruct v; try discriminate; reflexivity. Qed.

Lemma forEach_assertValidIDValue (items : list JS.value) :
  forEach assertValidIDValue items
  = if forallb isValidIDValue items then resolve tt
    else throw (AssertionError "Invalid ID: must be a positive integer.").
Proof.
  induction items as [|v rest IH]; [reflexivity|].
  cbn [forEach forallb]. unfold assertValidIDValue at 1, assert.
  destruct (isValidIDValue v); [exact IH|reflexivity].
Qed.

Lemma forEach_assertValidIDIfNumber (items : list JS.value) :
  forEach assertValidIDIfNumber items
  = if forallb (fun v => match v with
                         | JS.Num n => API.isValidID n
                         | _ => true
                         end) items
    then resolve tt
    else throw (AssertionError "Invalid ID: must be a positive integer.").
Proof.
  induction items as [|v rest IH]; [reflexivity|].
  cbn [forEach forallb].
  destruct v as [| |b|n|s|l|ps]; try exact IH.
  unfold assertValidIDIfNumber at 1, assertValidID, assert.
  destruct (API.isValidID n); [exact IH|reflexivity].
Qed.

Lemma all_IDs_iff (items : list JS.value) :
  forallb isValidIDValue items = true
  <-> Forall (fun v => exists n, v = JS.Num n /\ API.isValidID n = true) items.
Proof.
  rewrite forallb_forall, Forall_forall. split; intros H v Hv.
  - specialize (H v Hv). destruct v; try discriminate. eauto.
  - destruct (H v Hv) as [n [-> Hn]]. exact Hn.
Qed.

Lemma numbers_IDs_iff (items : list JS.value) :
  forallb (fun v => match v with
                    | JS.Num n => API.isValidID n
                    | _ => true
                    end) items = true
  <-> Forall (fun v => forall n, v = JS.Num n -> API.isValidID n = true) items.
Proof.
  rewrite forallb_forall, Forall_forall. split; intros H v Hv.
  - intros n ->. exact (H _ Hv).
  - destruct v; try reflexivity. exact (H _ Hv _ eq_refl).
Qed.

(** X24.  [updateUser] checks the user ID, then every entry of [teacher],
    then every entry of [children], then the numeric entries of [memberOf],
    and only then sends.  For an object whose three properties are arrays or
    absent: when the ID is valid, the entries of [teacher] and [children]
    are valid IDs and the numbers of [memberOf] are valid IDs, one PUT to
    [users/<id>] carries the object as it is; otherwise nothing is sent and
    the assertion of the IDs fails.  The entries of [memberOf] that are no
    numbers (group names) are not checked. *)
Theorem updateUser_validates_first (id : JS.number)
    (props : list (string * JS.value)) :
  optionalArray (property "teacher" props) = true ->
  optionalArray (property "children" props) = true ->
  optionalArray (property "memberOf" props) = true ->
  let isID := fun v => exists n, v = JS.Num n /\ API.isValidID n = true in
  let admissible :=
    API.isValidID id = true
    /\ Forall isID (elements (property "teacher" props))
    /\ Forall isID (elements (property "children" props))
    /\ Forall (fun v => forall n, v = JS.Num n -> API.isValidID n = true)
         (elements (property "memberOf" props)) in
  forall w,
    (admissible ->
     requests w (updateUser shortest id (JS.Obj props))
     = [ {| Net.method := Net.PUT;
            Net.path := "users/" ++ JS.Number_toString shortest id;
            Net.searchParams := None;
            Net.body := JS.stringify (JS.Obj props) |} ])
    /\ (~ admissible ->
        requests w (updateUser shortest id (JS.Obj props)) = []
        /\ outcome w (updateUser shortest id (JS.Obj props))
           = inl (AssertionError "Invalid ID: must be a positive integer.")).
Proof.
  intros Ht Hc Hm isID admissible w.
  assert (Hadm : admissible
                 <-> API.isValidID id = true
                     /\ forallb isValidIDValue
                          (elements (property "teacher" props)) = true
                     /\ forallb isValidIDValue
                          (elements (property "children" props)) = true
                     /\ forallb (fun v => match v with
                                          | JS.Num n => API.isValidID n
                                          | _ => true
                                          end)
                          (elements (property "memberOf" props)) = true).
  { unfold admissible, isID.
    rewrite !all_IDs_iff, numbers_IDs_iff. reflexivity. }
  unfold updateUser, get, assertValidID, assert.
  cbn [await bind resolve].
  rewrite (optionalForEach_elements _ _ Ht), (optionalForEach_elements _ _ Hc),
    (optionalForEach_elements _ _ Hm).
  rewrite !forEach_assertValidIDValue, forEach_assertValidIDIfNumber.
  destruct (API.isValidID id) eqn:Hid;
    [|split; [intros H; apply Hadm in H; destruct H; discriminate
             |intros _; split; reflexivity]].
  destruct (forallb isValidIDValue (elements (property "teacher" props)))
    eqn:H1;
    [|split; [intros H; apply Hadm in H; destruct H as (_ & H & _);
                discriminate
             |intros _; split; reflexivity]].
  destruct (forallb isValidIDValue (elements (property "children" props)))
    eqn:H2;
    [|split; [intros H; apply Hadm in H; destruct H as (_ & _ & H & _);
                discriminate
             |intros _; split; reflexivity]].
  destruct (forallb _ (elements (property "memberOf" props))) eqn:H3;
    [|split; [intros H; apply Hadm in H; destruct H as (_ & _ & _ & H);
                discriminate
             |intros _; split; reflexivity]].
  split.
  - intros _. cbn [await bind resolve].
    unfold requests.
    change (fst (run w [] (await (json PUT_users_id
              {| Net.method := Net.PUT;
                 Net.path := "users/" ++ JS.Number_toString shortest id;
                 Net.searchParams := None;
                 Net.body := JS.stringify (JS.Obj props) |})
              (assertValid PUT_users_id))) = [
              {| Net.method := Net.PUT;
                 Net.path := "users/" ++ JS.Number_toString shortest id;
                 Net.searchParams := None;
                 Net.body := JS.stringify (JS.Obj props) |} ]).
    now rewrite directory_exchange.
  - intros H. exfalso. apply H, Hadm. repeat split; assumption.
Qed.

(** X25.  [moveUser] checks the user ID, then the location ID.  With both
    valid it sends one PUT to [users/<id>/migrate]: the user ID is a whole
    number from 0 to [MAX_SAFE_INTEGER], and the path holds its decimal
    numeral; the body has the location ID and, when the option is omitted,
    no key [onlyUser]; when the option is given, the key carries it,
    [false] included.  With one of them not valid it throws and sends
    nothing. *)
Theorem moveUser_request (userId locationId : JS.number)
    (options : option APIMoveUserOptions) :
  (API.isValidID userId = true ->
   API.isValidID locationId = true ->
   exists z q,
     (0 <= z <= JS.MAX_SAFE_INTEGER)%Z
     /\ JS.strictEquals userId (JS.ofZ z) = true
     /\ locationId = JS.Finite q
     /\ forall w,
          requests w (moveUser shortest userId locationId options)
          = [ {| Net.method := Net.PUT;
                 Net.path := "users/" ++ JS.decimal z ++ "/migrate";
                 Net.searchParams := None;
                 Net.body :=
                   Some (JS.JObject
                           (("locationId", JS.JNumber q)
                            :: match options with
                               | Some {| onlyUser := Some b |} =>
                                   [("onlyUser", JS.JBool b)]
                               | _ => []
                               end)) |} ])
  /\ (API.isValidID userId && API.isValidID locationId = false ->
      moveUser shortest userId locationId options
      = throw (AssertionError "Invalid ID: must be a positive integer.")).
Proof.
  split.
  - intros Hu Hl.
    destruct (valid_ID_prints_decimal userId Hu) as [z [Hz [Hid Hs]]].
    destruct (isValidID_finite locationId Hl) as [q ->].
    exists z, q. split; [exact Hz|]. split; [exact Hid|].
    split; [reflexivity|]. intros w.
    unfold moveUser, assertValidID, assert. rewrite Hu, Hl, Hs.
    cbn [await bind resolve]. unfold requests.
    destruct options as [[[b|]]|]; cbn [onlyUserOf API.optional onlyUser];
      match goal with
      | |- fst (run w [] (await (json ?r ?req) ?k)) = _ =>
          exact (f_equal fst (directory_exchange w r req []))
      end.
  - intros H. unfold moveUser, assertValidID, assert.
    destruct (API.isValidID userId); [|reflexivity].
    simpl in H. rewrite H. reflexivity.
Qed.

Lemma ok_passes_the_hooks (req : Net.Request) {r} (resp : Response r) :
  ok resp = true -> afterResponse req resp = None.
Proof.
  intros H. unfold afterResponse. rewrite H. unfold ok in H.
  apply andb_true_iff in H as [Hlo Hhi].
  apply Z.leb_le in Hlo, Hhi.
  replace (status resp =? 405)%Z with false by (symmetry; apply Z.eqb_neq; lia).
  replace (status resp =? 401)%Z with false by (symmetry; apply Z.eqb_neq; lia).
  reflexivity.
Qed.

Lemma run_getUser (w : Remote) (id : JS.number) :
  API.isValidID id = true ->
  run w [] (getUser shortest id)
  = let req := {| Net.method := Net.GET;
                  Net.path := "users/" ++ JS.Number_toString shortest id;
                  Net.searchParams := None;
                  Net.body := None |} in
    ([req],
     match afterResponse req (respond w GET_users_id [] req) with
     | Some e => inl e
     | None =>
         match payload (respond w GET_users_id [] req) with
         | Net.NotJSON => inl SyntaxError
         | Net.Rejected => inl (SchemaError GET_users_id)
         | Net.Accepted d => inr (user d)
         end
     end).
Proof.
  intros H. unfold getUser, assertValidID, assert. rewrite H.
  cbn [await bind resolve]. simpl.
  destruct (afterResponse _ _); [reflexivity|].
  destruct (payload _); reflexivity.
Qed.

Lemma run_getDeviceGroups (w : Remote) :
  run w [] getDeviceGroups
  = let req := {| Net.method := Net.GET;
                  Net.path := "devices/groups";
                  Net.searchParams := None;
                  Net.body := None |} in
    ([req],
     match afterResponse req (respond w GET_devices_groups [] req) with
     | Some e => inl e
     | None =>
         match payload (respond w GET_devices_groups [] req) with
         | Net.NotJSON => inl SyntaxError
         | Net.Rejected => inl (SchemaError GET_devices_groups)
         | Net.Accepted d => inr (deviceGroups d)
         end
     end).
Proof.
  unfold getDeviceGroups. simpl.
  destruct (afterResponse _ _); [reflexivity|].
  destruct (payload _); reflexivity.
Qed.

(** X26.  [Device.getOwner] of a device whose owner ID is 0 returns [null]
    and sends nothing.  With any other valid owner ID it sends one GET to
    [users/<owner id>], and when the response is 2xx with a body that the
    validator accepts, it returns the user made of the field [user] of that
    body. *)
Theorem getOwner_contract (d : Device.t) (w : Remote) :
  (JS.strictEquals (Device.ownerId d) (JS.ofZ 0) = true ->
   run w [] (getOwner shortest d) = ([], inr None))
  /\ (JS.strictEquals (Device.ownerId d) (JS.ofZ 0) = false ->
      API.isValidID (Device.ownerId d) = true ->
      let req :=
        {| Net.method := Net.GET;
           Net.path := "users/" ++ JS.Number_toString shortest (Device.ownerId d);
           Net.searchParams := None;
           Net.body := None |} in
      requests w (getOwner shortest d) = [req]
      /\ forall data,
           ok (respond w GET_users_id [] req) = true ->
           payload (respond w GET_users_id [] req) = Net.Accepted data ->
           outcome w (getOwner shortest d)
           = inr (Some (createUser (user data)))).
Proof.
  split.
  - intros H. unfold Device.ownerId in H. unfold getOwner. now rewrite H.
  - intros H Hv req. unfold Device.ownerId in H, Hv, req.
    unfold getOwner, requests, outcome. rewrite H.
    rewrite directory_run_bind, (run_getUser w _ Hv).
    cbn [fst snd]. fold req. split.
    + destruct (afterResponse req (respond w GET_users_id [] req)) as [e|].
      * unfold suppressAPIError. destruct (recoverable e); reflexivity.
      * destruct (payload (respond w GET_users_id [] req)); reflexivity.
    + intros data Hok Hp.
      rewrite (ok_passes_the_hooks req _ Hok), Hp. reflexivity.
Qed.

(** X27.  [Device.getGroups] sends one GET to [devices/groups], whatever
    the device is.  When the response is 2xx with a body that the validator
    accepts, it returns, in the order of the response, the device groups
    whose name is among the group names of the device: a listed group is
    returned exactly when its name is one of them. *)
Theorem getGroups_contract (d : Device.t) (w : Remote) :
  let req :=
    {| Net.method := Net.GET;
       Net.path := "devices/groups";
       Net.searchParams := None;
       Net.body := None |} in
  requests w (getGroups d) = [req]
  /\ forall data,
       ok (respond w GET_devices_groups [] req) = true ->
       payload (respond w GET_devices_groups [] req) = Net.Accepted data ->
       exists keep,
         outcome w (getGroups d)
         = inr (map createDeviceGroup (filter keep (deviceGroups data)))
         /\ forall g,
              In g (filter keep (deviceGroups data))
              <-> In g (deviceGroups data)
                  /\ In (name g) (Net.groups (Device.data d)).
Proof.
  intros req. unfold getGroups, requests, outcome.
  rewrite directory_run_bind, run_getDeviceGroups.
  cbn [fst snd]. fold req. split.
  - destruct (afterResponse req (respond w GET_devices_groups [] req)) as [e|].
    + unfold suppressAPIError. destruct (recoverable e); reflexivity.
    + destruct (payload (respond w GET_devices_groups [] req)); reflexivity.
  - intros data Hok Hp.
    exists (fun group =>
              existsb (String.eqb (name group)) (Net.groups (Device.data d))).
    rewrite (ok_passes_the_hooks req _ Hok), Hp. split; [reflexivity|].
    intros g. rewrite filter_In, existsb_exists. split.
    + intros [Hg [x [Hx He]]]. apply String.eqb_eq in He. subst x.
      split; assumption.
    + intros [Hg Hn]. split; [exact Hg|].
      exists (name g). split; [exact Hn|apply String.eqb_refl].
Qed.

End DirectoryFacts.

Lemma updateUser_validates_first_witness :
  Directory.requests DirectorySamples.school
    (Directory.updateUser Samples.noFraction (JS.ofZ 7)
       (JS.Obj [("memberOf", JS.Arr [JS.Str "Staff"; JS.Num (JS.ofZ 3)])]))
  = [ {| Net.method := Net.PUT;
         Net.path := "users/7";
         Net.searchParams := None;
         Net.body :=
           Some (JS.JObject
                   [("memberOf",
                     JS.JArray [JS.JString "Staff"; JS.JNumber 3])]) |} ].
Proof.
  refine (proj1 (updateUser_validates_first Samples.noFraction (JS.ofZ 7)
                   [("memberOf", JS.Arr [JS.Str "Staff"; JS.Num (JS.ofZ 3)])]
                   eq_refl eq_refl eq_refl DirectorySamples.school) _).
  split; [reflexivity|]. split; [constructor|]. split; [constructor|].
  constructor; [discriminate|]. constructor; [|constructor].
  intros n H. inversion H. reflexivity.
Defined.

Lemma moveUser_request_witness :
  API.isValidID (JS.ofZ 7) = true
  /\ API.isValidID (JS.ofZ 2) = true
  /\ exists z q,
       (0 <= z <= JS.MAX_SAFE_INTEGER)%Z
       /\ JS.strictEquals (JS.ofZ 7) (JS.ofZ z) = true
       /\ JS.ofZ 2 = JS.Finite q
       /\ forall w,
            Directory.requests w
              (Directory.moveUser Samples.noFraction (JS.ofZ 7) (JS.ofZ 2) None)
            = [ {| Net.method := Net.PUT;
                   Net.path := "users/" ++ JS.decimal z ++ "/migrate";
                   Net.searchParams := None;
                   Net.body :=
                     Some (JS.JObject [("locationId", JS.JNumber q)]) |} ].
Proof.
  split; [reflexivity|]. split; [reflexivity|].
  exact (proj1 (moveUser_request Samples.noFraction (JS.ofZ 7) (JS.ofZ 2) None)
           eq_refl eq_refl).
Defined.

Lemma getOwner_contract_witness :
  Directory.run DirectorySamples.school []
    (Directory.getOwner Samples.noFraction Samples.unowned)
  = ([], inr None)
  /\ Directory.outcome DirectorySamples.school
       (Directory.getOwner Samples.noFraction Samples.ipad)
     = inr (Some (Directory.createUser (JS.JObject [("id", JS.JNumber 7)]))).
Proof.
  split.
  - exact (proj1 (getOwner_contract Samples.noFraction Samples.unowned
                    DirectorySamples.school) eq_refl).
  - exact (proj2 (proj2 (getOwner_contract Samples.noFraction Samples.ipad
                           DirectorySamples.school) eq_refl eq_refl)
             {| Directory.user := JS.JObject [("id", JS.JNumber 7)] |}
             eq_refl eq_refl).
Defined.

Lemma getGroups_contract_witness :
  exists keep,
    Directory.outcome DirectorySamples.school
      (Directory.getGroups Samples.ipad)
    = inr (map Directory.createDeviceGroup
             (filter keep
                [ {| Directory.id := JS.ofZ 1; Directory.name := "Year 7" |};
                  {| Directory.id := JS.ofZ 2;
                     Directory.name := "IT Devices" |} ]))
    /\ forall g,
         In g (filter keep
                 [ {| Directory.id := JS.ofZ 1; Directory.name := "Year 7" |};
                   {| Directory.id := JS.ofZ 2;
                      Directory.name := "IT Devices" |} ])
         <-> In g [ {| Directory.id := JS.ofZ 1; Directory.name := "Year 7" |};
                    {| Directory.id := JS.ofZ 2;
                       Directory.name := "IT Devices" |} ]
             /\ In (Directory.name g) ["IT Devices"].
Proof.
  exact (proj2 (getGroups_contract Samples.ipad DirectorySamples.school)
           {| Directory.deviceGroups :=
                [ {| Directory.id := JS.ofZ 1; Directory.name := "Year 7" |};
                  {| Directory.id := JS.ofZ 2;
                     Directory.name := "IT Devices" |} ] |}
           eq_refl eq_refl).
Defined.
